(** * Lrix / MiniOS kernel core: virtual-memory manager, process subsystem,
      trap dispatcher.

    A shallow embedding of [kernel/mem/vmm.c], [kernel/proc/proc.c],
    [kernel/trap/trap.c] and [kernel/include/riscv.h].

    Conventions of the embedding.
    - [uint64_t] values and pointers are [Z] in [0, 2^64); every arithmetic
      operation that can leave that range is wrapped with [u64].
    - RAM is byte addressed ([mem]); the page tables, the kernel stacks, the
      trap frame and the user heaps live there.  The kernel runs in machine
      mode, where an address used by the C code is the address that reaches
      RAM.
    - [PCB] and [procqueue] objects are kept in typed stores indexed by their
      address (the layout of the two structs comes from [proc.h]).
    - A call that leaves through [switch_context] does not return in the
      caller's time line: its result is a [Yield] carrying the continuation
      that runs on the state in which the task is resumed. *)

From Stdlib Require Import ZArith List Bool Lia.
Import ListNotations.
Local Open Scope Z_scope.

(** ** Machine words *)

Module Word.

Definition two64 : Z := 2 ^ 64.

Definition u64 (x : Z) : Z := x mod two64.

(** [int] results and pids: 32-bit two's complement. *)
Definition s32 (x : Z) : Z := (x + 2 ^ 31) mod 2 ^ 32 - 2 ^ 31.

Definition in_u64 (x : Z) : Prop := 0 <= x < two64.

End Word.
Import Word.

(** ** Byte-addressed RAM *)

Module Mem.

Definition mem : Type := Z -> Z.

Definition load8 (m : mem) (a : Z) : Z := m a mod 256.

Definition store8 (m : mem) (a v : Z) : mem :=
  fun x => if x =? a then v mod 256 else m x.

(** Little-endian 64-bit accesses (RV64). *)
Definition load64 (m : mem) (a : Z) : Z :=
  load8 m a
  + 2 ^ 8 * load8 m (a + 1)
  + 2 ^ 16 * load8 m (a + 2)
  + 2 ^ 24 * load8 m (a + 3)
  + 2 ^ 32 * load8 m (a + 4)
  + 2 ^ 40 * load8 m (a + 5)
  + 2 ^ 48 * load8 m (a + 6)
  + 2 ^ 56 * load8 m (a + 7).

Definition store64 (m : mem) (a v : Z) : mem :=
  let m := store8 m a v in
  let m := store8 m (a + 1) (v / 2 ^ 8) in
  let m := store8 m (a + 2) (v / 2 ^ 16) in
  let m := store8 m (a + 3) (v / 2 ^ 24) in
  let m := store8 m (a + 4) (v / 2 ^ 32) in
  let m := store8 m (a + 5) (v / 2 ^ 40) in
  let m := store8 m (a + 6) (v / 2 ^ 48) in
  store8 m (a + 7) (v / 2 ^ 56).

(** [for (i = 0; i < n; ++i) body(i)], counting upwards from [i]. *)
Fixpoint for_up {S : Type} (n : nat) (i : Z) (body : Z -> S -> S) (s : S) : S :=
  match n with
  | O => s
  | S n' => for_up n' (i + 1) body (body i s)
  end.

(** Byte-wise copy of [n] bytes, ascending ([dst[i] = src[i]]); [memcpy]. *)
Definition copy_bytes (n : nat) (dst src : Z) (m : mem) : mem :=
  for_up n 0 (fun i m => store8 m (u64 (dst + i)) (load8 m (u64 (src + i)))) m.

(** [for (i = 0; i < n; ++i) b[i] = 0]. *)
Definition zero_bytes (n : nat) (b : Z) (m : mem) : mem :=
  for_up n 0 (fun i m => store8 m (u64 (b + i)) 0) m.

End Mem.
Import Mem.

(** ** Kernel data ([proc.h], [vmm.h], [kmem.h]) *)

(** Saved context of a suspended task: the registers [switch_context] and the
    trap entry keep. *)
Record RegState : Type := mkRegState {
  x1 : Z; x5 : Z; x6 : Z; x7 : Z;
  x10 : Z; x11 : Z; x12 : Z; x13 : Z; x14 : Z; x15 : Z; x16 : Z; x17 : Z;
  sp : Z; sepc : Z; mstatus : Z
}.

Inductive ProcState : Type := READY | RUNNING | BLOCKED | TERMINATED.

Definition ProcState_eqb (a b : ProcState) : bool :=
  match a, b with
  | READY, READY | RUNNING, RUNNING | BLOCKED, BLOCKED | TERMINATED, TERMINATED => true
  | _, _ => false
  end.

(** Process control block.  [name] is the 20-byte array; [next] the intrusive
    link; pointers are addresses with [0] for [NULL]. *)
Record PCB : Type := mkPCB {
  pid : Z;
  ppid : Z;
  name : list Z;
  pstat : ProcState;
  prior : Z;
  entrypoint : Z;
  regstat : RegState;
  stacktop : Z;
  brk_base : Z;
  brk_size : Z;
  next : Z
}.

Record procqueue : Type := mkQueue { head : Z; tail : Z; count : Z }.

(** State of the memory subsystem: RAM, the page allocator's free list and the
    root page-table pointer [kernel_pd] ([kernel_pd_phys] is the same number,
    [virt_to_phys] being a cast). *)
Record vstate : Type := mkVstate {
  ram : mem;
  freelist : list Z;
  kernel_pd : Z
}.

Definition set_ram (m : mem) (s : vstate) : vstate :=
  {| ram := m; freelist := freelist s; kernel_pd := kernel_pd s |}.
Definition set_freelist (l : list Z) (s : vstate) : vstate :=
  {| ram := ram s; freelist := l; kernel_pd := kernel_pd s |}.

Definition set_kernel_pd (pd : Z) (s : vstate) : vstate :=
  {| ram := ram s; freelist := freelist s; kernel_pd := pd |}.

Definition PAGE_SIZE : Z := 4096.
Definition NULL : Z := 0.

(** ** Physical page allocator ([kmem.c]) *)

Module Kmem.

(** Modelled from the spec: [kalloc] and [kfree] of [kmem.c], which is not part
    of the sources at hand.  The allocator owns a free list of 4 KiB pages;
    each allocation yields one page of the list, [NULL] when it is exhausted;
    release returns the page to the free list.  No reference counting. *)
Definition kalloc (s : vstate) : Z * vstate :=
  match freelist s with
  | [] => (NULL, s)
  | p :: rest => (p, set_freelist rest s)
  end.

(** Modelled from the spec: release returns the page to the free list. *)
Definition kfree (p : Z) (s : vstate) : vstate :=
  set_freelist (p :: freelist s) s.

End Kmem.
Import Kmem.

(** ** Virtual memory manager ([vmm.c]) *)

Module Vmm.

Definition VMM_PAGE_SIZE : Z := PAGE_SIZE.

Definition VMM_P_PRESENT : Z := 0x1.
Definition VMM_P_RW : Z := 0x2.
Definition VMM_P_USER : Z := 0x4.
Definition VMM_P_WRITETHRU : Z := 0x8.
Definition VMM_P_CACHEDIS : Z := 0x10.
Definition VMM_P_ACCESSED : Z := 0x20.
Definition VMM_P_DIRTY : Z := 0x40.
Definition VMM_P_PS : Z := 0x80.

Definition SV39_PT_ENTRIES : Z := 512.
Definition SV39_VPN0 (va : Z) : Z := Z.land (Z.shiftr va 12) 0x1FF.
Definition SV39_VPN1 (va : Z) : Z := Z.land (Z.shiftr va 21) 0x1FF.
Definition SV39_VPN2 (va : Z) : Z := Z.land (Z.shiftr va 30) 0x1FF.
Definition SV39_PAGE_OFFSET (va : Z) : Z := Z.land va 0xFFF.

Definition PTE_V : Z := Z.shiftl 1 0.
Definition PTE_R : Z := Z.shiftl 1 1.
Definition PTE_W : Z := Z.shiftl 1 2.
Definition PTE_X : Z := Z.shiftl 1 3.
Definition PTE_U : Z := Z.shiftl 1 4.
Definition PTE_G : Z := Z.shiftl 1 5.
Definition PTE_A : Z := Z.shiftl 1 6.
Definition PTE_D : Z := Z.shiftl 1 7.

(** C truth value of an integer expression. *)
Definition nonzero (x : Z) : bool := negb (x =? 0).

Definition page_zero (p : Z) (m : mem) : mem :=
  zero_bytes (Z.to_nat VMM_PAGE_SIZE) p m.

Definition alloc_page_table_page (s : vstate) : Z * vstate :=
  let '(p, s1) := kalloc s in
  if nonzero p then (p, set_ram (page_zero p (ram s1)) s1) else (NULL, s1).

Definition virt_to_phys (v : Z) : Z := v.

Definition make_pte (paddr flags : Z) : Z :=
  let ppn := Z.shiftr paddr 12 in
  Z.lor (u64 (Z.shiftl ppn 10)) (Z.land flags 0x3FF).

Definition pte_to_phys (pte : Z) : Z :=
  let ppn := Z.shiftr pte 10 in
  u64 (Z.shiftl ppn 12).

Definition vmm_flags_to_pte_flags (flags : Z) : Z :=
  let f := 0 in
  let f := if nonzero (Z.land flags VMM_P_PRESENT) then Z.lor f PTE_V else f in
  let f := if nonzero (Z.land flags VMM_P_RW)
           then Z.lor f (Z.lor (Z.lor PTE_R PTE_W) PTE_X) else f in
  let f := if nonzero (Z.land flags VMM_P_USER) then Z.lor f PTE_U else f in
  Z.lor f (Z.lor PTE_A PTE_D).

(** Address of [pt[idx]] for a [uint64_t *pt]. *)
Definition pte_addr (pt idx : Z) : Z := u64 (pt + 8 * idx).

Definition get_next_level (pt idx : Z) (alloc : bool) (s : vstate) : Z * vstate :=
  let pte := load64 (ram s) (pte_addr pt idx) in
  if negb (nonzero (Z.land pte PTE_V)) then
    if negb alloc then (NULL, s)
    else
      let '(page, s1) := alloc_page_table_page s in
      if negb (nonzero page) then (NULL, s1)
      else
        let pa := virt_to_phys page in
        (page, set_ram (store64 (ram s1) (pte_addr pt idx) (make_pte pa PTE_V)) s1)
  else
    let pa := pte_to_phys pte in
    (pa, s).

Definition vmm_get_page_directory (s : vstate) : Z := kernel_pd s.

Definition vmm_set_page_directory (pd : Z) (s : vstate) : vstate :=
  {| ram := ram s; freelist := freelist s; kernel_pd := pd |}.

Definition vmm_get_pd_phys (s : vstate) : Z := virt_to_phys (kernel_pd s).

Definition vmm_map (vaddr paddr flags : Z) (s : vstate) : Z * vstate :=
  if negb (nonzero (kernel_pd s)) then (-1, s)
  else
    let va := vaddr in
    let pa := paddr in
    if nonzero (Z.land va (VMM_PAGE_SIZE - 1)) || nonzero (Z.land pa (VMM_PAGE_SIZE - 1))
    then (-1, s)
    else
      let vpn2 := SV39_VPN2 va in
      let vpn1 := SV39_VPN1 va in
      let vpn0 := SV39_VPN0 va in
      let l2 := kernel_pd s in
      let '(l1, s1) := get_next_level l2 vpn2 true s in
      if negb (nonzero l1) then (-1, s1)
      else
        let '(l0, s2) := get_next_level l1 vpn1 true s1 in
        if negb (nonzero l0) then (-1, s2)
        else
          let pte_flags := vmm_flags_to_pte_flags (Z.lor flags VMM_P_PRESENT) in
          (0, set_ram (store64 (ram s2) (pte_addr l0 vpn0) (make_pte pa pte_flags)) s2).

Definition vmm_map_page (vaddr flags : Z) (s : vstate) : Z * vstate :=
  let '(phys, s1) := kalloc s in
  if negb (nonzero phys) then (-1, s1)
  else
    let s2 := set_ram (page_zero phys (ram s1)) s1 in
    let '(r, s3) := vmm_map vaddr phys flags s2 in
    if nonzero r then (-1, kfree phys s3) else (0, s3).

Definition vmm_unmap (vaddr : Z) (free_phys : Z) (s : vstate) : Z * vstate :=
  if negb (nonzero (kernel_pd s)) then (-1, s)
  else
    let va := vaddr in
    if nonzero (Z.land va (VMM_PAGE_SIZE - 1)) then (-1, s)
    else
      let vpn2 := SV39_VPN2 va in
      let vpn1 := SV39_VPN1 va in
      let vpn0 := SV39_VPN0 va in
      let l2 := kernel_pd s in
      if negb (nonzero l2) then (-1, s)
      else
        let '(l1, s1) := get_next_level l2 vpn2 false s in
        if negb (nonzero l1) then (-1, s1)
        else
          let '(l0, s2) := get_next_level l1 vpn1 false s1 in
          if negb (nonzero l0) then (-1, s2)
          else
            let pte := load64 (ram s2) (pte_addr l0 vpn0) in
            if negb (nonzero (Z.land pte PTE_V)) then (-1, s2)
            else
              let phys_page := pte_to_phys pte in
              let s3 := set_ram (store64 (ram s2) (pte_addr l0 vpn0) 0) s2 in
              let s4 := if nonzero free_phys then kfree phys_page s3 else s3 in
              (0, s4).

Definition vmm_translate (vaddr : Z) (s : vstate) : Z :=
  if negb (nonzero (kernel_pd s)) then NULL
  else
    let va := vaddr in
    let vpn2 := SV39_VPN2 va in
    let vpn1 := SV39_VPN1 va in
    let vpn0 := SV39_VPN0 va in
    let l2 := kernel_pd s in
    let '(l1, s1) := get_next_level l2 vpn2 false s in
    if negb (nonzero l1) then NULL
    else
      let '(l0, s2) := get_next_level l1 vpn1 false s1 in
      if negb (nonzero l0) then NULL
      else
        let pte := load64 (ram s2) (pte_addr l0 vpn0) in
        if negb (nonzero (Z.land pte PTE_V)) then NULL
        else
          let phys := Z.lor (pte_to_phys pte) (SV39_PAGE_OFFSET va) in
          phys.

(** [map_identity_range]: the loop [for (; addr < end; addr += VMM_PAGE_SIZE)];
    [fuel] bounds the number of iterations. *)
Fixpoint map_identity_loop (fuel : nat) (addr end_ flags : Z) (s : vstate) : vstate :=
  match fuel with
  | O => s
  | S fuel' =>
      if addr <? end_ then
        let '(_, s1) := vmm_map addr addr flags s in
        map_identity_loop fuel' (u64 (addr + VMM_PAGE_SIZE)) end_ flags s1
      else s
  end.

(** The fuel is the number of pages between the rounded [start] and [end_],
    which is every iteration of the C loop as long as [addr] does not wrap:
    for [end_ <= 2^64 - 4096] the loop here ends because [addr < end_] fails,
    as in the code.  For an [end_] in the last page of the address space the
    [addr += VMM_PAGE_SIZE] of the code wraps to [0] and its loop never ends,
    where this one stops after the last page; the kernel calls the function
    on ranges far below that, and nothing below is stated for that corner. *)
Definition map_identity_range (start end_ flags : Z) (s : vstate) : vstate :=
  if end_ <=? start then s
  else
    let addr := Z.land start (Z.lxor (two64 - 1) (VMM_PAGE_SIZE - 1)) in
    map_identity_loop (Z.to_nat ((end_ - addr) / VMM_PAGE_SIZE + 1)) addr end_ flags s.

(** [vmm_self_test]; the result lists, in order, the conditions of the
    [EXPECT] checks the test reached. *)
Definition vmm_self_test (s : vstate) : list bool * vstate :=
  let test_va := 0x80400000 in
  let '(phys, s) := kalloc s in
  if negb (nonzero phys) then ([], s)
  else
    let '(r, s) := vmm_map test_va phys (Z.lor VMM_P_RW VMM_P_USER) s in
    if nonzero r then ([], kfree phys s)
    else
      let t := vmm_translate test_va s in
      let e1 := t =? phys in
      let '(r, s) := vmm_unmap test_va 1 s in
      let e2 := r =? 0 in
      let t := vmm_translate test_va s in
      let e3 := t =? NULL in
      ([e1; e2; e3], s).

(** Modelled from the spec: the VirtIO MMIO window and the PLIC base, which
    [blk.h] and [plic.h] define. *)
Definition VIRTIO_MMIO_START : Z := 0x10001000.
Definition VIRTIO_MMIO_END : Z := 0x10009000.
Definition PLIC_BASE : Z := 0x0c000000.

(** [vmm_init], with the checks of the self-test it runs. *)
Definition vmm_init (s : vstate) : list bool * vstate :=
  if nonzero (kernel_pd s) then ([], s)
  else
    let '(pd_page, s) := alloc_page_table_page s in
    if negb (nonzero pd_page) then ([], s)
    else
      let s := set_kernel_pd pd_page s in
      let '(checks, s) := vmm_self_test s in
      let ram_start := 0x80000000 in
      let ram_end := u64 (ram_start + Z.shiftl 128 20) in
      let s := map_identity_range ram_start ram_end (Z.lor VMM_P_RW VMM_P_USER) s in
      let s := map_identity_range 0x10000000 (u64 (0x10000000 + 0x1000)) VMM_P_RW s in
      let s := map_identity_range VIRTIO_MMIO_START VIRTIO_MMIO_END VMM_P_RW s in
      let s := map_identity_range 0x02000000 0x02010000 VMM_P_RW s in
      let s := map_identity_range PLIC_BASE (u64 (PLIC_BASE + 0x200000)) VMM_P_RW s in
      (checks, s).

End Vmm.

Import Vmm.

(** ** Well-formedness of the memory subsystem *)

Module Inv.

Definition page_ok (p : Z) : Prop := 0 <= p < two64 /\ p mod 4096 = 0.

Definition idx (i : Z) : Prop := 0 <= i < SV39_PT_ENTRIES.

(** [pt[i]] as the page-table walk reads it. *)
Definition rd (s : vstate) (pt i : Z) : Z := load64 (ram s) (pte_addr pt i).

Definition present (pte : Z) : bool := nonzero (Z.land pte PTE_V).

(** The next-level table an entry points to, if the entry is valid. *)
Definition child (s : vstate) (pt i : Z) : option Z :=
  if present (rd s pt i) then Some (pte_to_phys (rd s pt i)) else None.

Definition l1_at (s : vstate) (i : Z) : option Z := child s (kernel_pd s) i.

Definition l0_at (s : vstate) (i j : Z) : option Z :=
  match l1_at s i with
  | Some t => child s t j
  | None => None
  end.

(** The level-0 entry reached by the index triple, [0] when the walk stops. *)
Definition leaf (s : vstate) (i j k : Z) : Z :=
  match l0_at s i j with
  | Some t => rd s t k
  | None => 0
  end.

Definition is_l1 (s : vstate) (t : Z) : Prop := exists i, idx i /\ l1_at s i = Some t.

Definition is_l0 (s : vstate) (t : Z) : Prop :=
  exists i j, idx i /\ idx j /\ l0_at s i j = Some t.

(** Pages the memory subsystem owns: the table tree and the free pages. *)
Definition is_table (s : vstate) (pg : Z) : Prop :=
  pg = kernel_pd s \/ is_l1 s pg \/ is_l0 s pg.

Definition owned_page (s : vstate) (pg : Z) : Prop :=
  is_table s pg \/ In pg (freelist s).

Definition in_page (pg x : Z) : Prop := pg <= x < pg + PAGE_SIZE.

(** The table tree is a tree of distinct non-null pages, none of which is on
    the free list; the free list holds distinct non-null pages. *)
Record vmm_wf (s : vstate) : Prop := mk_vmm_wf {
  wf_root : page_ok (kernel_pd s);
  wf_nodup : NoDup (freelist s);
  wf_free : forall p, In p (freelist s) -> page_ok p /\ p <> 0 /\ p <> kernel_pd s;
  wf_l1 : forall i t, idx i -> l1_at s i = Some t ->
          t <> 0 /\ t <> kernel_pd s /\ ~ In t (freelist s);
  wf_l0 : forall i j t, idx i -> idx j -> l0_at s i j = Some t ->
          t <> 0 /\ t <> kernel_pd s /\ ~ In t (freelist s) /\ ~ is_l1 s t;
  wf_inj1 : forall i i' t, idx i -> idx i' ->
            l1_at s i = Some t -> l1_at s i' = Some t -> i = i';
  wf_inj0 : forall i j i' j' t, idx i -> idx j -> idx i' -> idx j' ->
            l0_at s i j = Some t -> l0_at s i' j' = Some t -> i = i' /\ j = j'
}.

(** The state [get_next_level] leaves after linking the fresh, zeroed table
    [p] into [pt[i]]; [rest] is what remains of the free list. *)
Definition link (s : vstate) (pt i p : Z) (rest : list Z) : vstate :=
  {| ram := store64 (page_zero p (ram s)) (pte_addr pt i) (make_pte p PTE_V);
     freelist := rest;
     kernel_pd := kernel_pd s |}.

(** An address outside every page the memory subsystem owns. *)
Definition unowned (s : vstate) (x : Z) : Prop :=
  forall pg, owned_page s pg -> ~ in_page pg x.

(** [s1] comes from the well-formed [s] by table-tree maintenance: the owned
    pages only shrink (a free page may become a table or leave the
    allocator), and bytes outside them are untouched. *)
Record vmm_ext (s s1 : vstate) : Prop := mk_vmm_ext {
  ext_wf : vmm_wf s1;
  ext_pd : kernel_pd s1 = kernel_pd s;
  ext_owned : forall pg, owned_page s1 pg -> owned_page s pg;
  ext_ram : forall x, unowned s x -> ram s1 x = ram s x;
  ext_free : forall q, In q (freelist s1) -> In q (freelist s)
}.

Definition leaf_same (s s1 : vstate) : Prop :=
  forall i j k, idx i -> idx j -> idx k -> leaf s1 i j k = leaf s i j k.

(** The leaf view after the entry of [va] was set to [v]. *)
Definition leaf_upd (s s1 : vstate) (va v : Z) : Prop :=
  forall i j k, idx i -> idx j -> idx k ->
  leaf s1 i j k =
  if (i =? SV39_VPN2 va) && (j =? SV39_VPN1 va) && (k =? SV39_VPN0 va)
  then v else leaf s i j k.

(** Executable check of [vmm_wf]. *)
Definition indices : list Z := map Z.of_nat (seq 0 512).

Definition opt_list (o : option Z) : list Z :=
  match o with Some t => [t] | None => [] end.

Definition l1_tables (s : vstate) : list Z :=
  flat_map (fun i => opt_list (l1_at s i)) indices.

Definition l0_tables (s : vstate) : list Z :=
  flat_map (fun t1 => flat_map (fun j => opt_list (child s t1 j)) indices) (l1_tables s).

Fixpoint nodupb (l : list Z) : bool :=
  match l with
  | [] => true
  | x :: r => negb (existsb (Z.eqb x) r) && nodupb r
  end.

Definition page_okb (p : Z) : bool :=
  (0 <=? p) && (p <? two64) && (p mod 4096 =? 0).

Definition vmm_wfb (s : vstate) : bool :=
  page_okb (kernel_pd s)
  && forallb (fun p => page_okb p && negb (p =? 0)) (freelist s)
  && forallb (fun t => negb (t =? 0)) (l1_tables s ++ l0_tables s)
  && nodupb (kernel_pd s :: l1_tables s ++ l0_tables s ++ freelist s).

End Inv.
Import Inv.

(** ** Kernel state *)

(** [pcbs] and [queues] are the typed stores of [PCB] and [procqueue] objects;
    the remaining fields are the globals of [proc.c] and the CSRs the C code
    reads and writes. *)
Record kstate : Type := mkKstate {
  vm : vstate;
  pcbs : Z -> PCB;
  queues : Z -> procqueue;
  idle_proc : Z;
  ready_queue : Z;
  current_proc : Z;
  zombie_list : Z;
  blocked_list : Z;
  next_pid : Z;
  csr_mstatus : Z;
  csr_mepc : Z;
  csr_mcause : Z;
  csr_mtval : Z
}.

Definition set_vm (v : vstate) (s : kstate) : kstate :=
  mkKstate v (pcbs s) (queues s) (idle_proc s) (ready_queue s) (current_proc s)
           (zombie_list s) (blocked_list s) (next_pid s)
           (csr_mstatus s) (csr_mepc s) (csr_mcause s) (csr_mtval s).
Definition set_pcbs (f : Z -> PCB) (s : kstate) : kstate :=
  mkKstate (vm s) f (queues s) (idle_proc s) (ready_queue s) (current_proc s)
           (zombie_list s) (blocked_list s) (next_pid s)
           (csr_mstatus s) (csr_mepc s) (csr_mcause s) (csr_mtval s).
Definition set_queues (f : Z -> procqueue) (s : kstate) : kstate :=
  mkKstate (vm s) (pcbs s) f (idle_proc s) (ready_queue s) (current_proc s)
           (zombie_list s) (blocked_list s) (next_pid s)
           (csr_mstatus s) (csr_mepc s) (csr_mcause s) (csr_mtval s).
Definition set_current_proc (p : Z) (s : kstate) : kstate :=
  mkKstate (vm s) (pcbs s) (queues s) (idle_proc s) (ready_queue s) p
           (zombie_list s) (blocked_list s) (next_pid s)
           (csr_mstatus s) (csr_mepc s) (csr_mcause s) (csr_mtval s).
Definition set_zombie_list (p : Z) (s : kstate) : kstate :=
  mkKstate (vm s) (pcbs s) (queues s) (idle_proc s) (ready_queue s) (current_proc s)
           p (blocked_list s) (next_pid s)
           (csr_mstatus s) (csr_mepc s) (csr_mcause s) (csr_mtval s).
Definition set_blocked_list (p : Z) (s : kstate) : kstate :=
  mkKstate (vm s) (pcbs s) (queues s) (idle_proc s) (ready_queue s) (current_proc s)
           (zombie_list s) p (next_pid s)
           (csr_mstatus s) (csr_mepc s) (csr_mcause s) (csr_mtval s).
Definition set_next_pid (n : Z) (s : kstate) : kstate :=
  mkKstate (vm s) (pcbs s) (queues s) (idle_proc s) (ready_queue s) (current_proc s)
           (zombie_list s) (blocked_list s) n
           (csr_mstatus s) (csr_mepc s) (csr_mcause s) (csr_mtval s).
Definition set_idle_proc (p : Z) (s : kstate) : kstate :=
  mkKstate (vm s) (pcbs s) (queues s) p (ready_queue s) (current_proc s)
           (zombie_list s) (blocked_list s) (next_pid s)
           (csr_mstatus s) (csr_mepc s) (csr_mcause s) (csr_mtval s).
Definition set_ready_queue (q : Z) (s : kstate) : kstate :=
  mkKstate (vm s) (pcbs s) (queues s) (idle_proc s) q (current_proc s)
           (zombie_list s) (blocked_list s) (next_pid s)
           (csr_mstatus s) (csr_mepc s) (csr_mcause s) (csr_mtval s).
Definition set_mstatus (x : Z) (s : kstate) : kstate :=
  mkKstate (vm s) (pcbs s) (queues s) (idle_proc s) (ready_queue s) (current_proc s)
           (zombie_list s) (blocked_list s) (next_pid s)
           x (csr_mepc s) (csr_mcause s) (csr_mtval s).
Definition set_mepc (x : Z) (s : kstate) : kstate :=
  mkKstate (vm s) (pcbs s) (queues s) (idle_proc s) (ready_queue s) (current_proc s)
           (zombie_list s) (blocked_list s) (next_pid s)
           (csr_mstatus s) x (csr_mcause s) (csr_mtval s).

(** Field assignments [p->field = v]. *)
Definition set_pid (v : Z) (p : PCB) : PCB :=
  mkPCB v (ppid p) (name p) (pstat p) (prior p) (entrypoint p) (regstat p)
        (stacktop p) (brk_base p) (brk_size p) (next p).
Definition set_ppid (v : Z) (p : PCB) : PCB :=
  mkPCB (pid p) v (name p) (pstat p) (prior p) (entrypoint p) (regstat p)
        (stacktop p) (brk_base p) (brk_size p) (next p).
Definition set_name (v : list Z) (p : PCB) : PCB :=
  mkPCB (pid p) (ppid p) v (pstat p) (prior p) (entrypoint p) (regstat p)
        (stacktop p) (brk_base p) (brk_size p) (next p).
Definition set_pstat (v : ProcState) (p : PCB) : PCB :=
  mkPCB (pid p) (ppid p) (name p) v (prior p) (entrypoint p) (regstat p)
        (stacktop p) (brk_base p) (brk_size p) (next p).
Definition set_prior (v : Z) (p : PCB) : PCB :=
  mkPCB (pid p) (ppid p) (name p) (pstat p) v (entrypoint p) (regstat p)
        (stacktop p) (brk_base p) (brk_size p) (next p).
Definition set_entrypoint (v : Z) (p : PCB) : PCB :=
  mkPCB (pid p) (ppid p) (name p) (pstat p) (prior p) v (regstat p)
        (stacktop p) (brk_base p) (brk_size p) (next p).
Definition set_regstat (v : RegState) (p : PCB) : PCB :=
  mkPCB (pid p) (ppid p) (name p) (pstat p) (prior p) (entrypoint p) v
        (stacktop p) (brk_base p) (brk_size p) (next p).
Definition set_stacktop (v : Z) (p : PCB) : PCB :=
  mkPCB (pid p) (ppid p) (name p) (pstat p) (prior p) (entrypoint p) (regstat p)
        v (brk_base p) (brk_size p) (next p).
Definition set_brk_base (v : Z) (p : PCB) : PCB :=
  mkPCB (pid p) (ppid p) (name p) (pstat p) (prior p) (entrypoint p) (regstat p)
        (stacktop p) v (brk_size p) (next p).
Definition set_brk_size (v : Z) (p : PCB) : PCB :=
  mkPCB (pid p) (ppid p) (name p) (pstat p) (prior p) (entrypoint p) (regstat p)
        (stacktop p) (brk_base p) v (next p).
Definition set_next (v : Z) (p : PCB) : PCB :=
  mkPCB (pid p) (ppid p) (name p) (pstat p) (prior p) (entrypoint p) (regstat p)
        (stacktop p) (brk_base p) (brk_size p) v.

Definition set_x1 (v : Z) (r : RegState) : RegState :=
  mkRegState v (x5 r) (x6 r) (x7 r) (x10 r) (x11 r) (x12 r) (x13 r)
             (x14 r) (x15 r) (x16 r) (x17 r) (sp r) (sepc r) (mstatus r).
Definition set_sp (v : Z) (r : RegState) : RegState :=
  mkRegState (x1 r) (x5 r) (x6 r) (x7 r) (x10 r) (x11 r) (x12 r) (x13 r)
             (x14 r) (x15 r) (x16 r) (x17 r) v (sepc r) (mstatus r).
Definition set_x10 (v : Z) (r : RegState) : RegState :=
  mkRegState (x1 r) (x5 r) (x6 r) (x7 r) v (x11 r) (x12 r) (x13 r)
             (x14 r) (x15 r) (x16 r) (x17 r) (sp r) (sepc r) (mstatus r).
Definition set_sepc (v : Z) (r : RegState) : RegState :=
  mkRegState (x1 r) (x5 r) (x6 r) (x7 r) (x10 r) (x11 r) (x12 r) (x13 r)
             (x14 r) (x15 r) (x16 r) (x17 r) (sp r) v (mstatus r).
Definition set_rs_mstatus (v : Z) (r : RegState) : RegState :=
  mkRegState (x1 r) (x5 r) (x6 r) (x7 r) (x10 r) (x11 r) (x12 r) (x13 r)
             (x14 r) (x15 r) (x16 r) (x17 r) (sp r) (sepc r) v.

(** [*p = f( *p )] on the PCB at address [p]. *)
Definition upd_pcb (p : Z) (f : PCB -> PCB) (s : kstate) : kstate :=
  set_pcbs (fun q => if q =? p then f (pcbs s q) else pcbs s q) s.

Definition upd_queue (q : Z) (f : procqueue -> procqueue) (s : kstate) : kstate :=
  set_queues (fun r => if r =? q then f (queues s r) else queues s r) s.

Definition zero_RegState : RegState := mkRegState 0 0 0 0 0 0 0 0 0 0 0 0 0 0 0.

(** [memset(pcb, 0, sizeof(PCB))]; [READY] is the enumerator [0]. *)
Definition zero_PCB : PCB :=
  mkPCB 0 0 (repeat 0 20) READY 0 0 zero_RegState 0 NULL 0 NULL.

(** [a[i] = v] on an array held as a list. *)
Fixpoint upd_nth {A : Type} (i : nat) (v : A) (l : list A) : list A :=
  match l, i with
  | [], _ => []
  | _ :: r, O => v :: r
  | x :: r, S i' => x :: upd_nth i' v r
  end.

(** ** Interrupt enable ([riscv.h]) *)

Definition MIE_BIT : Z := Z.shiftl 1 3.

Definition intr_on (s : kstate) : kstate :=
  set_mstatus (Z.lor (csr_mstatus s) MIE_BIT) s.

Definition intr_off (s : kstate) : kstate :=
  set_mstatus (Z.ldiff (csr_mstatus s) MIE_BIT) s.

Definition intr_enabled (s : kstate) : bool := Z.testbit (csr_mstatus s) 3.

(** ** Control outcomes *)

(** How a kernel call ends on the calling task's time line.
    - [Ret a s]: it returns [a] in state [s].
    - [Yield s k]: it reached [switch_context] in state [s]; the task sleeps
      and, when another task switches back to it in a state [s'], the call
      goes on as [k s'].
    - [Halt s]: it entered [while (1) wfi].
    - [OutOfFuel]: a list traversal of the embedding ran out of fuel. *)
Inductive outcome (A : Type) : Type :=
| Ret (a : A) (s : kstate)
| Yield (s : kstate) (k : kstate -> outcome A)
| Halt (s : kstate)
| OutOfFuel.
Arguments Ret {A} a s.
Arguments Yield {A} s k.
Arguments Halt {A} s.
Arguments OutOfFuel {A}.

Fixpoint bind {A B : Type} (o : outcome A) (f : A -> kstate -> outcome B) : outcome B :=
  match o with
  | Ret a s => f a s
  | Yield s k => Yield s (fun s' => bind (k s') f)
  | Halt s => Halt s
  | OutOfFuel => OutOfFuel
  end.

(** The value and the state of an outcome that is an immediate return. *)
Definition ret_val {A : Type} (o : outcome A) : option A :=
  match o with Ret a _ => Some a | _ => None end.

Definition ret_state {A : Type} (o : outcome A) : option kstate :=
  match o with Ret _ s => Some s | _ => None end.

(** [returns o a s']: the call with outcome [o] returns [a] in state [s'],
    directly or after having been suspended and resumed (the states in which
    it is resumed are arbitrary: other tasks ran in between). *)
Inductive returns {A : Type} : outcome A -> A -> kstate -> Prop :=
| returns_ret : forall a s, returns (Ret a s) a s
| returns_yield : forall s k s1 a s', returns (k s1) a s' -> returns (Yield s k) a s'.

(** ** Process subsystem ([proc.c]) *)

Module Proc.

Definition HEAP_USER_BASE : Z := 0x80400000.
Definition PER_PROC_HEAP : Z := 8 * 1024.

(** Number of pages of a heap of [size] bytes: [(size + PAGE_SIZE - 1) / PAGE_SIZE]. *)
Definition heap_pages (size : Z) : Z := u64 (size + PAGE_SIZE - 1) / PAGE_SIZE.

(** [base + i * PAGE_SIZE] on a [uint8_t *]. *)
Definition page_at (base i : Z) : Z := u64 (base + i * PAGE_SIZE).

(** [for (i = 0; i < pages; i++) vmm_unmap(base + i * PAGE_SIZE, 1)]. *)
Definition unmap_heap (base pages : Z) (v : vstate) : vstate :=
  for_up (Z.to_nat pages) 0 (fun i v => snd (vmm_unmap (page_at base i) 1 v)) v.

(** The release sequence shared by [free_pcb_resources], [proc_wait_and_reap]
    and [zombies_free]: free the stack, unmap and free the user heap, free
    the PCB. *)
Definition release_pcb (p : Z) (s : kstate) : kstate :=
  let pcb := pcbs s p in
  let stk := u64 (stacktop pcb - PAGE_SIZE) in
  let v := kfree stk (vm s) in
  let v := if nonzero (brk_base pcb) && nonzero (brk_size pcb)
           then unmap_heap (brk_base pcb) (heap_pages (brk_size pcb)) v
           else v in
  let v := kfree p v in
  set_vm v s.

Definition free_pcb_resources (p : Z) (s : kstate) : kstate :=
  if negb (nonzero p) then s else release_pcb p s.

Definition enqueue (queue pcb : Z) (s : kstate) : kstate :=
  if negb (nonzero queue) || negb (nonzero pcb) then s
  else
    let s := upd_pcb pcb (set_next NULL) s in
    let s :=
      if negb (nonzero (tail (queues s queue)))
      then upd_queue queue (fun q => mkQueue pcb pcb (count q)) s
      else
        let s := upd_pcb (tail (queues s queue)) (set_next pcb) s in
        upd_queue queue (fun q => mkQueue (head q) pcb (count q)) s in
    upd_queue queue (fun q => mkQueue (head q) (tail q) (s32 (count q + 1))) s.

Definition dequeue (queue : Z) (s : kstate) : Z * kstate :=
  if negb (nonzero queue) || negb (nonzero (head (queues s queue))) then (NULL, s)
  else
    let p := head (queues s queue) in
    let s := upd_queue queue (fun q => mkQueue (next (pcbs s p)) (tail q) (count q)) s in
    let s := if negb (nonzero (head (queues s queue)))
             then upd_queue queue (fun q => mkQueue (head q) NULL (count q)) s
             else s in
    let s := upd_pcb p (set_next NULL) s in
    let s := upd_queue queue (fun q => mkQueue (head q) (tail q) (s32 (count q - 1))) s in
    (p, s).

Definition init_procqueue (s : kstate) : Z * kstate :=
  let '(q, v) := kalloc (vm s) in
  let s := set_vm v s in
  if negb (nonzero q) then (NULL, s)
  else (q, upd_queue q (fun _ => mkQueue NULL NULL 0) s).

(** The name loop of [proc_create],
    [for (i = 0; i < 19 && name && name[i]; i++) pcb->name[i] = name[i]],
    with [n] iterations left: the array and the final [i].  [None] is the
    null pointer; reading a string past its last character gives its
    terminating zero. *)
Fixpoint create_name (n : nat) (i : nat) (src : option (list Z)) (dst : list Z)
  : list Z * nat :=
  match n with
  | O => (dst, i)
  | S n' =>
      match src with
      | None => (dst, i)
      | Some l =>
          let c := nth i l 0 in
          if nonzero c then create_name n' (S i) src (upd_nth i c dst) else (dst, i)
      end
  end.

(** [mstatus_val |= (3ULL << 11); mstatus_val |= (1ULL << 7)]. *)
Definition initial_mstatus : Z := Z.lor (Z.lor 0 (Z.shiftl 3 11)) (Z.shiftl 1 7).

Section Create.

  (** The addresses of [forkret] (assembly) and [idle_entry]. *)
Variable forkret : Z.
Variable idle_entry : Z.

(** The initial register state of [proc_create] and [scheduler_init]:
    [memset] to zero, then [x1], [sepc], [sp] and [mstatus]. *)
Definition init_regstat (pcb entry : Z) (s : kstate) : kstate :=
  let s := upd_pcb pcb (set_regstat zero_RegState) s in
  let s := upd_pcb pcb (fun c => set_regstat (set_x1 forkret (regstat c)) c) s in
  let s := upd_pcb pcb (fun c => set_regstat (set_sepc entry (regstat c)) c) s in
  let s := upd_pcb pcb (fun c => set_regstat (set_sp (stacktop c) (regstat c)) c) s in
  upd_pcb pcb (fun c => set_regstat (set_rs_mstatus initial_mstatus (regstat c)) c) s.

Definition proc_create (name_ : option (list Z)) (entrypoint_ prior_ : Z) (s : kstate)
  : Z * kstate :=
  if negb (nonzero (ready_queue s)) then (NULL, s)
  else
    let '(pcb, v) := kalloc (vm s) in
    let s := set_vm v s in
    if negb (nonzero pcb) then (NULL, s)
    else
      let s := upd_pcb pcb (fun _ => zero_PCB) s in
      let s := upd_pcb pcb (set_pid (next_pid s)) s in
      let s := set_next_pid (s32 (next_pid s + 1)) s in
      let s := upd_pcb pcb (set_pstat READY) s in
      let s := upd_pcb pcb (set_prior prior_) s in
      let s := upd_pcb pcb (set_entrypoint entrypoint_) s in
      let s := upd_pcb pcb (set_ppid 0) s in
      let s := upd_pcb pcb (set_brk_base NULL) s in
      let s := upd_pcb pcb (set_brk_size 0) s in
      let s := upd_pcb pcb (fun c =>
                 let '(nm, i) := create_name 19 0 name_ (name c) in
                 set_name (upd_nth i 0 nm) c) s in
      let '(stk, v) := kalloc (vm s) in
      let s := set_vm v s in
      if negb (nonzero stk) then (NULL, set_vm (kfree pcb (vm s)) s)
      else
        let s := upd_pcb pcb (set_stacktop (u64 (stk + PAGE_SIZE))) s in
        let s := init_regstat pcb entrypoint_ s in
        let s := enqueue (ready_queue s) pcb s in
        (pcb, s).

(** [scheduler_init]; the two [while (1);] are [Halt]. *)
Definition scheduler_init (s : kstate) : outcome unit :=
  if negb (nonzero (ready_queue s)) then
    let '(q, s) := init_procqueue s in
    let s := set_ready_queue q s in
    let '(ip, v) := kalloc (vm s) in
    let s := set_idle_proc ip (set_vm v s) in
    if negb (nonzero ip) then Halt s
    else
      let s := upd_pcb ip (fun _ => zero_PCB) s in
      let s := upd_pcb ip (set_pid 0) s in
      let s := upd_pcb ip (set_pstat READY) s in
      let s := upd_pcb ip (fun c =>
                 set_name (upd_nth 3 69 (upd_nth 2 76 (upd_nth 1 68 (upd_nth 0 73 (name c))))) c)
                 s in
      let '(stk, v) := kalloc (vm s) in
      let s := set_vm v s in
      if negb (nonzero stk) then Halt s
      else
        let s := upd_pcb ip (set_stacktop (u64 (stk + PAGE_SIZE))) s in
        let s := init_regstat ip idle_entry s in
        Ret tt s
  else Ret tt s.

End Create.

Definition get_current_proc (s : kstate) : Z := current_proc s.

(** [for (i = 0; i < 19 && src[i]; i++) dst[i] = src[i]], [n] iterations left. *)
Fixpoint copy_name (n : nat) (i : nat) (src dst : list Z) : list Z :=
  match n with
  | O => dst
  | S n' =>
      let c := nth i src 0 in
      if nonzero c then copy_name n' (S i) src (upd_nth i c dst) else dst
  end.

(** The user-heap deep copy of [proc_fork]: [n] pages left, [i] the loop
    index.  The result is [None] when every page was mapped and copied, and
    [Some i] with the state at that point when [vmm_map_page] failed for
    page [i].  The kernel runs with a flat address space, so the [memcpy]
    writes the bytes at [child_vaddr] itself.  It writes [ram] only: a PCB or
    a queue object that the kernel keeps at such an address is overwritten by
    the code but lives on in the typed stores here, so the function stands
    for the code on the states in which the child's heap pages hold no such
    object (see [obj_clear] below, which the theorems on [proc_fork]
    assume for the objects they speak about). *)
Fixpoint fork_heap_loop (n : nat) (i : Z) (child_base parent_base : Z) (v : vstate)
  : option Z * vstate :=
  match n with
  | O => (None, v)
  | S n' =>
      let child_vaddr := page_at child_base i in
      let parent_vaddr := page_at parent_base i in
      let '(r, v1) := vmm_map_page child_vaddr (Z.lor VMM_P_RW VMM_P_USER) v in
      if nonzero r then (Some i, v1)
      else
        let v2 := set_ram (copy_bytes (Z.to_nat PAGE_SIZE) child_vaddr parent_vaddr (ram v1)) v1 in
        fork_heap_loop n' (i + 1) child_base parent_base v2
  end.

(** [for (j = 0; j < i; j++) vmm_unmap(child->brk_base + j * PAGE_SIZE, 1)]. *)
Definition fork_rollback (child_base i : Z) (v : vstate) : vstate :=
  for_up (Z.to_nat i) 0 (fun j v => snd (vmm_unmap (page_at child_base j) 1 v)) v.

(** [proc_fork] from [memset(child, 0, sizeof(PCB))] to
    [child->regstat = parent->regstat]; [child] is the page [kalloc] returned. *)
Definition fork_new_child (child : Z) (s : kstate) : kstate :=
  let parent := current_proc s in
  let s := upd_pcb child (fun _ => zero_PCB) s in
  let s := upd_pcb child (set_pid (next_pid s)) s in
  let s := set_next_pid (s32 (next_pid s + 1)) s in
  let s := upd_pcb child (set_pstat READY) s in
  let s := upd_pcb child (set_prior (prior (pcbs s parent))) s in
  let s := upd_pcb child (set_entrypoint (entrypoint (pcbs s parent))) s in
  let s := upd_pcb child (fun c =>
             set_name (copy_name 19 0 (name (pcbs s parent)) (name c)) c) s in
  let s := upd_pcb child (fun c => set_name (upd_nth 19 0 (name c)) c) s in
  upd_pcb child (set_regstat (regstat (pcbs s parent))) s.

(** [proc_fork] from the copy of the stack page to [child->ppid = parent->pid];
    [stk] is the page [kalloc] returned for the child's stack. *)
Definition fork_init_child (mepc child stk : Z) (s : kstate) : kstate :=
  let parent := current_proc s in
  let parent_stk_base := u64 (stacktop (pcbs s parent) - PAGE_SIZE) in
  let s := set_vm (set_ram (copy_bytes (Z.to_nat PAGE_SIZE) stk parent_stk_base
                                       (ram (vm s))) (vm s)) s in
  let s := upd_pcb child (set_stacktop (u64 (stk + PAGE_SIZE))) s in
  let sp_offset := u64 (stacktop (pcbs s parent) - sp (regstat (pcbs s child))) in
  let s := upd_pcb child (fun c =>
             set_regstat (set_sp (u64 (stacktop c - sp_offset)) (regstat c)) c) s in
  let s := upd_pcb child (fun c => set_regstat (set_x10 0 (regstat c)) c) s in
  let s := upd_pcb child (fun c => set_regstat (set_sepc (u64 (mepc + 4)) (regstat c)) c) s in
  let s := upd_pcb child (fun c =>
             set_regstat (set_rs_mstatus (mstatus (regstat (pcbs s parent))) (regstat c)) c) s in
  upd_pcb child (set_ppid (pid (pcbs s parent))) s.

(** [proc_fork] from [if (parent->brk_base && parent->brk_size > 0)] to the
    end: the user-heap deep copy with its rollback, then the enqueue.  The
    writes to the child's PCB and those of [enqueue] (to the queue object and
    to the [next] field of its last member) go to the typed stores and leave
    [ram] alone; in the kernel they are writes to the pages of these objects.
    The two agree when these pages lie outside the heap regions the copy
    reads and writes. *)
Definition fork_finish (child : Z) (s : kstate) : Z * kstate :=
  let parent := current_proc s in
  if nonzero (brk_base (pcbs s parent)) && nonzero (brk_size (pcbs s parent))
  then
    let s := upd_pcb child (fun c =>
               set_brk_base (u64 (HEAP_USER_BASE + u64 (u64 (pid c) * PER_PROC_HEAP))) c) s in
    let s := upd_pcb child (set_brk_size (brk_size (pcbs s parent))) s in
    let pages := heap_pages (brk_size (pcbs s parent)) in
    match fork_heap_loop (Z.to_nat pages) 0 (brk_base (pcbs s child))
                         (brk_base (pcbs s parent)) (vm s) with
    | (Some i, v) =>
        let v := fork_rollback (brk_base (pcbs s child)) i v in
        let child_stk_base := u64 (stacktop (pcbs s child) - PAGE_SIZE) in
        let v := kfree child_stk_base v in
        let v := kfree child v in
        (NULL, intr_on (set_vm v s))
    | (None, v) =>
        let s := set_vm v s in
        let s := enqueue (ready_queue s) child s in
        (child, intr_on s)
    end
  else
    let s := upd_pcb child (set_brk_base NULL) s in
    let s := upd_pcb child (set_brk_size 0) s in
    let s := enqueue (ready_queue s) child s in
    (child, intr_on s).

Definition proc_fork (mepc : Z) (s : kstate) : Z * kstate :=
  let s := intr_off s in
  let parent := current_proc s in
  if negb (nonzero parent) then (NULL, intr_on s)
  else
    let '(child, v) := kalloc (vm s) in
    let s := set_vm v s in
    if negb (nonzero child) then (NULL, intr_on s)
    else
      let s := fork_new_child child s in
      let '(stk, v) := kalloc (vm s) in
      let s := set_vm v s in
      if negb (nonzero stk) then (NULL, intr_on (set_vm (kfree child (vm s)) s))
      else
        let s := fork_init_child mepc child stk s in
        fork_finish child s.

(** [if (pid == next_pid - 1 && next_pid > 1) next_pid--]. *)
Definition pid_reuse (pid_ : Z) (s : kstate) : kstate :=
  if (pid_ =? s32 (next_pid s - 1)) && (1 <? next_pid s)
  then set_next_pid (s32 (next_pid s - 1)) s
  else s.

(** [zombies_free]: the [while (cur)] loop. *)
Fixpoint zombies_free_loop (fuel : nat) (prev cur : Z) (s : kstate) : option kstate :=
  match fuel with
  | O => None
  | S fuel' =>
      if negb (nonzero cur) then Some s
      else
        let nxt := next (pcbs s cur) in
        if ppid (pcbs s cur) =? 0 then
          let pid_ := pid (pcbs s cur) in
          let s := if nonzero prev then upd_pcb prev (set_next nxt) s
                   else set_zombie_list nxt s in
          let s := release_pcb cur s in
          let s := pid_reuse pid_ s in
          zombies_free_loop fuel' prev nxt s
        else zombies_free_loop fuel' cur nxt s
  end.

Definition zombies_free (fuel : nat) (s : kstate) : option kstate :=
  zombies_free_loop fuel NULL (zombie_list s) s.

(** [schedule]; [switch_context] (assembly) is the [Yield]. *)
Definition schedule (fuel : nat) (s : kstate) : outcome unit :=
  let s := intr_off s in
  let '(nxt, s) := dequeue (ready_queue s) s in
  let nxt :=
    if negb (nonzero nxt) then
      if nonzero (current_proc s)
         && ProcState_eqb (pstat (pcbs s (current_proc s))) RUNNING
         && negb (current_proc s =? idle_proc s)
      then current_proc s
      else idle_proc s
    else nxt in
  if (nxt =? current_proc s) && ProcState_eqb (pstat (pcbs s nxt)) RUNNING then
    match zombies_free fuel s with
    | None => OutOfFuel
    | Some s => Ret tt (intr_on s)
    end
  else
    let old := current_proc s in
    if negb (nonzero old) then
      let s := upd_pcb nxt (set_pstat RUNNING) s in
      let s := set_current_proc nxt s in
      Yield s (fun s' => Ret tt (intr_on s'))
    else
      let s :=
        if ProcState_eqb (pstat (pcbs s old)) RUNNING then
          let s := upd_pcb old (set_pstat READY) s in
          if negb (old =? idle_proc s) then enqueue (ready_queue s) old s else s
        else s in
      let s := upd_pcb nxt (set_pstat RUNNING) s in
      let s := set_current_proc nxt s in
      Yield s (fun s' =>
        match zombies_free fuel s' with
        | None => OutOfFuel
        | Some s'' => Ret tt (intr_on s'')
        end).

(** [proc_exit]: the search of [blocked_list] for the parent. *)
Fixpoint wake_parent_loop (fuel : nat) (ppid_ prev cur : Z) (s : kstate) : option kstate :=
  match fuel with
  | O => None
  | S fuel' =>
      if negb (nonzero cur) then Some s
      else if pid (pcbs s cur) =? ppid_ then
        let s := if nonzero prev then upd_pcb prev (set_next (next (pcbs s cur))) s
                 else set_blocked_list (next (pcbs s cur)) s in
        let s := upd_pcb cur (set_pstat READY) s in
        Some (enqueue (ready_queue s) cur s)
      else wake_parent_loop fuel' ppid_ cur (next (pcbs s cur)) s
  end.

(** [proc_exit] from [current_proc->pstat = TERMINATED] to the push onto
    [zombie_list]. *)
Definition exit_to_zombie (s : kstate) : kstate :=
  let s := upd_pcb (current_proc s) (set_pstat TERMINATED) s in
  let s := upd_pcb (current_proc s) (set_next (zombie_list s)) s in
  set_zombie_list (current_proc s) s.

(** [proc_exit] from there to the call of [schedule]: wake the parent. *)
Definition exit_wake_parent (fuel : nat) (s : kstate) : option kstate :=
  let ppid_ := ppid (pcbs s (current_proc s)) in
  if nonzero ppid_ then wake_parent_loop fuel ppid_ NULL (blocked_list s) s
  else Some s.

Definition proc_exit (fuel : nat) (s : kstate) : outcome unit :=
  let s := intr_off s in
  if negb (nonzero (current_proc s)) then Ret tt s
  else
    match exit_wake_parent fuel (exit_to_zombie s) with
    | None => OutOfFuel
    | Some s => bind (schedule fuel s) (fun _ s => Halt s)
    end.

(** [proc_wait_and_reap]: the scan of [zombie_list] for a child of [mypid].
    [Some (Some (pid, s))]: a child was reaped; [Some None]: no child. *)
Fixpoint reap_scan (fuel : nat) (mypid prev cur : Z) (s : kstate)
  : option (option (Z * kstate)) :=
  match fuel with
  | O => None
  | S fuel' =>
      if negb (nonzero cur) then Some None
      else if ppid (pcbs s cur) =? mypid then
        let s := if nonzero prev then upd_pcb prev (set_next (next (pcbs s cur))) s
                 else set_zombie_list (next (pcbs s cur)) s in
        let childpid := pid (pcbs s cur) in
        let s := release_pcb cur s in
        let s := pid_reuse childpid s in
        Some (Some (childpid, intr_on s))
      else reap_scan fuel' mypid cur (next (pcbs s cur)) s
  end.

(** [proc_wait_and_reap]: [rounds] bounds the iterations of [while (1)]. *)
Fixpoint wait_loop (rounds fuel : nat) (s : kstate) : outcome Z :=
  match rounds with
  | O => OutOfFuel
  | S rounds' =>
      let s := intr_off s in
      let mypid := pid (pcbs s (current_proc s)) in
      match reap_scan fuel mypid NULL (zombie_list s) s with
      | None => OutOfFuel
      | Some (Some (childpid, s)) => Ret childpid s
      | Some None =>
          let s := upd_pcb (current_proc s) (set_pstat BLOCKED) s in
          let s := upd_pcb (current_proc s) (set_next (blocked_list s)) s in
          let s := set_blocked_list (current_proc s) s in
          bind (schedule fuel s) (fun _ s => wait_loop rounds' fuel s)
      end
  end.

Definition proc_wait_and_reap (rounds fuel : nat) (s : kstate) : outcome Z :=
  if negb (nonzero (current_proc s)) then Ret (-1) s
  else wait_loop rounds fuel s.

Definition proc_suspend_current (fuel : nat) (s : kstate) : outcome unit :=
  let s := intr_off s in
  if negb (nonzero (current_proc s)) || (current_proc s =? idle_proc s)
  then Ret tt (intr_on s)
  else
    let s := upd_pcb (current_proc s) (set_pstat BLOCKED) s in
    let s := upd_pcb (current_proc s) (set_next (blocked_list s)) s in
    let s := set_blocked_list (current_proc s) s in
    bind (schedule fuel s) (fun _ s => Halt s).

(** [proc_kill]: search of [ready_queue]. *)
Fixpoint kill_ready_loop (fuel : nat) (pid_ prev cur : Z) (s : kstate)
  : option (option kstate) :=
  match fuel with
  | O => None
  | S fuel' =>
      if negb (nonzero cur) then Some None
      else if pid (pcbs s cur) =? pid_ then
        let nxt := next (pcbs s cur) in
        let s := if nonzero prev then upd_pcb prev (set_next nxt) s
                 else upd_queue (ready_queue s)
                        (fun q => mkQueue nxt (tail q) (count q)) s in
        let s := if negb (nonzero nxt)
                 then upd_queue (ready_queue s)
                        (fun q => mkQueue (head q) prev (count q)) s
                 else s in
        let s := upd_queue (ready_queue s)
                   (fun q => mkQueue (head q) (tail q) (s32 (count q - 1))) s in
        let s := free_pcb_resources cur s in
        Some (Some (intr_on s))
      else kill_ready_loop fuel' pid_ cur (next (pcbs s cur)) s
  end.

(** [proc_kill]: search of [blocked_list] ([blocked = true]) or [zombie_list]. *)
Fixpoint kill_list_loop (fuel : nat) (blocked : bool) (pid_ prev cur : Z) (s : kstate)
  : option (option kstate) :=
  match fuel with
  | O => None
  | S fuel' =>
      if negb (nonzero cur) then Some None
      else if pid (pcbs s cur) =? pid_ then
        let nxt := next (pcbs s cur) in
        let s := if nonzero prev then upd_pcb prev (set_next nxt) s
                 else if blocked then set_blocked_list nxt s
                      else set_zombie_list nxt s in
        let s := free_pcb_resources cur s in
        Some (Some (intr_on s))
      else kill_list_loop fuel' blocked pid_ cur (next (pcbs s cur)) s
  end.

(** [proc_kill] from the search of [ready_queue] on. *)
Definition kill_search (fuel : nat) (pid_ : Z) (s : kstate) : outcome Z :=
  let r1 := if nonzero (ready_queue s)
            then kill_ready_loop fuel pid_ NULL (head (queues s (ready_queue s))) s
            else Some None in
  match r1 with
  | None => OutOfFuel
  | Some (Some s') => Ret 0 s'
  | Some None =>
      match kill_list_loop fuel true pid_ NULL (blocked_list s) s with
      | None => OutOfFuel
      | Some (Some s') => Ret 0 s'
      | Some None =>
          match kill_list_loop fuel false pid_ NULL (zombie_list s) s with
          | None => OutOfFuel
          | Some (Some s') => Ret 0 s'
          | Some None => Ret (-1) (intr_on s)
          end
      end
  end.

Definition proc_kill (fuel : nat) (pid_ : Z) (s : kstate) : outcome Z :=
  let s := intr_off s in
  if pid_ <? 0 then Ret (-1) (intr_on s)
  else if nonzero (idle_proc s) && (pid (pcbs s (idle_proc s)) =? pid_)
  then Ret (-1) (intr_on s)
  else if nonzero (current_proc s) && (pid (pcbs s (current_proc s)) =? pid_)
  then bind (proc_exit fuel (intr_on s)) (fun _ s => kill_search fuel pid_ s)
  else kill_search fuel pid_ s.

End Proc.
Import Proc.

(** ** Trap dispatcher ([trap.c]) *)

Module Trap.

Definition CLINT_BASE : Z := 0x02000000.
Definition CLINT_MTIME : Z := CLINT_BASE + 0xBFF8.
Definition CLINT_MTIMECMP (hartid : Z) : Z := CLINT_BASE + 0x4000 + 8 * hartid.

(** [tf[i]] of the trap frame ([uint64_t *tf]). *)
Definition tf_addr (tf i : Z) : Z := u64 (tf + 8 * i).
Definition tf_get (tf i : Z) (s : kstate) : Z := load64 (ram (vm s)) (tf_addr tf i).
Definition tf_set (tf i v : Z) (s : kstate) : kstate :=
  set_vm (set_ram (store64 (ram (vm s)) (tf_addr tf i) v) (vm s)) s.

(** The CLINT registers are read and written as memory. *)
Definition set_next_timer (interval : Z) (s : kstate) : kstate :=
  let now := load64 (ram (vm s)) CLINT_MTIME in
  set_vm (set_ram (store64 (ram (vm s)) (CLINT_MTIMECMP 0) (u64 (now + interval))) (vm s)) s.

Section Handler.

  (** The syscall layer and the device drivers the dispatcher calls
      ([syscall.h], [plic.h], [blk.h]). *)
Variable SYS_EXEC : Z.
Variable sys_exec_lookup : list Z -> kstate -> Z.
Variable syscall_dispatch : Z -> list Z -> Z -> kstate -> outcome Z.
Variable plic_claim : kstate -> Z * kstate.
Variable plic_complete : Z -> kstate -> kstate.
Variable blk_intr : kstate -> kstate.

  (** The copy of the trap frame into [cur->regstat]. *)
Definition save_trap_frame (tf epc : Z) (s : kstate) : kstate :=
    let cur := get_current_proc s in
    if nonzero cur then
      upd_pcb cur (fun c =>
        set_regstat
          (mkRegState (tf_get tf 0 s) (tf_get tf 1 s) (tf_get tf 2 s) (tf_get tf 3 s)
                      (tf_get tf 4 s) (tf_get tf 5 s) (tf_get tf 6 s) (tf_get tf 7 s)
                      (tf_get tf 8 s) (tf_get tf 9 s) (tf_get tf 10 s) (tf_get tf 11 s)
                      (u64 (tf + 128)) epc (csr_mstatus s)) c) s
    else s.

  (** [case 8: case 11:] of the exception switch. *)
Definition handle_ecall (tf epc : Z) (s : kstate) : outcome unit :=
    let num := tf_get tf 11 s in
    let args := [tf_get tf 4 s; tf_get tf 5 s; tf_get tf 6 s;
                 tf_get tf 7 s; tf_get tf 8 s; tf_get tf 9 s] in
    let s := save_trap_frame tf epc s in
    if num =? SYS_EXEC then
      let entry := sys_exec_lookup args s in
      if entry =? u64 (-1) then
        let s := tf_set tf 4 (u64 (-1)) s in
        let new_epc := u64 (epc + 4) in
        Ret tt (set_mepc new_epc s)
      else
        let s := tf_set tf 4 0 s in
        let s := tf_set tf 5 0 s in
        Ret tt (set_mepc entry s)
    else
      bind (syscall_dispatch num args epc s) (fun ret s =>
        let s := tf_set tf 4 ret s in
        let new_epc := u64 (epc + 4) in
        Ret tt (set_mepc new_epc s)).

Definition trap_handler_c (fuel : nat) (tf : Z) (s : kstate) : outcome unit :=
    let cause := csr_mcause s in
    let epc := csr_mepc s in
    let is_interrupt := Z.land (Z.shiftr cause 63) 1 in
    let code := Z.land cause (Z.lxor (two64 - 1) (Z.shiftl 1 63)) in
    if negb (nonzero is_interrupt) then
      if (code =? 8) || (code =? 11) then handle_ecall tf epc s
      else
        let p := get_current_proc s in
        if nonzero p then bind (proc_exit fuel s) (fun _ s => Ret tt s)
        else Halt s
    else
      if code =? 7 then
        let s := set_next_timer 1000000 s in
        schedule fuel s
      else if code =? 11 then
        let '(irq, s) := plic_claim s in
        let s := if nonzero irq then
                   let s := if (1 <=? irq) && (irq <=? 8) then blk_intr s else s in
                   plic_complete irq s
                 else s in
        Halt s
      else Halt s.

End Handler.

End Trap.
Import Trap.

(** Vocabulary for statements about the dispatcher. *)
Module TrapInv.

(** The registers of the trap frame, as [save_trap_frame] stores them. *)
Definition tf_snapshot (tf epc : Z) (s : kstate) : RegState :=
  mkRegState (tf_get tf 0 s) (tf_get tf 1 s) (tf_get tf 2 s) (tf_get tf 3 s)
             (tf_get tf 4 s) (tf_get tf 5 s) (tf_get tf 6 s) (tf_get tf 7 s)
             (tf_get tf 8 s) (tf_get tf 9 s) (tf_get tf 10 s) (tf_get tf 11 s)
             (u64 (tf + 128)) epc (csr_mstatus s).

(** Everything of the kernel state except RAM, the PCB store and [mepc]. *)
Definition same_globals (s s' : kstate) : Prop :=
  queues s' = queues s /\ idle_proc s' = idle_proc s /\ ready_queue s' = ready_queue s /\
  current_proc s' = current_proc s /\ zombie_list s' = zombie_list s /\
  blocked_list s' = blocked_list s /\ next_pid s' = next_pid s /\
  csr_mstatus s' = csr_mstatus s /\
  freelist (vm s') = freelist (vm s) /\ kernel_pd (vm s') = kernel_pd (vm s).

(** A PCB that differs from another at most in [regstat]. *)
Definition same_but_regstat (c c' : PCB) : Prop :=
  pid c' = pid c /\ ppid c' = ppid c /\ name c' = name c /\ pstat c' = pstat c /\
  prior c' = prior c /\ entrypoint c' = entrypoint c /\ stacktop c' = stacktop c /\
  brk_base c' = brk_base c /\ brk_size c' = brk_size c /\ next c' = next c.

End TrapInv.
Import TrapInv.

(** ** Concrete states used to run the definitions *)

Module Demo.

(** A freshly initialised memory subsystem: an empty root table at
    [0x8000F000] and four free pages. *)
Definition demo_vm : vstate :=
  {| ram := fun _ => 0;
     freelist := [0x80010000; 0x80011000; 0x80012000; 0x80013000];
     kernel_pd := 0x8000F000 |}.

(** [demo_vm] after identity-mapping the page [0x80011000], as [vmm_init] does
    for every page of RAM: the walk allocates [0x80010000] as level-1 table
    and [0x80011000] itself as level-0 table. *)
Definition self_mapped_vm : vstate :=
  map_identity_range 0x80011000 0x80012000 VMM_P_RW demo_vm.

Definition demo_name : list Z := [115; 104; 0; 0; 0; 0; 0; 0; 0; 0; 0; 0; 0; 0; 0; 0; 0; 0; 0; 0].

Definition demo_regs (sp_ : Z) : RegState :=
  mkRegState 0x80000100 5 6 7 10 11 12 13 14 15 16 17 sp_ 0x80200000 0x1880.

(** Addresses of the PCBs and of the ready-queue object of the examples. *)
Definition IDLE : Z := 0x80020000.
Definition P1 : Z := 0x80022000.
Definition P2 : Z := 0x80025000.
Definition P3 : Z := 0x80028000.
Definition RQ : Z := 0x8001F000.

Definition demo_pcb (pid_ ppid_ : Z) (st : ProcState) (stk next_ : Z) : PCB :=
  mkPCB pid_ ppid_ demo_name st 0 0x80200000 (demo_regs (stk + 0xF00))
        (stk + 0x1000) NULL 0 next_.

(** Idle (pid 0), the shell [P1] (pid 1) running, its child [P2] (pid 2)
    alone on the ready queue; [next_pid = 3]; interrupts enabled. *)
Definition demo_kstate : kstate :=
  {| vm := demo_vm;
     pcbs := fun p =>
       if p =? IDLE then demo_pcb 0 0 READY 0x80021000 NULL
       else if p =? P1 then demo_pcb 1 0 RUNNING 0x80023000 NULL
       else if p =? P2 then demo_pcb 2 1 READY 0x80026000 NULL
       else zero_PCB;
     queues := fun q => if q =? RQ then mkQueue P2 P2 1 else mkQueue NULL NULL 0;
     idle_proc := IDLE;
     ready_queue := RQ;
     current_proc := P1;
     zombie_list := NULL;
     blocked_list := NULL;
     next_pid := 3;
     csr_mstatus := 0x1888;
     csr_mepc := 0x80200010;
     csr_mcause := 8;
     csr_mtval := 0 |}.

(** The state before the first [schedule]: no current process yet. *)
Definition boot_kstate : kstate := set_current_proc NULL demo_kstate.

(** The child [P2] (pid 2, parent pid 1) is running, its parent [P1] sleeps on
    [blocked_list] behind [P3] (pid 3); the ready queue holds [P4] (pid 4). *)
Definition P4 : Z := 0x8002B000.
Definition exit_kstate : kstate :=
  {| vm := demo_vm;
     pcbs := fun p =>
       if p =? IDLE then demo_pcb 0 0 READY 0x80021000 NULL
       else if p =? P1 then demo_pcb 1 0 BLOCKED 0x80023000 NULL
       else if p =? P2 then demo_pcb 2 1 RUNNING 0x80026000 NULL
       else if p =? P3 then demo_pcb 3 1 BLOCKED 0x80029000 P1
       else if p =? P4 then demo_pcb 4 1 READY 0x8002C000 NULL
       else zero_PCB;
     queues := fun q => if q =? RQ then mkQueue P4 P4 1 else mkQueue NULL NULL 0;
     idle_proc := IDLE;
     ready_queue := RQ;
     current_proc := P2;
     zombie_list := NULL;
     blocked_list := P3;
     next_pid := 5;
     csr_mstatus := 0x1888;
     csr_mepc := 0x80200010;
     csr_mcause := 8;
     csr_mtval := 0 |}.

(** [demo_kstate] at an [ecall] of [P1]: the trap frame lies at [TF] on
    [P1]'s stack, with [a7 = 7] and [a0 = 0x80300000]. *)
Definition TF : Z := 0x80023E80.
Definition trap_kstate : kstate :=
  set_vm (set_ram (store64 (store64 (fun _ => 0) (TF + 88) 7) (TF + 32) 0x80300000)
                  demo_vm) demo_kstate.




(** The memory subsystem before [vmm_init]: no root table yet, the allocator
    holds four pages. *)
Definition boot_vm : vstate :=
  {| ram := fun _ => 0;
     freelist := [0x8000F000; 0x80010000; 0x80011000; 0x80012000];
     kernel_pd := NULL |}.

End Demo.
Import Demo.

(** ** Abstract view of the intrusive lists *)

Module ListInv.

(** [list_seg pc p l q]: following [next] from [p] visits exactly the PCBs
    [l], all non-null, and ends at [q]. *)
Fixpoint list_seg (pc : Z -> PCB) (p : Z) (l : list Z) (q : Z) : Prop :=
  match l with
  | [] => p = q
  | x :: l' => p = x /\ x <> NULL /\ list_seg pc (next (pc x)) l' q
  end.

Definition is_list (pc : Z -> PCB) (p : Z) (l : list Z) : Prop := list_seg pc p l NULL.

(** The queue object [q] holds exactly [l], in order. *)
Definition is_queue (s : kstate) (q : Z) (l : list Z) : Prop :=
  is_list (pcbs s) (head (queues s q)) l /\ tail (queues s q) = last l NULL.

(** Executable version of [is_list], for concrete states. *)
Fixpoint is_listb (pc : Z -> PCB) (p : Z) (l : list Z) : bool :=
  match l with
  | [] => p =? NULL
  | x :: l' => (p =? x) && negb (x =? NULL) && is_listb pc (next (pc x)) l'
  end.

(** Two PCB stores that agree on every field except [next]. *)
Definition same_but_next (pc pc' : Z -> PCB) : Prop :=
  forall q, set_next NULL (pc' q) = set_next NULL (pc q).

End ListInv.
Import ListInv.

(** ** Vocabulary for statements about [proc_fork] *)

Module ForkInv.




(** Executable check of [heap_sep]: every page the subsystem owns lies
    outside both regions. *)
Definition owned_pages (v : vstate) : list Z :=
  kernel_pd v :: l1_tables v ++ l0_tables v ++ freelist v.













End ForkInv.
Import ForkInv.

(** ** Sequences of memory-manager calls *)

Module VmmOps.

(** A call of [vmm_map], [vmm_map_page] or [vmm_unmap]. *)
Inductive vmm_op : Type :=
| OpMap (va pa flags : Z)
| OpMapPage (va flags : Z)
| OpUnmap (va free_phys : Z).

Definition op_va (op : vmm_op) : Z :=
  match op with
  | OpMap va _ _ => va
  | OpMapPage va _ => va
  | OpUnmap va _ => va
  end.

Definition run_op (op : vmm_op) (s : vstate) : vstate :=
  match op with
  | OpMap va pa f => snd (vmm_map va pa f s)
  | OpMapPage va f => snd (vmm_map_page va f s)
  | OpUnmap va fr => snd (vmm_unmap va fr s)
  end.

Fixpoint run_ops (ops : list vmm_op) (s : vstate) : vstate :=
  match ops with
  | [] => s
  | op :: rest => run_ops rest (run_op op s)
  end.

(** Two addresses share their page slot: the same three Sv39 indices. *)
Definition same_slot (va va' : Z) : bool :=
  (SV39_VPN2 va =? SV39_VPN2 va') && (SV39_VPN1 va =? SV39_VPN1 va') &&
  (SV39_VPN0 va =? SV39_VPN0 va').

(** A call that leaves the page slot of [va] alone and the memory subsystem
    well formed: it works on another slot; a [vmm_map] gets a 64-bit physical
    address; a [vmm_unmap] that frees releases a non-null page the subsystem
    does not own (neither a page-table page nor a page already free). *)
Definition op_spares (va : Z) (op : vmm_op) (s : vstate) : Prop :=
  same_slot (op_va op) va = false /\
  match op with
  | OpMap _ pa _ => 0 <= pa < two64
  | OpMapPage _ _ => True
  | OpUnmap va' fr =>
      fr = 0 \/
      (let pte := leaf s (SV39_VPN2 va') (SV39_VPN1 va') (SV39_VPN0 va') in
       pte_to_phys pte <> 0 /\ ~ owned_page s (pte_to_phys pte))
  end.

Fixpoint ops_spare (va : Z) (ops : list vmm_op) (s : vstate) : Prop :=
  match ops with
  | [] => True
  | op :: rest => op_spares va op s /\ ops_spare va rest (run_op op s)
  end.

End VmmOps.
Import VmmOps.
(** * Facts about the embedding *)

(** ** Words and RAM *)

Lemma u64_range x : 0 <= u64 x < two64.
Proof. unfold u64, two64. apply Z.mod_pos_bound. lia. Qed.

Lemma u64_small x : 0 <= x < two64 -> u64 x = x.
Proof. intros H. unfold u64. apply Z.mod_small. exact H. Qed.

Lemma s32_small x : - 2 ^ 31 <= x < 2 ^ 31 -> s32 x = x.
Proof. intros H. unfold s32. rewrite Z.mod_small; lia. Qed.

Lemma load8_range m a : 0 <= load8 m a < 256.
Proof. unfold load8. apply Z.mod_pos_bound. lia. Qed.

Lemma load8_store8_same m a v : load8 (store8 m a v) a = v mod 256.
Proof.
  unfold load8, store8. rewrite Z.eqb_refl. apply Z.mod_mod. lia.
Qed.

Lemma store8_other m a v x : x <> a -> store8 m a v x = m x.
Proof.
  intros H. unfold store8. destruct (Z.eqb_spec x a); [contradiction|reflexivity].
Qed.

Lemma load8_store8_other m a v x : x <> a -> load8 (store8 m a v) x = load8 m x.
Proof. intros H. unfold load8. rewrite store8_other; auto. Qed.

Lemma load64_range m a : 0 <= load64 m a < two64.
Proof.
  unfold load64, two64.
  pose proof (load8_range m a). pose proof (load8_range m (a + 1)).
  pose proof (load8_range m (a + 2)). pose proof (load8_range m (a + 3)).
  pose proof (load8_range m (a + 4)). pose proof (load8_range m (a + 5)).
  pose proof (load8_range m (a + 6)). pose proof (load8_range m (a + 7)).
  lia.
Qed.

Lemma store64_other m a v x : x < a \/ a + 8 <= x -> store64 m a v x = m x.
Proof.
  intros H. unfold store64. cbv zeta.
  repeat (rewrite store8_other by lia). reflexivity.
Qed.

Lemma load8_store64_other m a v x :
  x < a \/ a + 8 <= x -> load8 (store64 m a v) x = load8 m x.
Proof. intros H. unfold load8. rewrite store64_other; auto. Qed.

Lemma load64_store64_other m a v b :
  b + 8 <= a \/ a + 8 <= b -> load64 (store64 m a v) b = load64 m b.
Proof.
  intros H. unfold load64. repeat (rewrite load8_store64_other by lia). reflexivity.
Qed.

Lemma load64_ext m m' a :
  (forall x, a <= x < a + 8 -> m' x = m x) -> load64 m' a = load64 m a.
Proof.
  intros H. unfold load64, load8. repeat (rewrite H by lia). reflexivity.
Qed.

Lemma load64_store64_same m a v : load64 (store64 m a v) a = u64 v.
Proof.
  unfold load64, store64. cbv zeta.
  rewrite (load8_store8_other _ (a + 7) _ a) by lia.
  rewrite (load8_store8_other _ (a + 6) _ a) by lia.
  rewrite (load8_store8_other _ (a + 5) _ a) by lia.
  rewrite (load8_store8_other _ (a + 4) _ a) by lia.
  rewrite (load8_store8_other _ (a + 3) _ a) by lia.
  rewrite (load8_store8_other _ (a + 2) _ a) by lia.
  rewrite (load8_store8_other _ (a + 1) _ a) by lia.
  rewrite load8_store8_same.
  rewrite (load8_store8_other _ (a + 7) _ (a + 1)) by lia.
  rewrite (load8_store8_other _ (a + 6) _ (a + 1)) by lia.
  rewrite (load8_store8_other _ (a + 5) _ (a + 1)) by lia.
  rewrite (load8_store8_other _ (a + 4) _ (a + 1)) by lia.
  rewrite (load8_store8_other _ (a + 3) _ (a + 1)) by lia.
  rewrite (load8_store8_other _ (a + 2) _ (a + 1)) by lia.
  rewrite load8_store8_same.
  rewrite (load8_store8_other _ (a + 7) _ (a + 2)) by lia.
  rewrite (load8_store8_other _ (a + 6) _ (a + 2)) by lia.
  rewrite (load8_store8_other _ (a + 5) _ (a + 2)) by lia.
  rewrite (load8_store8_other _ (a + 4) _ (a + 2)) by lia.
  rewrite (load8_store8_other _ (a + 3) _ (a + 2)) by lia.
  rewrite load8_store8_same.
  rewrite (load8_store8_other _ (a + 7) _ (a + 3)) by lia.
  rewrite (load8_store8_other _ (a + 6) _ (a + 3)) by lia.
  rewrite (load8_store8_other _ (a + 5) _ (a + 3)) by lia.
  rewrite (load8_store8_other _ (a + 4) _ (a + 3)) by lia.
  rewrite load8_store8_same.
  rewrite (load8_store8_other _ (a + 7) _ (a + 4)) by lia.
  rewrite (load8_store8_other _ (a + 6) _ (a + 4)) by lia.
  rewrite (load8_store8_other _ (a + 5) _ (a + 4)) by lia.
  rewrite load8_store8_same.
  rewrite (load8_store8_other _ (a + 7) _ (a + 5)) by lia.
  rewrite (load8_store8_other _ (a + 6) _ (a + 5)) by lia.
  rewrite load8_store8_same.
  rewrite (load8_store8_other _ (a + 7) _ (a + 6)) by lia.
  rewrite load8_store8_same.
  rewrite load8_store8_same.
  unfold u64, two64.
  change (2 ^ 8) with 256. change (2 ^ 16) with (256 * 256).
  change (2 ^ 24) with (256 * (256 * 256)).
  change (2 ^ 32) with (256 * (256 * (256 * 256))).
  change (2 ^ 40) with (256 * (256 * (256 * (256 * 256)))).
  change (2 ^ 48) with (256 * (256 * (256 * (256 * (256 * 256))))).
  change (2 ^ 56) with (256 * (256 * (256 * (256 * (256 * (256 * 256)))))).
  change (2 ^ 64) with (256 * (256 * (256 * (256 * (256 * (256 * (256 * 256))))))).
  repeat rewrite <- Z.div_div by lia.
  set (v1 := v / 256). set (v2 := v1 / 256). set (v3 := v2 / 256).
  set (v4 := v3 / 256). set (v5 := v4 / 256). set (v6 := v5 / 256).
  set (v7 := v6 / 256).
  rewrite (Z.rem_mul_r v 256) by lia. fold v1.
  rewrite (Z.rem_mul_r v1 256) by lia. fold v2.
  rewrite (Z.rem_mul_r v2 256) by lia. fold v3.
  rewrite (Z.rem_mul_r v3 256) by lia. fold v4.
  rewrite (Z.rem_mul_r v4 256) by lia. fold v5.
  rewrite (Z.rem_mul_r v5 256) by lia. fold v6.
  rewrite (Z.rem_mul_r v6 256) by lia. fold v7.
  lia.
Qed.

Lemma zero_loop_spec b n : forall i m x,
  0 <= b -> 0 <= i -> b + i + Z.of_nat n <= two64 ->
  for_up n i (fun i m => store8 m (u64 (b + i)) 0) m x =
  if (b + i <=? x) && (x <? b + i + Z.of_nat n) then 0 else m x.
Proof.
  induction n as [|n IH]; intros i m x Hb Hi Hn.
  - simpl. destruct (Z.leb_spec (b + i) x), (Z.ltb_spec x (b + i + 0)); simpl; auto; lia.
  - cbn [for_up]. rewrite IH by lia.
    rewrite u64_small by (unfold two64 in *; lia).
    unfold store8.
    destruct (Z.leb_spec (b + (i + 1)) x), (Z.ltb_spec x (b + (i + 1) + Z.of_nat n)),
      (Z.leb_spec (b + i) x), (Z.ltb_spec x (b + i + Z.of_nat (S n))),
      (Z.eqb_spec x (b + i)); simpl; auto; lia.
Qed.

Lemma zero_bytes_spec n b m x :
  0 <= b -> b + Z.of_nat n <= two64 ->
  zero_bytes n b m x = if (b <=? x) && (x <? b + Z.of_nat n) then 0 else m x.
Proof.
  intros Hb Hn. unfold zero_bytes. rewrite zero_loop_spec by lia.
  replace (b + 0) with b by lia. reflexivity.
Qed.





(** ** Bit-level facts about PTEs *)

Lemma nonzero_true x : nonzero x = true <-> x <> 0.
Proof. unfold nonzero. destruct (Z.eqb_spec x 0); simpl; split; intros; congruence. Qed.

Lemma nonzero_false x : nonzero x = false <-> x = 0.
Proof. unfold nonzero. destruct (Z.eqb_spec x 0); simpl; split; intros; congruence. Qed.

Lemma land_4095 x : Z.land x 4095 = x mod 4096.
Proof. change 4095 with (Z.ones 12). rewrite Z.land_ones by lia. reflexivity. Qed.

Lemma land_1023 x : Z.land x 1023 = x mod 1024.
Proof. change 1023 with (Z.ones 10). rewrite Z.land_ones by lia. reflexivity. Qed.

Lemma land_511 x : Z.land x 511 = x mod 512.
Proof. change 511 with (Z.ones 9). rewrite Z.land_ones by lia. reflexivity. Qed.

Lemma land_1 x : Z.land x 1 = x mod 2.
Proof. change 1 with (Z.ones 1) at 1. rewrite Z.land_ones by lia. reflexivity. Qed.

Lemma lor_disjoint_add a b n :
  0 <= n -> 0 <= a -> 0 <= b < 2 ^ n -> Z.lor (a * 2 ^ n) b = a * 2 ^ n + b.
Proof.
  intros Hn Ha Hb.
  assert (Hland : Z.land (a * 2 ^ n) b = 0).
  { apply Z.bits_inj'. intros k Hk. rewrite Z.land_spec, Z.bits_0.
    destruct (Z.lt_ge_cases k n) as [Hlt|Hge].
    - rewrite Z.mul_pow2_bits_low by lia. reflexivity.
    - destruct (Z.eq_dec b 0) as [->|Hb0].
      + rewrite Z.bits_0. apply andb_false_r.
      + rewrite (Z.bits_above_log2 b k); [apply andb_false_r|lia|].
        apply Z.log2_lt_pow2; [lia|].
        apply Z.lt_le_trans with (2 ^ n); [lia|].
        apply Z.pow_le_mono_r; lia. }
  rewrite <- Z.lxor_lor by exact Hland.
  symmetry. apply Z.add_nocarry_lxor. exact Hland.
Qed.

Lemma make_pte_eq pa f :
  0 <= pa < two64 -> make_pte pa f = pa / 4096 * 1024 + f mod 1024.
Proof.
  intros Hpa. unfold make_pte. cbv zeta.
  change 0x3FF with 1023. rewrite land_1023.
  rewrite Z.shiftr_div_pow2, Z.shiftl_mul_pow2 by lia.
  change (2 ^ 12) with 4096. change (2 ^ 10) with 1024.
  assert (0 <= pa / 4096 < 2 ^ 52).
  { split; [apply Z.div_pos; lia|].
    apply Z.div_lt_upper_bound; [lia|]. unfold two64 in Hpa. lia. }
  rewrite u64_small by (unfold two64; lia).
  change 1024 with (2 ^ 10) at 1.
  rewrite lor_disjoint_add; [reflexivity|lia|lia|].
  apply Z.mod_pos_bound. lia.
Qed.

Lemma pte_to_phys_eq pte : pte_to_phys pte = u64 (pte / 1024 * 4096).
Proof.
  unfold pte_to_phys. cbv zeta.
  rewrite Z.shiftr_div_pow2, Z.shiftl_mul_pow2 by lia. reflexivity.
Qed.

Lemma SV39_VPN0_eq va : SV39_VPN0 va = (va / 2 ^ 12) mod 512.
Proof. unfold SV39_VPN0. change 0x1FF with 511. rewrite land_511, Z.shiftr_div_pow2 by lia. reflexivity. Qed.

Lemma SV39_VPN1_eq va : SV39_VPN1 va = (va / 2 ^ 21) mod 512.
Proof. unfold SV39_VPN1. change 0x1FF with 511. rewrite land_511, Z.shiftr_div_pow2 by lia. reflexivity. Qed.

Lemma SV39_VPN2_eq va : SV39_VPN2 va = (va / 2 ^ 30) mod 512.
Proof. unfold SV39_VPN2. change 0x1FF with 511. rewrite land_511, Z.shiftr_div_pow2 by lia. reflexivity. Qed.

Lemma SV39_VPN0_range va : 0 <= SV39_VPN0 va < 512.
Proof. rewrite SV39_VPN0_eq. apply Z.mod_pos_bound. lia. Qed.

Lemma SV39_VPN1_range va : 0 <= SV39_VPN1 va < 512.
Proof. rewrite SV39_VPN1_eq. apply Z.mod_pos_bound. lia. Qed.

Lemma SV39_VPN2_range va : 0 <= SV39_VPN2 va < 512.
Proof. rewrite SV39_VPN2_eq. apply Z.mod_pos_bound. lia. Qed.

(** A page: 4 KiB aligned address inside the 64-bit address space. *)
Lemma page_ok_intro p : 0 <= p < two64 -> p mod 4096 = 0 -> page_ok p.
Proof. intros H1 H2. split; assumption. Qed.

Lemma page_ok_div p : page_ok p -> p = 4096 * (p / 4096) /\ 0 <= p / 4096 < 2 ^ 52.
Proof.
  intros [Hr Hm]. unfold two64 in Hr.
  pose proof (Z.div_mod p 4096 ltac:(lia)) as Hd. rewrite Hm in Hd.
  split; [lia|].
  split; [apply Z.div_pos; lia|apply Z.div_lt_upper_bound; lia].
Qed.

Lemma page_ok_end p : page_ok p -> p + 4096 <= two64.
Proof. intros H. apply page_ok_div in H. unfold two64. lia. Qed.

Lemma pte_to_phys_page_ok pte : page_ok (pte_to_phys pte).
Proof.
  rewrite pte_to_phys_eq. split; [apply u64_range|].
  unfold u64, two64.
  rewrite Z.mod_mod_divide by (exists (2 ^ 52); reflexivity).
  apply Z.mod_mul. lia.
Qed.

Lemma pte_to_phys_make_pte pa f : page_ok pa -> pte_to_phys (make_pte pa f) = pa.
Proof.
  intros Hp. pose proof (page_ok_div _ Hp) as [Hd Hq]. destruct Hp as [Hr Hm].
  rewrite pte_to_phys_eq, make_pte_eq by exact Hr.
  pose proof (Z.mod_pos_bound f 1024 ltac:(lia)).
  replace ((pa / 4096 * 1024 + f mod 1024) / 1024) with (pa / 4096).
  - rewrite u64_small; lia.
  - symmetry. rewrite Z.add_comm, Z.div_add by lia.
    rewrite Z.div_small by lia. lia.
Qed.

Lemma make_pte_range pa f : 0 <= pa < two64 -> 0 <= make_pte pa f < two64.
Proof.
  intros Hpa. rewrite make_pte_eq by exact Hpa.
  pose proof (Z.mod_pos_bound f 1024 ltac:(lia)).
  assert (0 <= pa / 4096 < 2 ^ 52).
  { split; [apply Z.div_pos; lia|].
    apply Z.div_lt_upper_bound; [lia|]. unfold two64 in Hpa. lia. }
  unfold two64. lia.
Qed.

Lemma make_pte_flags pa f : 0 <= pa < two64 -> make_pte pa f mod 1024 = f mod 1024.
Proof.
  intros Hpa. rewrite make_pte_eq by exact Hpa.
  rewrite Z.add_comm, Z.mod_add by lia. apply Z.mod_mod. lia.
Qed.

Lemma present_mod2 pte : nonzero (Z.land pte PTE_V) = negb (pte mod 2 =? 0).
Proof. unfold nonzero. change PTE_V with 1. rewrite land_1. reflexivity. Qed.

Lemma mod2_of_mod1024 x : x mod 2 = (x mod 1024) mod 2.
Proof. symmetry. apply Z.mod_mod_divide. exists 512. reflexivity. Qed.

Lemma make_pte_present pa f :
  0 <= pa < two64 ->
  nonzero (Z.land (make_pte pa f) PTE_V) = nonzero (Z.land f PTE_V).
Proof.
  intros Hpa. rewrite !present_mod2.
  rewrite (mod2_of_mod1024 (make_pte pa f)), make_pte_flags by exact Hpa.
  rewrite <- mod2_of_mod1024. reflexivity.
Qed.

(** ** Page-table slots *)

Lemma pte_addr_eq pt i : page_ok pt -> idx i -> pte_addr pt i = pt + 8 * i.
Proof.
  intros Hp Hi. unfold pte_addr. apply u64_small.
  pose proof (page_ok_end _ Hp). destruct Hp as [Hr _].
  unfold idx, SV39_PT_ENTRIES in Hi. lia.
Qed.

Lemma slot_in_page pt i :
  page_ok pt -> idx i -> pt <= pte_addr pt i /\ pte_addr pt i + 8 <= pt + 4096.
Proof.
  intros Hp Hi. rewrite pte_addr_eq by assumption.
  unfold idx, SV39_PT_ENTRIES in Hi. lia.
Qed.

Lemma pages_disjoint p q :
  page_ok p -> page_ok q -> p <> q -> p + 4096 <= q \/ q + 4096 <= p.
Proof.
  intros Hp Hq Hne. apply page_ok_div in Hp. apply page_ok_div in Hq. lia.
Qed.

Lemma slots_disjoint pt i pt' i' :
  page_ok pt -> page_ok pt' -> idx i -> idx i' -> (pt <> pt' \/ i <> i') ->
  pte_addr pt i + 8 <= pte_addr pt' i' \/ pte_addr pt' i' + 8 <= pte_addr pt i.
Proof.
  intros Hp Hp' Hi Hi' Hne.
  pose proof (slot_in_page _ _ Hp Hi). pose proof (slot_in_page _ _ Hp' Hi').
  destruct (Z.eq_dec pt pt') as [->|Hd].
  - rewrite !pte_addr_eq by assumption. lia.
  - pose proof (pages_disjoint _ _ Hp Hp' Hd). lia.
Qed.

Lemma rd_range s pt i : 0 <= rd s pt i < two64.
Proof. apply load64_range. Qed.

Lemma rd_frame s s' pt i :
  page_ok pt -> idx i ->
  (forall x, in_page pt x -> ram s' x = ram s x) -> rd s' pt i = rd s pt i.
Proof.
  intros Hp Hi H. unfold rd. apply load64_ext. intros x Hx.
  apply H. pose proof (slot_in_page _ _ Hp Hi). unfold in_page, PAGE_SIZE. lia.
Qed.

Lemma child_frame s s' pt i :
  page_ok pt -> idx i ->
  (forall x, in_page pt x -> ram s' x = ram s x) -> child s' pt i = child s pt i.
Proof. intros. unfold child. rewrite (rd_frame s s') by assumption. reflexivity. Qed.

Lemma child_page_ok s pt i t : child s pt i = Some t -> page_ok t.
Proof.
  unfold child. destruct (present _); [|discriminate].
  intros [= <-]. apply pte_to_phys_page_ok.
Qed.

Lemma page_zero_in p m x : page_ok p -> in_page p x -> page_zero p m x = 0.
Proof.
  intros Hp Hx. unfold page_zero, VMM_PAGE_SIZE, PAGE_SIZE.
  pose proof (page_ok_end _ Hp). destruct Hp as [Hr _].
  rewrite zero_bytes_spec by (change (Z.of_nat (Z.to_nat 4096)) with 4096; lia).
  change (Z.of_nat (Z.to_nat 4096)) with 4096.
  unfold in_page, PAGE_SIZE in Hx.
  destruct (Z.leb_spec p x), (Z.ltb_spec x (p + 4096)); simpl; auto; lia.
Qed.

Lemma page_zero_out p m x : page_ok p -> ~ in_page p x -> page_zero p m x = m x.
Proof.
  intros Hp Hx. unfold page_zero, VMM_PAGE_SIZE, PAGE_SIZE.
  pose proof (page_ok_end _ Hp). destruct Hp as [Hr _].
  rewrite zero_bytes_spec by (change (Z.of_nat (Z.to_nat 4096)) with 4096; lia).
  change (Z.of_nat (Z.to_nat 4096)) with 4096.
  unfold in_page, PAGE_SIZE in Hx.
  destruct (Z.leb_spec p x), (Z.ltb_spec x (p + 4096)); simpl; auto; lia.
Qed.

Lemma in_page_disjoint p q x :
  page_ok p -> page_ok q -> p <> q -> in_page p x -> ~ in_page q x.
Proof.
  intros Hp Hq Hne Hx Hx'. unfold in_page, PAGE_SIZE in *.
  pose proof (pages_disjoint _ _ Hp Hq Hne). lia.
Qed.

Lemma load64_zero m a : (forall x, a <= x < a + 8 -> m x = 0) -> load64 m a = 0.
Proof.
  intros H. unfold load64, load8. repeat (rewrite H by lia). reflexivity.
Qed.

(** *** Linking a fresh table: the state [get_next_level] builds on demand *)

Lemma link_rd_same s pt i p rest :
  page_ok pt -> page_ok p -> idx i ->
  rd (link s pt i p rest) pt i = make_pte p PTE_V.
Proof.
  intros Hpt Hp Hi. unfold rd, link. cbn [ram].
  rewrite load64_store64_same. apply u64_small. apply make_pte_range. apply Hp.
Qed.

Lemma link_rd_new s pt i p rest i' :
  page_ok pt -> page_ok p -> idx i -> idx i' -> pt <> p ->
  rd (link s pt i p rest) p i' = 0.
Proof.
  intros Hpt Hp Hi Hi' Hne. unfold rd, link. cbn [ram].
  rewrite load64_store64_other.
  - apply load64_zero. intros x Hx. apply page_zero_in; [assumption|].
    pose proof (slot_in_page _ _ Hp Hi'). unfold in_page, PAGE_SIZE. lia.
  - apply slots_disjoint; auto.
Qed.

Lemma link_rd_other s pt i p rest pt' i' :
  page_ok pt -> page_ok p -> idx i -> page_ok pt' -> idx i' ->
  (pt' <> pt \/ i' <> i) -> pt' <> p ->
  rd (link s pt i p rest) pt' i' = rd s pt' i'.
Proof.
  intros Hpt Hp Hi Hpt' Hi' Hne Hnp. unfold rd, link. cbn [ram].
  rewrite load64_store64_other.
  - apply load64_ext. intros x Hx. apply page_zero_out; [assumption|].
    apply (in_page_disjoint pt'); auto.
    pose proof (slot_in_page _ _ Hpt' Hi'). unfold in_page, PAGE_SIZE. lia.
  - apply slots_disjoint; auto.
Qed.

Lemma present_make_pte_V p : page_ok p -> present (make_pte p PTE_V) = true.
Proof.
  intros Hp. unfold present. rewrite make_pte_present by apply Hp. reflexivity.
Qed.

Lemma present_0 : present 0 = false.
Proof. reflexivity. Qed.

Lemma link_child_same s pt i p rest :
  page_ok pt -> page_ok p -> idx i ->
  child (link s pt i p rest) pt i = Some p.
Proof.
  intros Hpt Hp Hi. unfold child. rewrite link_rd_same by assumption.
  rewrite present_make_pte_V by assumption.
  rewrite pte_to_phys_make_pte by assumption. reflexivity.
Qed.

Lemma link_child_new s pt i p rest i' :
  page_ok pt -> page_ok p -> idx i -> idx i' -> pt <> p ->
  child (link s pt i p rest) p i' = None.
Proof.
  intros. unfold child. rewrite link_rd_new by assumption. reflexivity.
Qed.

Lemma link_child_other s pt i p rest pt' i' :
  page_ok pt -> page_ok p -> idx i -> page_ok pt' -> idx i' ->
  (pt' <> pt \/ i' <> i) -> pt' <> p ->
  child (link s pt i p rest) pt' i' = child s pt' i'.
Proof.
  intros. unfold child. rewrite link_rd_other by assumption. reflexivity.
Qed.

(** *** [get_next_level] case by case *)

Lemma gnl_lookup s pt i :
  get_next_level pt i false s =
  (match child s pt i with Some t => t | None => NULL end, s).
Proof.
  unfold get_next_level, child, present, rd. cbv zeta.
  destruct (nonzero (Z.land (load64 (ram s) (pte_addr pt i)) PTE_V)); reflexivity.
Qed.

Lemma gnl_present s pt i a t :
  child s pt i = Some t -> get_next_level pt i a s = (t, s).
Proof.
  unfold get_next_level, child, present, rd. cbv zeta.
  destruct (nonzero (Z.land (load64 (ram s) (pte_addr pt i)) PTE_V)); simpl.
  - intros [= <-]. reflexivity.
  - discriminate.
Qed.

Lemma gnl_alloc_nil s pt i :
  child s pt i = None -> freelist s = [] -> get_next_level pt i true s = (NULL, s).
Proof.
  unfold get_next_level, child, present, rd. cbv zeta.
  destruct (nonzero (Z.land (load64 (ram s) (pte_addr pt i)) PTE_V)); simpl.
  - discriminate.
  - intros _ Hf. unfold alloc_page_table_page, kalloc. rewrite Hf. reflexivity.
Qed.

Lemma gnl_alloc_cons s pt i p rest :
  child s pt i = None -> freelist s = p :: rest -> p <> 0 ->
  get_next_level pt i true s = (p, link s pt i p rest).
Proof.
  unfold get_next_level, child, present, rd. cbv zeta.
  destruct (nonzero (Z.land (load64 (ram s) (pte_addr pt i)) PTE_V)); simpl.
  - discriminate.
  - intros _ Hf Hp. unfold alloc_page_table_page, kalloc. rewrite Hf.
    apply nonzero_true in Hp. rewrite Hp. simpl. rewrite Hp. reflexivity.
Qed.

(** ** The table tree under the elementary state changes *)

Lemma wf_l1_page_ok s i t : l1_at s i = Some t -> page_ok t.
Proof. apply child_page_ok. Qed.

Lemma wf_l0_page_ok s i j t : l0_at s i j = Some t -> page_ok t.
Proof.
  unfold l0_at. destruct (l1_at s i); [|discriminate]. apply child_page_ok.
Qed.

Lemma is_table_page_ok s pg : vmm_wf s -> is_table s pg -> page_ok pg.
Proof.
  intros Hwf [->|[[i [_ H]]|[i [j [_ [_ H]]]]]].
  - apply Hwf.
  - eapply wf_l1_page_ok; eauto.
  - eapply wf_l0_page_ok; eauto.
Qed.

Lemma l0_at_some s i j t :
  l0_at s i j = Some t -> exists t1, l1_at s i = Some t1 /\ child s t1 j = Some t.
Proof.
  unfold l0_at. destruct (l1_at s i) as [t1|]; [|discriminate].
  intros H. exists t1. auto.
Qed.

Lemma in_page_dec pg x : {in_page pg x} + {~ in_page pg x}.
Proof.
  unfold in_page. destruct (Z_le_gt_dec pg x); [|right; lia].
  destruct (Z_lt_ge_dec x (pg + PAGE_SIZE)); [left|right]; lia.
Qed.

(** A state change that leaves the root pointer and the bytes of every table
    page alone leaves the whole walk alone. *)
Section Frame.
Variables s s' : vstate.
Hypothesis Hwf : vmm_wf s.
Hypothesis Hpd : kernel_pd s' = kernel_pd s.
Hypothesis Hram : forall pg x,
    pg = kernel_pd s \/ is_l1 s pg -> in_page pg x -> ram s' x = ram s x.

Lemma frame_l1 i : idx i -> l1_at s' i = l1_at s i.
  Proof.
    intros Hi. unfold l1_at. rewrite Hpd.
    apply child_frame; [apply Hwf|assumption|].
    intros x Hx. apply (Hram (kernel_pd s)); [left; reflexivity|assumption].
  Qed.

Lemma frame_l0 i j : idx i -> idx j -> l0_at s' i j = l0_at s i j.
  Proof.
    intros Hi Hj. unfold l0_at. rewrite frame_l1 by assumption.
    destruct (l1_at s i) as [t|] eqn:E; [|reflexivity].
    apply child_frame; [eapply wf_l1_page_ok; eauto|assumption|].
    intros x Hx. apply (Hram t); [right; exists i; auto|assumption].
  Qed.

Lemma frame_is_table pg : is_table s' pg <-> is_table s pg.
  Proof.
    unfold is_table, is_l1, is_l0. rewrite Hpd. split.
    - intros [->|[[i [Hi H]]|[i [j [Hi [Hj H]]]]]]; auto.
      + right; left. exists i. rewrite <- frame_l1; auto.
      + right; right. exists i, j. rewrite <- frame_l0; auto.
    - intros [->|[[i [Hi H]]|[i [j [Hi [Hj H]]]]]]; auto.
      + right; left. exists i. rewrite frame_l1; auto.
      + right; right. exists i, j. rewrite frame_l0; auto.
  Qed.

Lemma frame_wf :
    NoDup (freelist s') ->
    (forall p, In p (freelist s') -> page_ok p /\ p <> 0 /\ ~ is_table s p) ->
    vmm_wf s'.
  Proof.
    intros Hnd Hfree. constructor.
    - rewrite Hpd. apply Hwf.
    - exact Hnd.
    - intros p Hp. destruct (Hfree p Hp) as (H1 & H2 & H3).
      repeat split; try apply H1; auto. rewrite Hpd. intros ->. apply H3. left; reflexivity.
    - intros i t Hi H. rewrite frame_l1 in H by assumption.
      destruct (wf_l1 s Hwf i t Hi H) as (H1 & H2 & H3).
      rewrite Hpd. repeat split; auto.
      intros Hin. apply (Hfree t Hin). right; left. exists i; auto.
    - intros i j t Hi Hj H. rewrite frame_l0 in H by assumption.
      destruct (wf_l0 s Hwf i j t Hi Hj H) as (H1 & H2 & H3 & H4).
      rewrite Hpd. repeat split; auto.
      + intros Hin. apply (Hfree t Hin). right; right. exists i, j; auto.
      + intros [i' [Hi' H']]. rewrite frame_l1 in H' by assumption.
        apply H4. exists i'; auto.
    - intros i i' t Hi Hi' H H'. rewrite frame_l1 in H, H' by assumption.
      eapply (wf_inj1 s Hwf); eauto.
    - intros i j i' j' t Hi Hj Hi' Hj' H H'. rewrite frame_l0 in H, H' by assumption.
      eapply (wf_inj0 s Hwf); eauto.
  Qed.

Lemma frame_leaf i j k :
    (forall pg x, is_l0 s pg -> in_page pg x -> ram s' x = ram s x) ->
    idx i -> idx j -> idx k -> leaf s' i j k = leaf s i j k.
  Proof.
    intros Hram0 Hi Hj Hk. unfold leaf. rewrite frame_l0 by assumption.
    destruct (l0_at s i j) as [t|] eqn:E; [|reflexivity].
    apply rd_frame; [eapply wf_l0_page_ok; eauto|assumption|].
    intros x Hx. apply (Hram0 t); [exists i, j; auto|assumption].
  Qed.

Lemma frame_owned pg :
    (forall q, In q (freelist s') -> In q (freelist s)) ->
    owned_page s' pg -> owned_page s pg.
  Proof.
    intros Hsub [H|H].
    - left. apply frame_is_table. exact H.
    - right. auto.
  Qed.
End Frame.

(** *** (A) a fresh level-1 table linked into the root *)
Section LinkRoot.
Variables (s : vstate) (i0 p : Z) (rest : list Z).
Hypothesis Hwf : vmm_wf s.
Hypothesis Hi0 : idx i0.
Hypothesis Hnone : l1_at s i0 = None.
Hypothesis Hfree : freelist s = p :: rest.

Let s' := link s (kernel_pd s) i0 p rest.

Lemma lr_p : page_ok p /\ p <> 0 /\ p <> kernel_pd s /\ ~ In p rest /\ NoDup rest.
  Proof.
    pose proof (wf_nodup s Hwf) as Hnd. rewrite Hfree in Hnd.
    apply NoDup_cons_iff in Hnd. destruct Hnd as [Hn1 Hn2].
    destruct (wf_free s Hwf p) as (Ha & Hb & Hc); [rewrite Hfree; left; reflexivity|].
    auto.
  Qed.

Lemma lr_l1_same : l1_at s' i0 = Some p.
  Proof.
    destruct lr_p as (H1 & H2 & H3 & H4 & H5).
    unfold l1_at, s'. cbn [kernel_pd link].
    apply link_child_same; auto. apply Hwf.
  Qed.

Lemma lr_l1_other i : idx i -> i <> i0 -> l1_at s' i = l1_at s i.
  Proof.
    intros Hi Hne. destruct lr_p as (H1 & H2 & H3 & H4 & H5).
    unfold l1_at, s'. cbn [kernel_pd link].
    apply link_child_other; auto; try apply Hwf.
  Qed.

Lemma lr_l0_same j : idx j -> l0_at s' i0 j = None.
  Proof.
    intros Hj. destruct lr_p as (H1 & H2 & H3 & H4 & H5).
    unfold l0_at. rewrite lr_l1_same. unfold s'.
    apply link_child_new; auto. apply Hwf.
  Qed.

Lemma lr_t_other i t : idx i -> l1_at s i = Some t ->
    page_ok t /\ t <> kernel_pd s /\ t <> p.
  Proof.
    intros Hi H. destruct (wf_l1 s Hwf i t Hi H) as (H1 & H2 & H3).
    repeat split; auto; try (eapply wf_l1_page_ok; eauto).
    intros ->. apply H3. rewrite Hfree. left; reflexivity.
  Qed.

Lemma lr_l0_other i j : idx i -> idx j -> i <> i0 -> l0_at s' i j = l0_at s i j.
  Proof.
    intros Hi Hj Hne. destruct lr_p as (H1 & H2 & H3 & H4 & H5).
    unfold l0_at. rewrite lr_l1_other by assumption.
    destruct (l1_at s i) as [t|] eqn:E; [|reflexivity].
    destruct (lr_t_other i t Hi E) as (Ht1 & Ht2 & Ht3).
    unfold s'. apply link_child_other; auto. apply Hwf.
  Qed.

Lemma lr_leaf i j k : idx i -> idx j -> idx k -> leaf s' i j k = leaf s i j k.
  Proof.
    intros Hi Hj Hk. destruct lr_p as (H1 & H2 & H3 & H4 & H5). unfold leaf.
    destruct (Z.eq_dec i i0) as [->|Hne].
    - rewrite lr_l0_same by assumption. unfold l0_at. rewrite Hnone. reflexivity.
    - rewrite lr_l0_other by assumption.
      destruct (l0_at s i j) as [t|] eqn:E; [|reflexivity].
      destruct (wf_l0 s Hwf i j t Hi Hj E) as (Ht1 & Ht2 & Ht3 & Ht4).
      assert (Hpt : page_ok t) by (eapply wf_l0_page_ok; eauto).
      assert (Htp : t <> p) by (intros ->; apply Ht3; rewrite Hfree; left; reflexivity).
      unfold s'. apply link_rd_other; auto. apply Hwf.
  Qed.

Lemma lr_is_l1 t : is_l1 s' t -> is_l1 s t \/ t = p.
  Proof.
    intros [i [Hi H]]. destruct (Z.eq_dec i i0) as [->|Hne].
    - rewrite lr_l1_same in H. right. congruence.
    - rewrite lr_l1_other in H by assumption. left. exists i; auto.
  Qed.

Lemma lr_is_l0 t : is_l0 s' t -> is_l0 s t.
  Proof.
    intros [i [j (Hi & Hj & H)]]. destruct (Z.eq_dec i i0) as [->|Hne].
    - rewrite lr_l0_same in H by assumption. discriminate.
    - rewrite lr_l0_other in H by assumption. exists i, j; auto.
  Qed.

Lemma lr_wf : vmm_wf s'.
  Proof.
    destruct lr_p as (H1 & H2 & H3 & H4 & H5).
    assert (Hsub : forall q, In q rest -> In q (freelist s)).
    { intros q Hq. rewrite Hfree. right; assumption. }
    assert (Hk : kernel_pd s' = kernel_pd s) by reflexivity.
    assert (Hf : freelist s' = rest) by reflexivity.
    constructor; rewrite ?Hk, ?Hf.
    - apply Hwf.
    - exact H5.
    - intros q Hq. apply (wf_free s Hwf). auto.
    - intros i t Hi H. destruct (Z.eq_dec i i0) as [->|Hne].
      + rewrite lr_l1_same in H. injection H as <-. auto.
      + rewrite lr_l1_other in H by assumption.
        destruct (wf_l1 s Hwf i t Hi H) as (Ht1 & Ht2 & Ht3). repeat split; auto.
    - intros i j t Hi Hj H. destruct (Z.eq_dec i i0) as [->|Hne].
      + rewrite lr_l0_same in H by assumption. discriminate.
      + rewrite lr_l0_other in H by assumption.
        destruct (wf_l0 s Hwf i j t Hi Hj H) as (Ht1 & Ht2 & Ht3 & Ht4).
        repeat split; auto.
        intros Hl1. apply lr_is_l1 in Hl1. destruct Hl1 as [Hl1| ->]; auto.
        apply Ht3. rewrite Hfree. left; reflexivity.
    - intros i i' t Hi Hi' H H'.
      destruct (Z.eq_dec i i0) as [->|Hne], (Z.eq_dec i' i0) as [->|Hne']; auto.
      + rewrite lr_l1_same in H. rewrite lr_l1_other in H' by assumption.
        injection H as <-. destruct (lr_t_other i' p Hi' H') as (_ & _ & Hc). contradiction.
      + rewrite lr_l1_same in H'. rewrite lr_l1_other in H by assumption.
        injection H' as <-. destruct (lr_t_other i p Hi H) as (_ & _ & Hc). contradiction.
      + rewrite lr_l1_other in H, H' by assumption. eapply (wf_inj1 s Hwf); eauto.
    - intros i j i' j' t Hi Hj Hi' Hj' H H'.
      destruct (Z.eq_dec i i0) as [->|Hne].
      { rewrite lr_l0_same in H by assumption. discriminate. }
      destruct (Z.eq_dec i' i0) as [->|Hne'].
      { rewrite lr_l0_same in H' by assumption. discriminate. }
      rewrite lr_l0_other in H, H' by assumption. eapply (wf_inj0 s Hwf); eauto.
  Qed.

Lemma lr_owned pg : owned_page s' pg -> owned_page s pg.
  Proof.
    intros [[->|[H|H]]|H].
    - left; left; reflexivity.
    - apply lr_is_l1 in H. destruct H as [H| ->].
      + left; right; left; assumption.
      + right. rewrite Hfree. left; reflexivity.
    - apply lr_is_l0 in H. left; right; right; assumption.
    - right. rewrite Hfree. right. exact H.
  Qed.

Lemma lr_ram x : ram s' x <> ram s x -> in_page (kernel_pd s) x \/ in_page p x.
  Proof.
    intros Hx. destruct lr_p as (H1 & H2 & H3 & H4 & H5).
    pose proof (slot_in_page _ _ (wf_root s Hwf) Hi0) as Hs.
    destruct (in_page_dec (kernel_pd s) x) as [|Hn1]; [left; assumption|].
    destruct (in_page_dec p x) as [|Hn2]; [right; assumption|].
    exfalso. apply Hx. unfold s', link. cbn [ram].
    rewrite store64_other by (unfold in_page, PAGE_SIZE in Hn1; lia).
    apply page_zero_out; auto.
  Qed.
End LinkRoot.

(** *** (B) a fresh level-0 table linked into a level-1 table *)
Section LinkL1.
Variables (s : vstate) (i0 j0 t1 p : Z) (rest : list Z).
Hypothesis Hwf : vmm_wf s.
Hypothesis Hi0 : idx i0.
Hypothesis Hj0 : idx j0.
Hypothesis Ht1 : l1_at s i0 = Some t1.
Hypothesis Hnone : child s t1 j0 = None.
Hypothesis Hfree : freelist s = p :: rest.

Let s' := link s t1 j0 p rest.

Lemma ll_p : page_ok p /\ p <> 0 /\ p <> kernel_pd s /\ ~ In p rest /\ NoDup rest.
  Proof. exact (lr_p s p rest Hwf Hfree). Qed.

Lemma ll_t1 : page_ok t1 /\ t1 <> kernel_pd s /\ t1 <> p.
  Proof. exact (lr_t_other s p rest Hwf Hfree i0 t1 Hi0 Ht1). Qed.

Lemma ll_l1 i : idx i -> l1_at s' i = l1_at s i.
  Proof.
    intros Hi. destruct ll_p as (H1 & H2 & H3 & H4 & H5).
    destruct ll_t1 as (T1 & T2 & T3).
    unfold l1_at, s'. cbn [kernel_pd link].
    apply link_child_other; auto. apply Hwf.
  Qed.

Lemma ll_l0_same : l0_at s' i0 j0 = Some p.
  Proof.
    destruct ll_p as (H1 & H2 & H3 & H4 & H5).
    destruct ll_t1 as (T1 & T2 & T3).
    unfold l0_at. rewrite ll_l1, Ht1 by assumption.
    unfold s'. apply link_child_same; auto.
  Qed.

Lemma ll_l0_other i j :
    idx i -> idx j -> (i <> i0 \/ j <> j0) -> l0_at s' i j = l0_at s i j.
  Proof.
    intros Hi Hj Hne. destruct ll_p as (H1 & H2 & H3 & H4 & H5).
    destruct ll_t1 as (T1 & T2 & T3).
    unfold l0_at. rewrite ll_l1 by assumption.
    destruct (l1_at s i) as [t|] eqn:E; [|reflexivity].
    destruct (lr_t_other s p rest Hwf Hfree i t Hi E) as (U1 & U2 & U3).
    unfold s'. apply link_child_other; auto.
    destruct (Z.eq_dec t t1) as [->|Hd]; [|left; assumption].
    right. destruct Hne as [Hne|Hne]; [|assumption].
    exfalso. apply Hne. eapply (wf_inj1 s Hwf); eauto.
  Qed.

Lemma ll_leaf i j k : idx i -> idx j -> idx k -> leaf s' i j k = leaf s i j k.
  Proof.
    intros Hi Hj Hk. destruct ll_p as (H1 & H2 & H3 & H4 & H5).
    destruct ll_t1 as (T1 & T2 & T3). unfold leaf.
    destruct (Z.eq_dec i i0) as [->|Hne]; [destruct (Z.eq_dec j j0) as [->|Hne]|].
    - rewrite ll_l0_same. unfold l0_at. rewrite Ht1, Hnone.
      unfold s'. apply link_rd_new; auto.
    - rewrite ll_l0_other by auto.
      destruct (l0_at s i0 j) as [t|] eqn:E; [|reflexivity].
      destruct (wf_l0 s Hwf i0 j t Hi Hj E) as (U1 & U2 & U3 & U4).
      assert (Hpt : page_ok t) by (eapply wf_l0_page_ok; eauto).
      assert (Htp : t <> p) by (intros ->; apply U3; rewrite Hfree; left; reflexivity).
      assert (Htt : t <> t1) by (intros ->; apply U4; exists i0; auto).
      unfold s'. apply link_rd_other; auto.
    - rewrite ll_l0_other by auto.
      destruct (l0_at s i j) as [t|] eqn:E; [|reflexivity].
      destruct (wf_l0 s Hwf i j t Hi Hj E) as (U1 & U2 & U3 & U4).
      assert (Hpt : page_ok t) by (eapply wf_l0_page_ok; eauto).
      assert (Htp : t <> p) by (intros ->; apply U3; rewrite Hfree; left; reflexivity).
      assert (Htt : t <> t1) by (intros ->; apply U4; exists i0; auto).
      unfold s'. apply link_rd_other; auto.
  Qed.

Lemma ll_is_l1 t : is_l1 s' t <-> is_l1 s t.
  Proof.
    split; intros [i [Hi H]]; exists i; split; auto.
    - rewrite <- ll_l1; auto.
    - rewrite ll_l1; auto.
  Qed.

Lemma ll_is_l0 t : is_l0 s' t -> is_l0 s t \/ t = p.
  Proof.
    intros [i [j (Hi & Hj & H)]].
    destruct (Z.eq_dec i i0) as [->|Hne]; [destruct (Z.eq_dec j j0) as [->|Hne]|].
    - rewrite ll_l0_same in H. right. congruence.
    - rewrite ll_l0_other in H by auto. left. exists i0, j; auto.
    - rewrite ll_l0_other in H by auto. left. exists i, j; auto.
  Qed.

Lemma ll_l0_fresh i j : idx i -> idx j -> l0_at s i j <> Some p.
  Proof.
    intros Hi Hj H. destruct (wf_l0 s Hwf i j p Hi Hj H) as (_ & _ & U3 & _).
    apply U3. rewrite Hfree. left; reflexivity.
  Qed.

Lemma ll_wf : vmm_wf s'.
  Proof.
    destruct ll_p as (H1 & H2 & H3 & H4 & H5).
    destruct ll_t1 as (T1 & T2 & T3).
    assert (Hsub : forall q, In q rest -> In q (freelist s)).
    { intros q Hq. rewrite Hfree. right; assumption. }
    assert (Hk : kernel_pd s' = kernel_pd s) by reflexivity.
    assert (Hf : freelist s' = rest) by reflexivity.
    constructor; rewrite ?Hk, ?Hf.
    - apply Hwf.
    - exact H5.
    - intros q Hq. apply (wf_free s Hwf). auto.
    - intros i t Hi H. rewrite ll_l1 in H by assumption.
      destruct (wf_l1 s Hwf i t Hi H) as (U1 & U2 & U3). repeat split; auto.
    - intros i j t Hi Hj H.
      assert (Hcase : (i = i0 /\ j = j0) \/ (i <> i0 \/ j <> j0)) by lia.
      destruct Hcase as [[-> ->]|Hne].
      + rewrite ll_l0_same in H. injection H as <-. repeat split; auto.
        rewrite ll_is_l1. intros [i' [Hi' H']].
        destruct (lr_t_other s p rest Hwf Hfree i' p Hi' H') as (_ & _ & Hc). contradiction.
      + rewrite ll_l0_other in H by auto.
        destruct (wf_l0 s Hwf i j t Hi Hj H) as (U1 & U2 & U3 & U4).
        repeat split; auto. rewrite ll_is_l1. exact U4.
    - intros i i' t Hi Hi' H H'. rewrite ll_l1 in H, H' by assumption.
      eapply (wf_inj1 s Hwf); eauto.
    - intros i j i' j' t Hi Hj Hi' Hj' H H'.
      assert (Hcase : (i = i0 /\ j = j0) \/ (i <> i0 \/ j <> j0)) by lia.
      assert (Hcase' : (i' = i0 /\ j' = j0) \/ (i' <> i0 \/ j' <> j0)) by lia.
      destruct Hcase as [[-> ->]|Hne], Hcase' as [[-> ->]|Hne']; auto.
      + rewrite ll_l0_same in H. rewrite ll_l0_other in H' by auto.
        injection H as <-. exfalso. exact (ll_l0_fresh i' j' Hi' Hj' H').
      + rewrite ll_l0_same in H'. rewrite ll_l0_other in H by auto.
        injection H' as <-. exfalso. exact (ll_l0_fresh i j Hi Hj H).
      + rewrite ll_l0_other in H, H' by auto. eapply (wf_inj0 s Hwf); eauto.
  Qed.

Lemma ll_owned pg : owned_page s' pg -> owned_page s pg.
  Proof.
    intros [[->|[H|H]]|H].
    - left; left; reflexivity.
    - apply ll_is_l1 in H. left; right; left; assumption.
    - apply ll_is_l0 in H. destruct H as [H| ->].
      + left; right; right; assumption.
      + right. rewrite Hfree. left; reflexivity.
    - right. rewrite Hfree. right. exact H.
  Qed.

Lemma ll_ram x : ram s' x <> ram s x -> in_page t1 x \/ in_page p x.
  Proof.
    intros Hx. destruct ll_p as (H1 & H2 & H3 & H4 & H5).
    destruct ll_t1 as (T1 & T2 & T3).
    pose proof (slot_in_page _ _ T1 Hj0) as Hs.
    destruct (in_page_dec t1 x) as [|Hn1]; [left; assumption|].
    destruct (in_page_dec p x) as [|Hn2]; [right; assumption|].
    exfalso. apply Hx. unfold s', link. cbn [ram].
    rewrite store64_other by (unfold in_page, PAGE_SIZE in Hn1; lia).
    apply page_zero_out; auto.
  Qed.
End LinkL1.

(** *** (C) a store into a level-0 table *)
Section LeafStore.
Variables (s : vstate) (i0 j0 k0 t0 v : Z).
Hypothesis Hwf : vmm_wf s.
Hypothesis Hi0 : idx i0.
Hypothesis Hj0 : idx j0.
Hypothesis Hk0 : idx k0.
Hypothesis Ht0 : l0_at s i0 j0 = Some t0.
Hypothesis Hv : 0 <= v < two64.

Let s' := set_ram (store64 (ram s) (pte_addr t0 k0) v) s.

Lemma ls_t0 : page_ok t0 /\ t0 <> kernel_pd s /\ ~ is_l1 s t0.
  Proof.
    destruct (wf_l0 s Hwf i0 j0 t0 Hi0 Hj0 Ht0) as (U1 & U2 & U3 & U4).
    repeat split; auto; eapply wf_l0_page_ok; eauto.
  Qed.

Lemma ls_upper pg x :
    pg = kernel_pd s \/ is_l1 s pg -> in_page pg x -> ram s' x = ram s x.
  Proof.
    intros Hpg Hx. destruct ls_t0 as (T1 & T2 & T3).
    assert (Hok : page_ok pg).
    { apply (is_table_page_ok s); auto. destruct Hpg; [left|right; left]; auto. }
    assert (Hne : pg <> t0) by (intros ->; destruct Hpg; auto).
    pose proof (slot_in_page _ _ T1 Hk0).
    pose proof (pages_disjoint _ _ Hok T1 Hne).
    unfold s'. cbn [ram set_ram]. apply store64_other.
    unfold in_page, PAGE_SIZE in Hx. lia.
  Qed.

Lemma ls_l1 i : idx i -> l1_at s' i = l1_at s i.
  Proof. intros. apply frame_l1; auto. apply ls_upper. Qed.

Lemma ls_l0 i j : idx i -> idx j -> l0_at s' i j = l0_at s i j.
  Proof. intros. apply frame_l0; auto. apply ls_upper. Qed.

Lemma ls_leaf_same : leaf s' i0 j0 k0 = v.
  Proof.
    unfold leaf. rewrite ls_l0, Ht0 by assumption.
    unfold rd, s'. cbn [ram set_ram]. rewrite load64_store64_same.
    apply u64_small. exact Hv.
  Qed.

Lemma ls_leaf_other i j k :
    idx i -> idx j -> idx k -> (i <> i0 \/ j <> j0 \/ k <> k0) ->
    leaf s' i j k = leaf s i j k.
  Proof.
    intros Hi Hj Hk Hne. destruct ls_t0 as (T1 & T2 & T3).
    unfold leaf. rewrite ls_l0 by assumption.
    destruct (l0_at s i j) as [t|] eqn:E; [|reflexivity].
    assert (Hpt : page_ok t) by (eapply wf_l0_page_ok; eauto).
    unfold rd, s'. cbn [ram set_ram]. apply load64_store64_other.
    apply slots_disjoint; auto.
    destruct (Z.eq_dec t t0) as [->|Hd]; [|left; assumption].
    right. destruct (wf_inj0 s Hwf i j i0 j0 t0 Hi Hj Hi0 Hj0 E Ht0) as [-> ->].
    destruct Hne as [Hne|[Hne|Hne]]; congruence.
  Qed.

Lemma ls_wf : vmm_wf s'.
  Proof.
    apply (frame_wf s s'); auto.
    - apply ls_upper.
    - apply Hwf.
    - intros q Hq. destruct (wf_free s Hwf q Hq) as (U1 & U2 & U3).
      repeat split; try apply U1; auto.
      intros [->|[[i [Hi H]]|[i [j (Hi & Hj & H)]]]]; auto.
      + destruct (wf_l1 s Hwf i q Hi H) as (_ & _ & Hc). contradiction.
      + destruct (wf_l0 s Hwf i j q Hi Hj H) as (_ & _ & Hc & _). contradiction.
  Qed.

Lemma ls_is_table pg : is_table s' pg <-> is_table s pg.
  Proof. apply frame_is_table; auto. apply ls_upper. Qed.

Lemma ls_ram x : ram s' x <> ram s x -> pte_addr t0 k0 <= x < pte_addr t0 k0 + 8.
  Proof.
    intros Hx.
    destruct (Z_lt_ge_dec x (pte_addr t0 k0)) as [Hl|Hg];
      [|destruct (Z_lt_ge_dec x (pte_addr t0 k0 + 8)) as [Hl'|Hg']]; try lia.
    - exfalso. apply Hx. unfold s'. cbn [ram set_ram]. apply store64_other. lia.
    - exfalso. apply Hx. unfold s'. cbn [ram set_ram]. apply store64_other. lia.
  Qed.
End LeafStore.

(** ** Specification of the walk with allocation *)

Lemma vmm_ext_refl s : vmm_wf s -> vmm_ext s s.
Proof.
  intros Hwf. constructor; auto.
Qed.

Lemma vmm_ext_trans s s1 s2 : vmm_ext s s1 -> vmm_ext s1 s2 -> vmm_ext s s2.
Proof.
  intros H1 H2. constructor.
  - apply H2.
  - rewrite (ext_pd _ _ H2). apply H1.
  - intros pg Hpg. apply (ext_owned _ _ H1). apply (ext_owned _ _ H2). exact Hpg.
  - intros x Hx. rewrite (ext_ram _ _ H2), (ext_ram _ _ H1); auto.
    intros pg Hpg. apply Hx. apply (ext_owned _ _ H1). exact Hpg.
  - intros q Hq. apply (ext_free _ _ H1). apply (ext_free _ _ H2). exact Hq.
Qed.

Lemma leaf_same_trans s s1 s2 : leaf_same s s1 -> leaf_same s1 s2 -> leaf_same s s2.
Proof. intros H1 H2 i j k Hi Hj Hk. rewrite H2, H1; auto. Qed.

Lemma leaf_same_refl s : leaf_same s s.
Proof. intros i j k _ _ _. reflexivity. Qed.

Lemma leaf_upd_after_same s s1 s2 va v :
  leaf_same s s1 -> leaf_upd s1 s2 va v -> leaf_upd s s2 va v.
Proof.
  intros H1 H2 i j k Hi Hj Hk. rewrite H2 by assumption.
  destruct ((i =? SV39_VPN2 va) && (j =? SV39_VPN1 va) && (k =? SV39_VPN0 va)); auto.
Qed.

(** Level 2 -> level 1, allocating on demand. *)
Lemma gnl_root_spec s i t s1 :
  vmm_wf s -> idx i ->
  get_next_level (kernel_pd s) i true s = (t, s1) ->
  vmm_ext s s1 /\ leaf_same s s1 /\ (t <> 0 -> l1_at s1 i = Some t).
Proof.
  intros Hwf Hi Hg.
  destruct (l1_at s i) as [t1|] eqn:E.
  - unfold l1_at in E. rewrite (gnl_present _ _ _ _ _ E) in Hg.
    injection Hg as <- <-. split; [apply vmm_ext_refl; assumption|].
    split; [apply leaf_same_refl|]. intros _. exact E.
  - destruct (freelist s) as [|p rest] eqn:F.
    + unfold l1_at in E. rewrite (gnl_alloc_nil _ _ _ E F) in Hg.
      injection Hg as <- <-. split; [apply vmm_ext_refl; assumption|].
      split; [apply leaf_same_refl|]. intros H. exfalso. apply H. reflexivity.
    + destruct (lr_p s p rest Hwf F) as (H1 & H2 & H3 & H4 & H5).
      pose proof E as E'. unfold l1_at in E'.
      rewrite (gnl_alloc_cons _ _ _ _ _ E' F H2) in Hg. injection Hg as <- <-.
      split; [|split].
      * constructor.
        -- apply lr_wf; auto.
        -- reflexivity.
        -- apply lr_owned; auto.
        -- intros x Hx.
           destruct (Z.eq_dec (ram (link s (kernel_pd s) i p rest) x) (ram s x)) as [|Hne];
             [assumption|].
           exfalso. destruct (lr_ram s i p rest Hwf Hi F x Hne) as [Hin|Hin].
           ++ apply (Hx (kernel_pd s)); [left; left; reflexivity|assumption].
           ++ apply (Hx p); [right; rewrite F; left; reflexivity|assumption].
        -- intros q Hq. cbn [freelist link] in Hq. rewrite F. right. exact Hq.
      * intros a b c Ha Hb Hc. apply lr_leaf; auto.
      * intros _. apply lr_l1_same; auto.
Qed.

(** Level 1 -> level 0, allocating on demand. *)
Lemma gnl_l1_spec s i j t1 t s1 :
  vmm_wf s -> idx i -> idx j -> l1_at s i = Some t1 ->
  get_next_level t1 j true s = (t, s1) ->
  vmm_ext s s1 /\ leaf_same s s1 /\ (t <> 0 -> l0_at s1 i j = Some t).
Proof.
  intros Hwf Hi Hj Ht1 Hg.
  destruct (child s t1 j) as [t0|] eqn:E.
  - rewrite (gnl_present _ _ _ _ _ E) in Hg.
    injection Hg as <- <-. split; [apply vmm_ext_refl; assumption|].
    split; [apply leaf_same_refl|]. intros _. unfold l0_at. rewrite Ht1. exact E.
  - destruct (freelist s) as [|p rest] eqn:F.
    + rewrite (gnl_alloc_nil _ _ _ E F) in Hg.
      injection Hg as <- <-. split; [apply vmm_ext_refl; assumption|].
      split; [apply leaf_same_refl|]. intros H. exfalso. apply H. reflexivity.
    + destruct (lr_p s p rest Hwf F) as (H1 & H2 & H3 & H4 & H5).
      rewrite (gnl_alloc_cons _ _ _ _ _ E F H2) in Hg. injection Hg as <- <-.
      split; [|split].
      * constructor.
        -- apply (ll_wf s i j t1 p rest); auto.
        -- reflexivity.
        -- apply (ll_owned s i j t1 p rest); auto.
        -- intros x Hx.
           destruct (Z.eq_dec (ram (link s t1 j p rest) x) (ram s x)) as [|Hne];
             [assumption|].
           exfalso. destruct (ll_ram s i j t1 p rest Hwf Hi Hj Ht1 F x Hne) as [Hin|Hin].
           ++ apply (Hx t1); [left; right; left; exists i; auto|assumption].
           ++ apply (Hx p); [right; rewrite F; left; reflexivity|assumption].
        -- intros q Hq. cbn [freelist link] in Hq. rewrite F. right. exact Hq.
      * intros a b c Ha Hb Hc. apply (ll_leaf s i j t1 p rest); auto.
      * intros _. apply (ll_l0_same s i j t1 p rest); auto.
Qed.

(** The leaf store. *)
Lemma leaf_store_spec s i j k t0 v :
  vmm_wf s -> idx i -> idx j -> idx k -> l0_at s i j = Some t0 -> 0 <= v < two64 ->
  let s1 := set_ram (store64 (ram s) (pte_addr t0 k) v) s in
  vmm_ext s s1 /\
  leaf s1 i j k = v /\
  (forall a b c, idx a -> idx b -> idx c -> (a <> i \/ b <> j \/ c <> k) ->
                 leaf s1 a b c = leaf s a b c).
Proof.
  intros Hwf Hi Hj Hk Ht0 Hv s1. split; [|split].
  - constructor.
    + apply (ls_wf s i j k t0 v); auto.
    + reflexivity.
    + intros pg [H|H]; [left|right; exact H].
      apply (ls_is_table s i j k t0 v) in H; auto.
    + intros x Hx.
      destruct (Z.eq_dec (ram s1 x) (ram s x)) as [|Hne]; [assumption|].
      exfalso. apply ls_ram in Hne.
      destruct (ls_t0 s i j t0 Hwf Hi Hj Ht0) as (T1 & T2 & T3).
      pose proof (slot_in_page _ _ T1 Hk).
      apply (Hx t0); [left; right; right; exists i, j; auto|].
      unfold in_page, PAGE_SIZE. lia.
    + intros q Hq. exact Hq.
  - apply (ls_leaf_same s i j k t0 v); auto.
  - intros a b c Ha Hb Hc Hne. apply (ls_leaf_other s i j k t0 v); auto.
Qed.

(** ** Specifications of [vmm_translate], [vmm_map], [vmm_unmap], [vmm_map_page] *)

Lemma idx_vpn2 va : idx (SV39_VPN2 va).
Proof. apply SV39_VPN2_range. Qed.
Lemma idx_vpn1 va : idx (SV39_VPN1 va).
Proof. apply SV39_VPN1_range. Qed.
Lemma idx_vpn0 va : idx (SV39_VPN0 va).
Proof. apply SV39_VPN0_range. Qed.

#[local] Hint Resolve idx_vpn2 idx_vpn1 idx_vpn0 : core.

Lemma nonzero_eq_true x : x <> 0 -> nonzero x = true.
Proof. apply nonzero_true. Qed.

(** The walk of [vmm_translate] reads the leaf view. *)
Lemma vmm_translate_spec s va :
  vmm_wf s -> kernel_pd s <> 0 ->
  vmm_translate va s =
  let pte := leaf s (SV39_VPN2 va) (SV39_VPN1 va) (SV39_VPN0 va) in
  if present pte then Z.lor (pte_to_phys pte) (SV39_PAGE_OFFSET va) else NULL.
Proof.
  intros Hwf Hpd. unfold vmm_translate. cbv zeta.
  rewrite (nonzero_eq_true _ Hpd). cbn [negb].
  rewrite gnl_lookup. unfold leaf, l0_at.
  fold (l1_at s (SV39_VPN2 va)).
  destruct (l1_at s (SV39_VPN2 va)) as [t1|] eqn:E1; [|reflexivity].
  destruct (wf_l1 s Hwf _ _ (idx_vpn2 va) E1) as (U1 & _).
  rewrite (nonzero_eq_true _ U1). cbn [negb].
  rewrite gnl_lookup.
  destruct (child s t1 (SV39_VPN1 va)) as [t0|] eqn:E0; [|reflexivity].
  assert (El0 : l0_at s (SV39_VPN2 va) (SV39_VPN1 va) = Some t0).
  { unfold l0_at. rewrite E1. exact E0. }
  destruct (wf_l0 s Hwf _ _ _ (idx_vpn2 va) (idx_vpn1 va) El0) as (V1 & _).
  rewrite (nonzero_eq_true _ V1). cbn [negb].
  unfold present, rd.
  destruct (nonzero (Z.land (load64 (ram s) (pte_addr t0 (SV39_VPN0 va))) PTE_V));
    reflexivity.
Qed.

Lemma leaf_store_upd s va t0 v :
  vmm_wf s -> l0_at s (SV39_VPN2 va) (SV39_VPN1 va) = Some t0 -> 0 <= v < two64 ->
  let s1 := set_ram (store64 (ram s) (pte_addr t0 (SV39_VPN0 va)) v) s in
  vmm_ext s s1 /\ leaf_upd s s1 va v.
Proof.
  intros Hwf Ht0 Hv s1.
  destruct (leaf_store_spec s _ _ (SV39_VPN0 va) t0 v Hwf (idx_vpn2 va) (idx_vpn1 va)
              (idx_vpn0 va) Ht0 Hv) as (He & Hs & Ho).
  split; [exact He|].
  intros i j k Hi Hj Hk.
  destruct (Z.eqb_spec i (SV39_VPN2 va)) as [->|Hn2]; cbn [andb].
  - destruct (Z.eqb_spec j (SV39_VPN1 va)) as [->|Hn1]; cbn [andb].
    + destruct (Z.eqb_spec k (SV39_VPN0 va)) as [->|Hn0].
      * exact Hs.
      * apply Ho; auto.
    + apply Ho; auto.
  - apply Ho; auto.
Qed.

Lemma vmm_map_spec s va pa f r s1 :
  vmm_wf s -> kernel_pd s <> 0 -> 0 <= pa < two64 ->
  vmm_map va pa f s = (r, s1) ->
  vmm_ext s s1 /\
  ((r = 0 /\ va mod 4096 = 0 /\ pa mod 4096 = 0 /\
    leaf_upd s s1 va (make_pte pa (vmm_flags_to_pte_flags (Z.lor f VMM_P_PRESENT))))
   \/ (r = -1 /\ leaf_same s s1)).
Proof.
  intros Hwf Hpd Hpa Hm. unfold vmm_map in Hm. cbv zeta in Hm.
  rewrite (nonzero_eq_true _ Hpd) in Hm. cbn [negb] in Hm.
  change (VMM_PAGE_SIZE - 1) with 4095 in Hm. rewrite !land_4095 in Hm.
  destruct (nonzero (va mod 4096)) eqn:Eva; cbn [orb] in Hm.
  { injection Hm as <- <-. split; [apply vmm_ext_refl; auto|].
    right. split; [reflexivity|apply leaf_same_refl]. }
  destruct (nonzero (pa mod 4096)) eqn:Epa.
  { injection Hm as <- <-. split; [apply vmm_ext_refl; auto|].
    right. split; [reflexivity|apply leaf_same_refl]. }
  apply nonzero_false in Eva, Epa.
  destruct (get_next_level (kernel_pd s) (SV39_VPN2 va) true s) as [l1 sa] eqn:G1.
  destruct (gnl_root_spec s _ _ _ Hwf (idx_vpn2 va) G1) as (X1 & S1 & L1).
  destruct (Z.eq_dec l1 0) as [->|Hl1].
  { cbn in Hm. injection Hm as <- <-. split; [exact X1|]. right. split; auto. }
  rewrite (nonzero_eq_true _ Hl1) in Hm. cbn [negb] in Hm.
  specialize (L1 Hl1).
  destruct (get_next_level l1 (SV39_VPN1 va) true sa) as [l0 sb] eqn:G0.
  destruct (gnl_l1_spec sa _ _ _ _ _ (ext_wf _ _ X1) (idx_vpn2 va) (idx_vpn1 va) L1 G0)
    as (X0 & S0 & L0).
  destruct (Z.eq_dec l0 0) as [->|Hl0].
  { cbn in Hm. injection Hm as <- <-.
    split; [eapply vmm_ext_trans; eauto|]. right. split; [reflexivity|].
    eapply leaf_same_trans; eauto. }
  rewrite (nonzero_eq_true _ Hl0) in Hm. cbn [negb] in Hm.
  specialize (L0 Hl0). injection Hm as <- <-.
  destruct (leaf_store_upd sb va l0
              (make_pte pa (vmm_flags_to_pte_flags (Z.lor f VMM_P_PRESENT)))
              (ext_wf _ _ X0) L0 (make_pte_range _ _ Hpa)) as (X & U).
  split.
  - eapply vmm_ext_trans; [|exact X]. eapply vmm_ext_trans; eauto.
  - left. repeat split; auto.
    eapply leaf_upd_after_same; [|exact U]. eapply leaf_same_trans; eauto.
Qed.

(** When both intermediate levels exist, [vmm_map] is exactly the leaf store. *)
Lemma vmm_map_present s va pa f t0 :
  vmm_wf s -> kernel_pd s <> 0 ->
  va mod 4096 = 0 -> pa mod 4096 = 0 ->
  l0_at s (SV39_VPN2 va) (SV39_VPN1 va) = Some t0 ->
  vmm_map va pa f s =
  (0, set_ram (store64 (ram s) (pte_addr t0 (SV39_VPN0 va))
                       (make_pte pa (vmm_flags_to_pte_flags (Z.lor f VMM_P_PRESENT)))) s).
Proof.
  intros Hwf Hpd Hva Hpa Ht0. unfold vmm_map. cbv zeta.
  rewrite (nonzero_eq_true _ Hpd). cbn [negb].
  change (VMM_PAGE_SIZE - 1) with 4095. rewrite !land_4095, Hva, Hpa. cbn [nonzero Z.eqb negb orb].
  destruct (l0_at_some _ _ _ _ Ht0) as (t1 & E1 & E0).
  unfold l1_at in E1. rewrite (gnl_present _ _ _ _ _ E1).
  destruct (wf_l1 s Hwf _ _ (idx_vpn2 va) E1) as (U1 & _).
  rewrite (nonzero_eq_true _ U1). cbn [negb].
  rewrite (gnl_present _ _ _ _ _ E0).
  destruct (wf_l0 s Hwf _ _ _ (idx_vpn2 va) (idx_vpn1 va) Ht0) as (V1 & _).
  rewrite (nonzero_eq_true _ V1). reflexivity.
Qed.

Lemma vmm_unmap_eq s va fr :
  vmm_wf s ->
  vmm_unmap va fr s =
  if negb (nonzero (kernel_pd s)) then (-1, s)
  else if nonzero (va mod 4096) then (-1, s)
  else match l0_at s (SV39_VPN2 va) (SV39_VPN1 va) with
       | None => (-1, s)
       | Some t0 =>
           let pte := rd s t0 (SV39_VPN0 va) in
           if present pte then
             let s3 := set_ram (store64 (ram s) (pte_addr t0 (SV39_VPN0 va)) 0) s in
             (0, if nonzero fr then kfree (pte_to_phys pte) s3 else s3)
           else (-1, s)
       end.
Proof.
  intros Hwf. unfold vmm_unmap. cbv zeta.
  destruct (nonzero (kernel_pd s)) eqn:Epd; cbn [negb]; [|reflexivity].
  change (VMM_PAGE_SIZE - 1) with 4095. rewrite land_4095.
  destruct (nonzero (va mod 4096)); [reflexivity|].
  rewrite gnl_lookup. unfold l0_at. fold (l1_at s (SV39_VPN2 va)).
  destruct (l1_at s (SV39_VPN2 va)) as [t1|] eqn:E1; [|reflexivity].
  destruct (wf_l1 s Hwf _ _ (idx_vpn2 va) E1) as (U1 & _).
  rewrite (nonzero_eq_true _ U1). cbn [negb].
  rewrite gnl_lookup.
  destruct (child s t1 (SV39_VPN1 va)) as [t0|] eqn:E0; [|reflexivity].
  assert (El0 : l0_at s (SV39_VPN2 va) (SV39_VPN1 va) = Some t0).
  { unfold l0_at. rewrite E1. exact E0. }
  destruct (wf_l0 s Hwf _ _ _ (idx_vpn2 va) (idx_vpn1 va) El0) as (V1 & _).
  rewrite (nonzero_eq_true _ V1). cbn [negb].
  unfold present, rd.
  destruct (nonzero (Z.land (load64 (ram s) (pte_addr t0 (SV39_VPN0 va))) PTE_V));
    reflexivity.
Qed.

(** The walk does not look at the free list. *)
Lemma vmm_translate_freelist va l s :
  vmm_translate va (set_freelist l s) = vmm_translate va s.
Proof.
  unfold vmm_translate. cbv zeta. rewrite !gnl_lookup.
  unfold child, rd. cbn [ram kernel_pd set_freelist]. reflexivity.
Qed.

Lemma not_owned_not_table s pg : ~ owned_page s pg -> ~ is_table s pg.
Proof. intros H Ht. apply H. left. exact Ht. Qed.

Lemma wf_free_not_table s q : vmm_wf s -> In q (freelist s) -> ~ is_table s q.
Proof.
  intros Hwf Hq [->|[[i [Hi H]]|[i [j (Hi & Hj & H)]]]].
  - destruct (wf_free s Hwf _ Hq) as (_ & _ & Hc). apply Hc. reflexivity.
  - destruct (wf_l1 s Hwf i q Hi H) as (_ & _ & Hc). contradiction.
  - destruct (wf_l0 s Hwf i j q Hi Hj H) as (_ & _ & Hc & _). contradiction.
Qed.

(** Returning a page the subsystem does not own keeps it well formed. *)
Lemma kfree_spec s p :
  vmm_wf s -> page_ok p -> p <> 0 -> ~ owned_page s p ->
  vmm_wf (kfree p s) /\ leaf_same s (kfree p s) /\
  (forall pg, is_table (kfree p s) pg <-> is_table s pg).
Proof.
  intros Hwf Hp Hp0 Hno.
  assert (Hram : forall pg x, pg = kernel_pd s \/ is_l1 s pg -> in_page pg x ->
                              ram (kfree p s) x = ram s x) by reflexivity.
  split; [|split].
  - apply (frame_wf s); auto.
    + cbn [kfree freelist set_freelist]. constructor.
      * intros Hin. apply Hno. right. exact Hin.
      * apply Hwf.
    + intros q [<-|Hq].
      * repeat split; try apply Hp; auto. apply not_owned_not_table. exact Hno.
      * destruct (wf_free s Hwf q Hq) as (U1 & U2 & U3).
        repeat split; try apply U1; auto. apply wf_free_not_table; auto.
  - intros i j k Hi Hj Hk. apply frame_leaf; auto.
  - intros pg. apply (frame_is_table s); auto.
Qed.

(** Taking the head of the free list and zeroing it ([kalloc]; [page_zero]). *)
Lemma pop_zero_spec s p rest :
  vmm_wf s -> freelist s = p :: rest ->
  let s1 := set_ram (page_zero p (ram (set_freelist rest s))) (set_freelist rest s) in
  vmm_ext s s1 /\ leaf_same s s1 /\ ~ owned_page s1 p.
Proof.
  intros Hwf F s1.
  destruct (lr_p s p rest Hwf F) as (H1 & H2 & H3 & H4 & H5).
  assert (Hnt : ~ is_table s p).
  { apply wf_free_not_table; auto. rewrite F. left; reflexivity. }
  assert (Hram : forall pg x, is_table s pg -> in_page pg x -> ram s1 x = ram s x).
  { intros pg x Hpg Hx. unfold s1. cbn [ram set_ram set_freelist].
    apply page_zero_out; auto.
    apply (in_page_disjoint pg); auto.
    - eapply is_table_page_ok; eauto.
    - intros ->. contradiction. }
  assert (Hup : forall pg x, pg = kernel_pd s \/ is_l1 s pg -> in_page pg x ->
                             ram s1 x = ram s x).
  { intros pg x Hpg. apply Hram. destruct Hpg; [left|right; left]; auto. }
  assert (Hsub : forall q, In q (freelist s1) -> In q (freelist s)).
  { intros q Hq. rewrite F. right. exact Hq. }
  assert (Hwf1 : vmm_wf s1).
  { apply (frame_wf s); auto.
    intros q Hq. destruct (wf_free s Hwf q (Hsub q Hq)) as (U1 & U2 & U3).
    repeat split; try apply U1; auto. apply wf_free_not_table; auto. }
  split; [|split].
  - constructor; auto.
    + intros pg Hpg. apply (frame_owned s s1); auto.
    + intros x Hx. unfold s1. cbn [ram set_ram set_freelist].
      apply page_zero_out; auto. apply Hx. right. rewrite F. left; reflexivity.
  - intros i j k Hi Hj Hk. apply frame_leaf; auto.
    intros pg x Hpg. apply Hram. right; right; exact Hpg.
  - intros [Ht|Hin].
    + apply Hnt. apply (frame_is_table s s1); auto.
    + exact (H4 Hin).
Qed.

Lemma vmm_map_page_spec s va f r s1 :
  vmm_wf s -> kernel_pd s <> 0 ->
  vmm_map_page va f s = (r, s1) ->
  vmm_ext s s1 /\
  ((r = 0 /\ va mod 4096 = 0 /\
    exists p, In p (freelist s) /\ ~ owned_page s1 p /\ page_ok p /\ p <> 0 /\
      leaf_upd s s1 va (make_pte p (vmm_flags_to_pte_flags (Z.lor f VMM_P_PRESENT))))
   \/ (r = -1 /\ leaf_same s s1)).
Proof.
  intros Hwf Hpd Hm. unfold vmm_map_page, kalloc in Hm.
  destruct (freelist s) as [|p rest] eqn:F.
  { cbn in Hm. injection Hm as <- <-. split; [apply vmm_ext_refl; auto|].
    right. split; [reflexivity|apply leaf_same_refl]. }
  destruct (lr_p s p rest Hwf F) as (H1 & H2 & H3 & H4 & H5).
  rewrite (nonzero_eq_true _ H2) in Hm. cbn [negb] in Hm. cbv zeta in Hm.
  destruct (pop_zero_spec s p rest Hwf F) as (X2 & S2 & N2).
  set (s2 := set_ram (page_zero p (ram (set_freelist rest s))) (set_freelist rest s)) in *.
  destruct (vmm_map va p f s2) as [r3 s3] eqn:M.
  assert (Hpd2 : kernel_pd s2 <> 0) by exact Hpd.
  destruct (vmm_map_spec s2 va p f r3 s3 (ext_wf _ _ X2) Hpd2 (proj1 H1) M)
    as (X3 & [(-> & Hva & _ & U)|(-> & S3)]).
  - cbn in Hm. injection Hm as <- <-.
    split; [eapply vmm_ext_trans; eauto|]. left. repeat split; auto.
    exists p. repeat split; try apply H1; auto.
    + left; reflexivity.
    + intros Ho. apply N2. apply (ext_owned _ _ X3). exact Ho.
    + eapply leaf_upd_after_same; eauto.
  - cbn in Hm. injection Hm as <- <-.
    assert (N3 : ~ owned_page s3 p).
    { intros Ho. apply N2. apply (ext_owned _ _ X3). exact Ho. }
    destruct (kfree_spec s3 p (ext_wf _ _ X3) H1 H2 N3) as (W4 & S4 & T4).
    split.
    + constructor.
      * exact W4.
      * cbn [kfree kernel_pd set_freelist]. rewrite (ext_pd _ _ X3). reflexivity.
      * intros pg [Ht|[<-|Hin]].
        -- apply (ext_owned _ _ X2). apply (ext_owned _ _ X3). left. apply T4. exact Ht.
        -- right. rewrite F. left; reflexivity.
        -- apply (ext_owned _ _ X2). apply (ext_owned _ _ X3). right. exact Hin.
      * intros x Hx. cbn [kfree ram set_freelist].
        rewrite (ext_ram _ _ X3), (ext_ram _ _ X2); auto.
        intros pg Hpg. apply Hx. apply (ext_owned _ _ X2). exact Hpg.
      * intros q [<-|Hq].
        -- rewrite F. left; reflexivity.
        -- apply (ext_free _ _ X2). apply (ext_free _ _ X3). exact Hq.
    + right. split; [reflexivity|].
      eapply leaf_same_trans; [exact S2|]. eapply leaf_same_trans; [exact S3|exact S4].
Qed.

(** ** Soundness of the executable well-formedness check *)

Lemma nodupb_sound l : nodupb l = true -> NoDup l.
Proof.
  induction l as [|x r IH]; intros H; [constructor|].
  cbn [nodupb] in H. apply andb_true_iff in H. destruct H as [H1 H2].
  constructor; [|apply IH; exact H2].
  intros Hin. apply negb_true_iff in H1.
  assert (existsb (Z.eqb x) r = true); [|congruence].
  apply existsb_exists. exists x. split; [exact Hin|apply Z.eqb_refl].
Qed.

Lemma NoDup_app_disjoint {A} (l1 l2 : list A) a :
  NoDup (l1 ++ l2) -> In a l1 -> ~ In a l2.
Proof.
  induction l1 as [|x l1 IH]; intros Hnd Hin; [contradiction|].
  cbn [app] in Hnd. apply NoDup_cons_iff in Hnd. destruct Hnd as [Hx Hnd].
  destruct Hin as [->|Hin].
  - intros H2. apply Hx. apply in_or_app. right. exact H2.
  - apply IH; assumption.
Qed.

Lemma NoDup_flat_map_inj {A B} (f : A -> list B) l x y t :
  NoDup (flat_map f l) -> In x l -> In y l -> In t (f x) -> In t (f y) -> x = y.
Proof.
  induction l as [|a l IH]; intros Hnd Hx Hy Htx Hty; [contradiction|].
  cbn [flat_map] in Hnd.
  destruct Hx as [->|Hx], Hy as [->|Hy]; auto.
  - exfalso. apply (NoDup_app_disjoint _ _ t Hnd Htx).
    apply in_flat_map. exists y. auto.
  - exfalso. apply (NoDup_app_disjoint _ _ t Hnd Hty).
    apply in_flat_map. exists x. auto.
  - apply IH; auto. eapply NoDup_app_remove_l; eauto.
Qed.

Lemma in_indices i : idx i -> In i indices.
Proof.
  intros Hi. unfold idx, SV39_PT_ENTRIES in Hi. unfold indices.
  replace i with (Z.of_nat (Z.to_nat i)) by lia.
  apply in_map. apply in_seq. lia.
Qed.

Lemma in_l1_tables s i t : idx i -> l1_at s i = Some t -> In t (l1_tables s).
Proof.
  intros Hi H. unfold l1_tables. apply in_flat_map. exists i.
  split; [apply in_indices; exact Hi|]. rewrite H. left; reflexivity.
Qed.

Lemma in_l0_tables s i j t : idx i -> idx j -> l0_at s i j = Some t -> In t (l0_tables s).
Proof.
  intros Hi Hj H. destruct (l0_at_some _ _ _ _ H) as (t1 & E1 & E0).
  unfold l0_tables. apply in_flat_map. exists t1.
  split; [exact (in_l1_tables s i t1 Hi E1)|].
  apply in_flat_map. exists j. split; [apply in_indices; exact Hj|].
  rewrite E0. left; reflexivity.
Qed.

Lemma page_okb_sound p : page_okb p = true -> page_ok p.
Proof.
  unfold page_okb. intros H.
  apply andb_true_iff in H. destruct H as [H H3].
  apply andb_true_iff in H. destruct H as [H1 H2].
  apply Z.leb_le in H1. apply Z.ltb_lt in H2. apply Z.eqb_eq in H3.
  split; [lia|exact H3].
Qed.

Lemma vmm_wfb_sound s : vmm_wfb s = true -> vmm_wf s.
Proof.
  unfold vmm_wfb. intros H.
  apply andb_true_iff in H. destruct H as [H Hnd].
  apply andb_true_iff in H. destruct H as [H Hnz].
  apply andb_true_iff in H. destruct H as [Hroot Hfree].
  apply nodupb_sound in Hnd. apply NoDup_cons_iff in Hnd. destruct Hnd as [Hr Hnd].
  pose proof (NoDup_app_remove_r _ _ Hnd) as Hnd1.
  pose proof (NoDup_app_remove_l _ _ Hnd) as Hnd0f.
  pose proof (NoDup_app_remove_r _ _ Hnd0f) as Hnd0.
  pose proof (NoDup_app_remove_l _ _ Hnd0f) as Hndf.
  rewrite forallb_forall in Hfree, Hnz.
  assert (Hnz1 : forall t, In t (l1_tables s) -> t <> 0).
  { intros t Ht. specialize (Hnz t (in_or_app _ _ _ (or_introl Ht))).
    apply negb_true_iff, Z.eqb_neq in Hnz. exact Hnz. }
  assert (Hnz0 : forall t, In t (l0_tables s) -> t <> 0).
  { intros t Ht. specialize (Hnz t (in_or_app _ _ _ (or_intror Ht))).
    apply negb_true_iff, Z.eqb_neq in Hnz. exact Hnz. }
  constructor.
  - apply page_okb_sound. exact Hroot.
  - exact Hndf.
  - intros p Hp. specialize (Hfree p Hp).
    apply andb_true_iff in Hfree. destruct Hfree as [F1 F2].
    apply negb_true_iff, Z.eqb_neq in F2.
    repeat split; try (apply page_okb_sound; exact F1); auto.
    intros ->. apply Hr. apply in_or_app. right. apply in_or_app. right. exact Hp.
  - intros i t Hi Ht. pose proof (in_l1_tables s i t Hi Ht) as Hin.
    repeat split; auto.
    + intros ->. apply Hr. apply in_or_app. left. exact Hin.
    + intros Hf. apply (NoDup_app_disjoint _ _ t Hnd Hin).
      apply in_or_app. right. exact Hf.
  - intros i j t Hi Hj Ht. pose proof (in_l0_tables s i j t Hi Hj Ht) as Hin.
    repeat split; auto.
    + intros ->. apply Hr. apply in_or_app. right. apply in_or_app. left. exact Hin.
    + intros Hf. apply (NoDup_app_disjoint _ _ t Hnd0f Hin). exact Hf.
    + intros [i' [Hi' H']]. pose proof (in_l1_tables s i' t Hi' H') as Hin1.
      apply (NoDup_app_disjoint _ _ t Hnd Hin1). apply in_or_app. left. exact Hin.
  - intros i i' t Hi Hi' H H'.
    apply (NoDup_flat_map_inj (fun i => opt_list (l1_at s i)) indices i i' t); auto.
    + apply in_indices; auto.
    + apply in_indices; auto.
    + rewrite H. left; reflexivity.
    + rewrite H'. left; reflexivity.
  - intros i j i' j' t Hi Hj Hi' Hj' H H'.
    destruct (l0_at_some _ _ _ _ H) as (t1 & E1 & E0).
    destruct (l0_at_some _ _ _ _ H') as (t1' & E1' & E0').
    assert (Et : t1 = t1').
    { apply (NoDup_flat_map_inj
               (fun t1 => flat_map (fun j => opt_list (child s t1 j)) indices)
               (l1_tables s) t1 t1' t); auto.
      - exact (in_l1_tables s i t1 Hi E1).
      - exact (in_l1_tables s i' t1' Hi' E1').
      - apply in_flat_map. exists j. split; [apply in_indices; auto|].
        rewrite E0. left; reflexivity.
      - apply in_flat_map. exists j'. split; [apply in_indices; auto|].
        rewrite E0'. left; reflexivity. }
    subst t1'.
    assert (Ei : i = i').
    { apply (NoDup_flat_map_inj (fun i => opt_list (l1_at s i)) indices i i' t1); auto.
      - apply in_indices; auto.
      - apply in_indices; auto.
      - rewrite E1. left; reflexivity.
      - rewrite E1'. left; reflexivity. }
    subst i'. split; [reflexivity|].
    assert (Hndt : NoDup (flat_map (fun j => opt_list (child s t1 j)) indices)).
    { pose proof (in_l1_tables s i t1 Hi E1) as Hin.
      clear - Hnd0 Hin. unfold l0_tables in Hnd0.
      induction (l1_tables s) as [|a l IH]; [contradiction|].
      cbn [flat_map] in Hnd0. destruct Hin as [->|Hin].
      - eapply NoDup_app_remove_r; eauto.
      - apply IH; auto. eapply NoDup_app_remove_l; eauto. }
    apply (NoDup_flat_map_inj (fun j => opt_list (child s t1 j)) indices j j' t); auto.
    + apply in_indices; auto.
    + apply in_indices; auto.
    + rewrite E0. left; reflexivity.
    + rewrite E0'. left; reflexivity.
Qed.

(** ** Flag bits of installed PTEs *)

Lemma land_pow2_testbit g k :
  0 <= k -> Z.land g (2 ^ k) = if Z.testbit g k then 2 ^ k else 0.
Proof.
  intros Hk. apply Z.bits_inj'. intros n Hn.
  rewrite Z.land_spec, Z.pow2_bits_eqb by lia.
  destruct (Z.eqb_spec k n) as [->|Hne].
  - destruct (Z.testbit g n) eqn:E.
    + rewrite Z.pow2_bits_true by lia. reflexivity.
    + rewrite Z.bits_0. reflexivity.
  - rewrite andb_false_r. destruct (Z.testbit g k).
    + rewrite Z.pow2_bits_false by lia. reflexivity.
    + rewrite Z.bits_0. reflexivity.
Qed.

Lemma nonzero_land_pow2 g k : 0 <= k -> nonzero (Z.land g (2 ^ k)) = Z.testbit g k.
Proof.
  intros Hk. rewrite land_pow2_testbit by exact Hk.
  destruct (Z.testbit g k).
  - apply nonzero_true. apply Z.pow_nonzero; lia.
  - reflexivity.
Qed.

Lemma testbit_make_pte pa fl k :
  0 <= pa < two64 -> 0 <= k < 10 -> Z.testbit (make_pte pa fl) k = Z.testbit fl k.
Proof.
  intros Hpa Hk. unfold make_pte. cbv zeta.
  rewrite Z.lor_spec, Z.land_spec.
  assert (Hr : 0 <= Z.shiftl (Z.shiftr pa 12) 10 < two64).
  { rewrite Z.shiftr_div_pow2, Z.shiftl_mul_pow2 by lia.
    assert (0 <= pa / 2 ^ 12 < 2 ^ 52).
    { split; [apply Z.div_pos; lia|].
      apply Z.div_lt_upper_bound; [lia|]. unfold two64 in Hpa. lia. }
    unfold two64. lia. }
  rewrite u64_small by exact Hr.
  rewrite Z.shiftl_spec_low by lia. cbn [orb].
  change 0x3FF with (Z.ones 10). rewrite Z.ones_spec_low by lia.
  apply andb_true_r.
Qed.

(** What [vmm_flags_to_pte_flags (flags | VMM_P_PRESENT)] puts in bits 0..3. *)
Lemma pte_flags_bits f :
  let fl := vmm_flags_to_pte_flags (Z.lor f VMM_P_PRESENT) in
  Z.testbit fl 0 = true /\
  Z.testbit fl 1 = Z.testbit f 1 /\
  Z.testbit fl 2 = Z.testbit f 1 /\
  Z.testbit fl 3 = Z.testbit f 1.
Proof.
  unfold vmm_flags_to_pte_flags. cbv zeta.
  change VMM_P_PRESENT with (2 ^ 0). change VMM_P_RW with (2 ^ 1).
  change VMM_P_USER with (2 ^ 2).
  rewrite !nonzero_land_pow2 by lia. rewrite !Z.lor_spec.
  change (Z.testbit (2 ^ 0) 0) with true. change (Z.testbit (2 ^ 0) 1) with false.
  change (Z.testbit (2 ^ 0) 2) with false.
  rewrite !orb_true_r, !orb_false_r.
  destruct (Z.testbit f 1); destruct (Z.testbit f 2); repeat split; reflexivity.
Qed.

Lemma present_testbit pte : present pte = Z.testbit pte 0.
Proof. unfold present. change PTE_V with (2 ^ 0). apply nonzero_land_pow2. lia. Qed.

Lemma present_installed pa f :
  0 <= pa < two64 ->
  present (make_pte pa (vmm_flags_to_pte_flags (Z.lor f VMM_P_PRESENT))) = true.
Proof.
  intros Hpa. rewrite present_testbit, testbit_make_pte by (auto; lia).
  apply pte_flags_bits.
Qed.

Lemma leaf_upd_at s s1 va v :
  leaf_upd s s1 va v -> leaf s1 (SV39_VPN2 va) (SV39_VPN1 va) (SV39_VPN0 va) = v.
Proof.
  intros H. rewrite H by auto. rewrite !Z.eqb_refl. reflexivity.
Qed.

Lemma vmm_map_root_set va pa f s : fst (vmm_map va pa f s) = 0 -> kernel_pd s <> 0.
Proof.
  intros H Hz. unfold vmm_map in H. rewrite Hz in H. cbn in H. discriminate.
Qed.

(** The state after a successful [vmm_map]. *)
Lemma vmm_map_ok s va pa f :
  vmm_wf s -> 0 <= pa < two64 -> fst (vmm_map va pa f s) = 0 ->
  let s1 := snd (vmm_map va pa f s) in
  vmm_ext s s1 /\ kernel_pd s1 <> 0 /\ va mod 4096 = 0 /\ pa mod 4096 = 0 /\
  leaf_upd s s1 va (make_pte pa (vmm_flags_to_pte_flags (Z.lor f VMM_P_PRESENT))).
Proof.
  intros Hwf Hpa Hr s1.
  pose proof (vmm_map_root_set _ _ _ _ Hr) as Hpd.
  destruct (vmm_map va pa f s) as [r s'] eqn:M. cbn [fst snd] in *. subst r s1.
  destruct (vmm_map_spec s va pa f 0 s' Hwf Hpd Hpa M) as (X & [(_ & Hva & Hpa' & U)|(Hc & _)]).
  - split; [exact X|]. split; [rewrite (ext_pd _ _ X); exact Hpd|].
    split; [exact Hva|]. split; [exact Hpa'|exact U].
  - discriminate.
Qed.

Lemma translate_of_leaf s va pa fl :
  vmm_wf s -> kernel_pd s <> 0 -> va mod 4096 = 0 -> page_ok pa ->
  leaf s (SV39_VPN2 va) (SV39_VPN1 va) (SV39_VPN0 va) = make_pte pa fl ->
  present (make_pte pa fl) = true ->
  vmm_translate va s = pa.
Proof.
  intros Hwf Hpd Hva Hpa Hl Hp.
  rewrite vmm_translate_spec by assumption. cbv zeta.
  rewrite Hl, Hp, pte_to_phys_make_pte by assumption.
  unfold SV39_PAGE_OFFSET. change 0xFFF with 4095. rewrite land_4095, Hva.
  apply Z.lor_0_r.
Qed.

Lemma translate_of_absent s va :
  vmm_wf s -> present (leaf s (SV39_VPN2 va) (SV39_VPN1 va) (SV39_VPN0 va)) = false ->
  vmm_translate va s = NULL.
Proof.
  intros Hwf Hp. destruct (Z.eq_dec (kernel_pd s) 0) as [Hz|Hpd].
  - unfold vmm_translate. rewrite Hz. reflexivity.
  - rewrite vmm_translate_spec by assumption. cbv zeta. rewrite Hp. reflexivity.
Qed.

Lemma leaf_freelist l s i j k : leaf (set_freelist l s) i j k = leaf s i j k.
Proof.
  unfold leaf, l0_at, l1_at, child, rd. cbn [ram kernel_pd set_freelist]. reflexivity.
Qed.

(** [map_identity_range] only maintains the table tree. *)
Lemma map_identity_loop_ext fuel : forall addr end_ f s,
  vmm_wf s -> kernel_pd s <> 0 -> 0 <= addr < two64 ->
  vmm_ext s (map_identity_loop fuel addr end_ f s).
Proof.
  induction fuel as [|fuel IH]; intros addr end_ f s Hwf Hpd Ha.
  - apply vmm_ext_refl. exact Hwf.
  - cbn [map_identity_loop]. destruct (addr <? end_).
    + destruct (vmm_map addr addr f s) as [r s1] eqn:M.
      destruct (vmm_map_spec s addr addr f r s1 Hwf Hpd Ha M) as (X & _).
      eapply vmm_ext_trans; [exact X|]. apply IH.
      * apply X.
      * rewrite (ext_pd _ _ X). exact Hpd.
      * apply u64_range.
    + apply vmm_ext_refl. exact Hwf.
Qed.

Lemma land_range a b : 0 <= a < two64 -> 0 <= b -> 0 <= Z.land a b < two64.
Proof.
  intros Ha Hb. split; [apply Z.land_nonneg; lia|].
  destruct (Z.eq_dec (Z.land a b) 0) as [->|Hne]; [unfold two64; lia|].
  assert (0 < Z.land a b) by (pose proof (proj2 (Z.land_nonneg a b) (or_introl (proj1 Ha))); lia).
  apply Z.log2_lt_pow2; [assumption|].
  pose proof (Z.log2_land a b (proj1 Ha) Hb).
  destruct (Z.eq_dec a 0) as [->|Hane]; [rewrite Z.land_0_l in Hne; contradiction|].
  assert (Z.log2 a < 64) by (apply Z.log2_lt_pow2; unfold two64 in Ha; lia).
  lia.
Qed.

Lemma map_identity_range_ext start end_ f s :
  vmm_wf s -> kernel_pd s <> 0 -> 0 <= start < two64 ->
  vmm_ext s (map_identity_range start end_ f s).
Proof.
  intros Hwf Hpd Hs. unfold map_identity_range.
  destruct (end_ <=? start); [apply vmm_ext_refl; exact Hwf|].
  apply map_identity_loop_ext; auto.
  apply land_range; [exact Hs|]. vm_compute. discriminate.
Qed.

Lemma demo_vm_wf : vmm_wf demo_vm.
Proof. apply vmm_wfb_sound. vm_compute. reflexivity. Qed.

Lemma self_mapped_vm_wf : vmm_wf self_mapped_vm.
Proof.
  apply (ext_wf demo_vm). apply map_identity_range_ext.
  - exact demo_vm_wf.
  - vm_compute. discriminate.
  - unfold two64. lia.
Qed.

(** ** Claims about the virtual-memory manager *)

(** Right after a successful [vmm_map va pa f], [vmm_translate va] returns
    [pa] (success forces both addresses to be 4 KiB aligned, so the page
    offset added by the translation is zero). *)
Lemma vmm_map_translate_now (s : vstate) (va pa f : Z) :
  vmm_wf s -> 0 <= pa < two64 ->
  fst (vmm_map va pa f s) = 0 ->
  vmm_translate va (snd (vmm_map va pa f s)) = pa.
Proof.
  intros Hwf Hpa Hr.
  destruct (vmm_map_ok s va pa f Hwf Hpa Hr) as (X & Hpd & Hva & Hpa' & U).
  apply (translate_of_leaf _ va pa (vmm_flags_to_pte_flags (Z.lor f VMM_P_PRESENT))).
  - apply X.
  - exact Hpd.
  - exact Hva.
  - split; assumption.
  - apply (leaf_upd_at _ _ _ _ U).
  - apply present_installed. exact Hpa.
Qed.

(** C5.  [vmm_unmap va free_phys] returns -1 exactly when the root table is
    unset, [va] is not 4 KiB aligned, an intermediate level is missing or the
    leaf PTE is not valid.  Otherwise it returns 0, the leaf PTE is cleared, a
    following [vmm_translate va] returns [NULL], and the physical page the
    PTE pointed to is pushed on the free list if and only if [free_phys] is
    nonzero. *)
Theorem vmm_unmap_outcome (s : vstate) (va fr : Z) :
  vmm_wf s ->
  let r := fst (vmm_unmap va fr s) in
  let s' := snd (vmm_unmap va fr s) in
  let pte := leaf s (SV39_VPN2 va) (SV39_VPN1 va) (SV39_VPN0 va) in
  (r = -1 <->
   (kernel_pd s = 0 \/ va mod 4096 <> 0 \/
    l1_at s (SV39_VPN2 va) = None \/
    l0_at s (SV39_VPN2 va) (SV39_VPN1 va) = None \/
    present pte = false)) /\
  (r <> -1 ->
   r = 0 /\
   leaf s' (SV39_VPN2 va) (SV39_VPN1 va) (SV39_VPN0 va) = 0 /\
   vmm_translate va s' = NULL /\
   (fr <> 0 -> freelist s' = pte_to_phys pte :: freelist s) /\
   (fr = 0 -> freelist s' = freelist s)).
Proof.
  intros Hwf. cbv zeta. rewrite (vmm_unmap_eq s va fr Hwf).
  destruct (nonzero (kernel_pd s)) eqn:Epd; cbn [negb].
  2:{ apply nonzero_false in Epd. cbn [fst snd]. split; [|intros H; contradiction].
      split; auto. }
  apply nonzero_true in Epd.
  destruct (nonzero (va mod 4096)) eqn:Eva.
  { apply nonzero_true in Eva. cbn [fst snd]. split; [|intros H; contradiction].
    split; auto. }
  apply nonzero_false in Eva.
  destruct (l0_at s (SV39_VPN2 va) (SV39_VPN1 va)) as [t0|] eqn:E0.
  2:{ cbn [fst snd]. split; [|intros H; contradiction]. split; auto. }
  assert (El : leaf s (SV39_VPN2 va) (SV39_VPN1 va) (SV39_VPN0 va) = rd s t0 (SV39_VPN0 va))
    by (unfold leaf; rewrite E0; reflexivity).
  rewrite El. cbv zeta.
  destruct (present (rd s t0 (SV39_VPN0 va))) eqn:Ep.
  2:{ cbn [fst snd]. split; [|intros H; contradiction]. split; auto. }
  cbn [fst snd]. split.
  - split; [discriminate|].
    intros [H|[H|[H|[H|H]]]]; try congruence.
    destruct (l0_at_some _ _ _ _ E0) as (t1 & E1 & _). congruence.
  - intros _.
    destruct (leaf_store_upd s va t0 0 Hwf E0 ltac:(unfold two64; lia)) as (X & U).
    set (s3 := set_ram (store64 (ram s) (pte_addr t0 (SV39_VPN0 va)) 0) s) in *.
    assert (L3 : leaf s3 (SV39_VPN2 va) (SV39_VPN1 va) (SV39_VPN0 va) = 0)
      by (apply (leaf_upd_at _ _ _ _ U)).
    assert (T3 : vmm_translate va s3 = NULL).
    { apply translate_of_absent; [apply X|]. rewrite L3. reflexivity. }
    split; [reflexivity|].
    destruct (nonzero fr) eqn:Efr.
    + apply nonzero_true in Efr. unfold kfree.
      split; [rewrite leaf_freelist; exact L3|].
      split; [rewrite vmm_translate_freelist; exact T3|].
      split; [intros _; reflexivity|intros H; contradiction].
    + apply nonzero_false in Efr.
      split; [exact L3|]. split; [exact T3|].
      split; [intros H; contradiction|intros _; reflexivity].
Qed.

Lemma vmm_unmap_outcome_witness :
  fst (vmm_unmap 0x80011000 1 self_mapped_vm) = 0 /\
  vmm_translate 0x80011000 (snd (vmm_unmap 0x80011000 1 self_mapped_vm)) = NULL.
Proof.
  pose proof (vmm_unmap_outcome self_mapped_vm 0x80011000 1 self_mapped_vm_wf) as H.
  cbv zeta in H. destruct H as [_ H].
  assert (Hr : fst (vmm_unmap 0x80011000 1 self_mapped_vm) <> -1)
    by (vm_compute; discriminate).
  destruct (H Hr) as (H1 & _ & H3 & _). split; assumption.
Defined.

(** C6 (as the code behaves).  The leaf PTE installed by a successful
    [vmm_map] has V = 1; its R, W and X bits are all equal to the
    [VMM_P_RW] bit of the [flags] argument: all three set when the caller
    passes [VMM_P_RW], none of them otherwise. *)
Theorem vmm_map_leaf_flags (s : vstate) (va pa f : Z) :
  vmm_wf s -> 0 <= pa < two64 ->
  fst (vmm_map va pa f s) = 0 ->
  let pte := leaf (snd (vmm_map va pa f s))
                  (SV39_VPN2 va) (SV39_VPN1 va) (SV39_VPN0 va) in
  Z.testbit pte 0 = true /\
  Z.testbit pte 1 = Z.testbit f 1 /\
  Z.testbit pte 2 = Z.testbit f 1 /\
  Z.testbit pte 3 = Z.testbit f 1.
Proof.
  intros Hwf Hpa Hr.
  destruct (vmm_map_ok s va pa f Hwf Hpa Hr) as (X & Hpd & Hva & Hpa' & U).
  cbv zeta. rewrite (leaf_upd_at _ _ _ _ U).
  rewrite !testbit_make_pte by (auto; lia).
  apply pte_flags_bits.
Qed.

Lemma vmm_map_leaf_flags_witness :
  Z.testbit (leaf (snd (vmm_map 0x80400000 0x80013000 6 demo_vm))
                  (SV39_VPN2 0x80400000) (SV39_VPN1 0x80400000) (SV39_VPN0 0x80400000)) 1
  = true.
Proof.
  pose proof (vmm_map_leaf_flags demo_vm 0x80400000 0x80013000 6 demo_vm_wf
                ltac:(unfold two64; lia) ltac:(vm_compute; reflexivity)) as H.
  cbv zeta in H. destruct H as (_ & H & _). rewrite H. reflexivity.
Defined.

(** C6, counterexample.  Called with [flags = VMM_P_USER] (no [VMM_P_RW]),
    [vmm_map] succeeds and installs a leaf PTE with V = 1 and R = W = X = 0. *)
Lemma vmm_map_leaf_without_rwx :
  let s' := snd (vmm_map 0x80400000 0x80013000 VMM_P_USER demo_vm) in
  let pte := leaf s' (SV39_VPN2 0x80400000) (SV39_VPN1 0x80400000) (SV39_VPN0 0x80400000) in
  fst (vmm_map 0x80400000 0x80013000 VMM_P_USER demo_vm) = 0 /\
  Z.land pte PTE_V = 1 /\
  Z.land pte (Z.lor (Z.lor PTE_R PTE_W) PTE_X) = 0.
Proof. vm_compute. repeat split; reflexivity. Qed.

(** C10 (as the code behaves).  When [va] already has a valid leaf, held in
    the level-0 table [t0] and pointing to [pa1], a call [vmm_map va pa2 f]
    with aligned [va] and [pa2] returns 0; afterwards [vmm_translate va] is
    [pa2]; the free list is unchanged ([pa1] is not freed); the only bytes of
    RAM that change are the 8 bytes of the leaf PTE, so the page [pa1] is
    unmodified unless it is the level-0 table [t0] itself. *)
Theorem vmm_map_overwrite (s : vstate) (va pa1 pa2 f t0 : Z) :
  vmm_wf s -> kernel_pd s <> 0 ->
  va mod 4096 = 0 -> page_ok pa2 ->
  l0_at s (SV39_VPN2 va) (SV39_VPN1 va) = Some t0 ->
  present (rd s t0 (SV39_VPN0 va)) = true ->
  pte_to_phys (rd s t0 (SV39_VPN0 va)) = pa1 ->
  let s' := snd (vmm_map va pa2 f s) in
  fst (vmm_map va pa2 f s) = 0 /\
  vmm_translate va s' = pa2 /\
  freelist s' = freelist s /\
  (forall x, ram s' x <> ram s x ->
             pte_addr t0 (SV39_VPN0 va) <= x < pte_addr t0 (SV39_VPN0 va) + 8) /\
  (pa1 <> t0 -> forall x, in_page pa1 x -> ram s' x = ram s x).
Proof.
  intros Hwf Hpd Hva Hpa2 Ht0 Hp Hpa1. cbv zeta.
  rewrite (vmm_map_present s va pa2 f t0 Hwf Hpd Hva (proj2 Hpa2) Ht0). cbn [fst snd].
  set (v := make_pte pa2 (vmm_flags_to_pte_flags (Z.lor f VMM_P_PRESENT))).
  destruct (leaf_store_upd s va t0 v Hwf Ht0 (make_pte_range _ _ (proj1 Hpa2))) as (X & U).
  set (s1 := set_ram (store64 (ram s) (pte_addr t0 (SV39_VPN0 va)) v) s) in *.
  assert (Hfoot : forall x, ram s1 x <> ram s x ->
            pte_addr t0 (SV39_VPN0 va) <= x < pte_addr t0 (SV39_VPN0 va) + 8).
  { intros x Hx. apply (ls_ram s (SV39_VPN0 va) t0 v). exact Hx. }
  split; [reflexivity|]. split; [|split; [reflexivity|split; [exact Hfoot|]]].
  - apply (translate_of_leaf _ va pa2 (vmm_flags_to_pte_flags (Z.lor f VMM_P_PRESENT))); auto.
    + apply X.
    + apply (leaf_upd_at _ _ _ _ U).
    + apply present_installed. apply Hpa2.
  - intros Hne x Hx.
    destruct (Z.eq_dec (ram s1 x) (ram s x)) as [|Hd]; [assumption|]. exfalso.
    apply Hfoot in Hd.
    assert (Hok1 : page_ok pa1) by (rewrite <- Hpa1; apply pte_to_phys_page_ok).
    assert (Hok0 : page_ok t0) by (eapply wf_l0_page_ok; eauto).
    pose proof (slot_in_page _ _ Hok0 (idx_vpn0 va)).
    pose proof (pages_disjoint _ _ Hok1 Hok0 Hne).
    unfold in_page, PAGE_SIZE in Hx. lia.
Qed.

Lemma vmm_map_overwrite_witness :
  fst (vmm_map 0x80011000 0x80012000 VMM_P_RW self_mapped_vm) = 0 /\
  vmm_translate 0x80011000 (snd (vmm_map 0x80011000 0x80012000 VMM_P_RW self_mapped_vm))
  = 0x80012000.
Proof.
  pose proof (vmm_map_overwrite self_mapped_vm 0x80011000 0x80011000 0x80012000
                VMM_P_RW 0x80011000 self_mapped_vm_wf) as H.
  cbv zeta in H.
  destruct H as (H1 & H2 & _).
  - vm_compute. discriminate.
  - reflexivity.
  - split; [unfold two64; lia|reflexivity].
  - vm_compute. reflexivity.
  - vm_compute. reflexivity.
  - vm_compute. reflexivity.
  - split; assumption.
Defined.

(** C10, counterexample.  In [self_mapped_vm] the page [0x80011000] is mapped
    at [va = 0x80011000] and is also the level-0 table holding that mapping
    (what the identity map of RAM produces for a page-table page).  Mapping
    [va] to another page succeeds and changes a byte of the previously
    mapped page. *)
Lemma vmm_map_overwrite_modifies_old_page :
  let s := self_mapped_vm in
  let va := 0x80011000 in
  let pa1 := 0x80011000 in
  let pa2 := 0x80012000 in
  let s' := snd (vmm_map va pa2 VMM_P_RW s) in
  vmm_wf s /\
  va mod 4096 = 0 /\
  vmm_translate va s = pa1 /\
  fst (vmm_map va pa2 VMM_P_RW s) = 0 /\
  vmm_translate va s' = pa2 /\
  in_page pa1 (pa1 + 137) /\
  ram s' (pa1 + 137) <> ram s (pa1 + 137).
Proof.
  cbv zeta. split; [exact self_mapped_vm_wf|].
  split; [reflexivity|]. split; [vm_compute; reflexivity|].
  split; [vm_compute; reflexivity|]. split; [vm_compute; reflexivity|].
  split; [unfold in_page, PAGE_SIZE; lia|]. vm_compute. discriminate.
Qed.

(** ** Interrupt enable *)

Lemma intr_enabled_on s : intr_enabled (intr_on s) = true.
Proof.
  unfold intr_enabled, intr_on. cbn [csr_mstatus set_mstatus].
  rewrite Z.lor_spec. change (Z.testbit MIE_BIT 3) with true. apply orb_true_r.
Qed.

Lemma intr_enabled_off s : intr_enabled (intr_off s) = false.
Proof.
  unfold intr_enabled, intr_off. cbn [csr_mstatus set_mstatus].
  rewrite Z.ldiff_spec. change (Z.testbit MIE_BIT 3) with true. apply andb_false_r.
Qed.

(** ** Claims about interrupt discipline and pid reuse *)

(** C8, the path that breaks the claim.  [proc_exit] called while there is no
    current process disables interrupts and returns at once, without enabling
    them again: it returns with the machine interrupt-enable bit clear. *)
Theorem proc_exit_returns_with_interrupts_off (fuel : nat) (s : kstate) :
  current_proc s = NULL ->
  proc_exit fuel s = Ret tt (intr_off s) /\ intr_enabled (intr_off s) = false.
Proof.
  intros Hc. split; [|apply intr_enabled_off].
  unfold proc_exit. cbv zeta.
  change (current_proc (intr_off s)) with (current_proc s). rewrite Hc. reflexivity.
Qed.

Lemma proc_exit_returns_with_interrupts_off_witness :
  intr_enabled boot_kstate = true /\
  proc_exit 0 boot_kstate = Ret tt (intr_off boot_kstate) /\
  intr_enabled (intr_off boot_kstate) = false.
Proof.
  split; [reflexivity|].
  apply (proc_exit_returns_with_interrupts_off 0 boot_kstate). reflexivity.
Defined.

(** C7, the path that breaks the claim.  In [demo_kstate] the process with
    pid 2 is on the ready queue and [next_pid] is 3; [proc_kill 2] finds it,
    frees it and returns 0, and [next_pid] is still 3. *)
Theorem proc_kill_last_pid_keeps_next_pid :
  let o := proc_kill 4 2 demo_kstate in
  pid (pcbs demo_kstate P2) = next_pid demo_kstate - 1 /\
  head (queues demo_kstate RQ) = P2 /\
  ret_val o = Some 0 /\
  option_map next_pid (ret_state o) = Some (next_pid demo_kstate) /\
  option_map (fun s' => head (queues s' RQ)) (ret_state o) = Some NULL /\
  option_map (fun s' => freelist (vm s')) (ret_state o)
  = Some (P2 :: 0x80026000 :: freelist (vm demo_kstate)).
Proof. vm_compute. repeat split; reflexivity. Qed.

(** ** The [exec] system call in the trap dispatcher *)

Lemma tf_addr_eq tf i : 0 <= tf -> tf + 128 <= two64 -> 0 <= i < 16 -> tf_addr tf i = tf + 8 * i.
Proof. intros H1 H2 Hi. unfold tf_addr. apply u64_small. lia. Qed.

Lemma tf_get_set_same tf i v s : tf_get tf i (tf_set tf i v s) = u64 v.
Proof. unfold tf_get, tf_set. cbn [vm set_vm ram set_ram]. apply load64_store64_same. Qed.

Lemma tf_get_set_mepc tf i e s : tf_get tf i (set_mepc e s) = tf_get tf i s.
Proof. unfold tf_get, set_mepc. cbn [vm]. reflexivity. Qed.

Lemma tf_get_set_other tf i j v s :
  0 <= tf -> tf + 128 <= two64 -> 0 <= i < 16 -> 0 <= j < 16 -> i <> j ->
  tf_get tf i (tf_set tf j v s) = tf_get tf i s.
Proof.
  intros H1 H2 Hi Hj Hne. unfold tf_get, tf_set. cbn [vm set_vm ram set_ram].
  rewrite !tf_addr_eq by assumption. apply load64_store64_other. lia.
Qed.

Lemma tf_set_ram_other tf j v s x :
  0 <= tf -> tf + 128 <= two64 -> 0 <= j < 16 ->
  (x < tf + 8 * j \/ tf + 8 * j + 8 <= x) ->
  ram (vm (tf_set tf j v s)) x = ram (vm s) x.
Proof.
  intros H1 H2 Hj Hx. unfold tf_set. cbn [vm set_vm ram set_ram].
  rewrite tf_addr_eq by assumption. apply store64_other. exact Hx.
Qed.

Lemma save_trap_frame_pcbs tf epc s p :
  pcbs (save_trap_frame tf epc s) p =
  if nonzero (current_proc s) && (p =? current_proc s)
  then set_regstat (tf_snapshot tf epc s) (pcbs s p) else pcbs s p.
Proof.
  unfold save_trap_frame, get_current_proc.
  destruct (nonzero (current_proc s)); cbn [andb]; [|reflexivity].
  unfold upd_pcb. cbn [pcbs set_pcbs]. reflexivity.
Qed.

Section Exec.
Variable SYS_EXEC : Z.
Variable sys_exec_lookup : list Z -> kstate -> Z.
Variable syscall_dispatch : Z -> list Z -> Z -> kstate -> outcome Z.
Variable plic_claim : kstate -> Z * kstate.
Variable plic_complete : Z -> kstate -> kstate.
Variable blk_intr : kstate -> kstate.

Lemma trap_ecall_exec fuel tf s :
  csr_mcause s = 8 \/ csr_mcause s = 11 ->
  tf_get tf 11 s = SYS_EXEC ->
  trap_handler_c SYS_EXEC sys_exec_lookup syscall_dispatch plic_claim plic_complete
                 blk_intr fuel tf s =
  let args := [tf_get tf 4 s; tf_get tf 5 s; tf_get tf 6 s;
               tf_get tf 7 s; tf_get tf 8 s; tf_get tf 9 s] in
  let s0 := save_trap_frame tf (csr_mepc s) s in
  let entry := sys_exec_lookup args s0 in
  if entry =? u64 (-1)
  then Ret tt (set_mepc (u64 (csr_mepc s + 4)) (tf_set tf 4 (u64 (-1)) s0))
  else Ret tt (set_mepc entry (tf_set tf 5 0 (tf_set tf 4 0 s0))).
Proof.
  intros Hc Hn. unfold trap_handler_c, handle_ecall. cbv zeta.
  rewrite Hn, Z.eqb_refl.
  destruct Hc as [-> | ->]; reflexivity.
Qed.
End Exec.

(** C9 (as the code behaves).  For an [ecall] ([mcause] 8 or 11) whose [a7]
    slot holds [SYS_EXEC], the handler returns at once.  If the lookup
    succeeds, the [a0] and [a1] slots of the trap frame are 0 and [mepc] is
    the new entry point; if it fails, the [a0] slot is -1 and [mepc] is
    advanced by 4.  In both cases no other byte of RAM changes, the queues,
    lists, pid counter and allocator are unchanged, every other PCB is
    unchanged, and the PCB of the calling process keeps every field except
    [regstat], which the handler has overwritten with the registers of the
    trap frame before the lookup. *)
Theorem exec_ecall_effect
  (SYS_EXEC : Z) (sys_exec_lookup : list Z -> kstate -> Z)
  (syscall_dispatch : Z -> list Z -> Z -> kstate -> outcome Z)
  (plic_claim : kstate -> Z * kstate) (plic_complete : Z -> kstate -> kstate)
  (blk_intr : kstate -> kstate) (fuel : nat) (tf : Z) (s : kstate) :
  csr_mcause s = 8 \/ csr_mcause s = 11 ->
  tf_get tf 11 s = SYS_EXEC ->
  0 <= tf -> tf + 128 <= two64 ->
  let args := [tf_get tf 4 s; tf_get tf 5 s; tf_get tf 6 s;
               tf_get tf 7 s; tf_get tf 8 s; tf_get tf 9 s] in
  let entry := sys_exec_lookup args (save_trap_frame tf (csr_mepc s) s) in
  exists s',
    trap_handler_c SYS_EXEC sys_exec_lookup syscall_dispatch plic_claim plic_complete
                   blk_intr fuel tf s = Ret tt s' /\
    (entry <> u64 (-1) ->
       tf_get tf 4 s' = 0 /\ tf_get tf 5 s' = 0 /\ csr_mepc s' = entry /\
       forall x, x < tf + 32 \/ tf + 48 <= x -> ram (vm s') x = ram (vm s) x) /\
    (entry = u64 (-1) ->
       tf_get tf 4 s' = u64 (-1) /\ csr_mepc s' = u64 (csr_mepc s + 4) /\
       forall x, x < tf + 32 \/ tf + 40 <= x -> ram (vm s') x = ram (vm s) x) /\
    same_globals s s' /\
    (forall p, p <> current_proc s -> pcbs s' p = pcbs s p) /\
    same_but_regstat (pcbs s (current_proc s)) (pcbs s' (current_proc s)) /\
    (current_proc s <> NULL ->
       regstat (pcbs s' (current_proc s)) = tf_snapshot tf (csr_mepc s) s).
Proof.
  intros Hc Hn Htf1 Htf2. cbv zeta.
  rewrite (trap_ecall_exec SYS_EXEC sys_exec_lookup syscall_dispatch plic_claim
             plic_complete blk_intr fuel tf s Hc Hn). cbv zeta.
  set (s0 := save_trap_frame tf (csr_mepc s) s).
  set (entry := sys_exec_lookup _ s0).
  assert (Hram0 : ram (vm s0) = ram (vm s)).
  { unfold s0, save_trap_frame. destruct (nonzero (get_current_proc s)); reflexivity. }
  assert (Hg0 : same_globals s s0).
  { unfold s0, save_trap_frame, same_globals.
    destruct (nonzero (get_current_proc s)); repeat split; reflexivity. }
  assert (Hp : forall s1, pcbs s1 = pcbs s0 ->
            (forall p, p <> current_proc s -> pcbs s1 p = pcbs s p) /\
            same_but_regstat (pcbs s (current_proc s)) (pcbs s1 (current_proc s)) /\
            (current_proc s <> NULL ->
             regstat (pcbs s1 (current_proc s)) = tf_snapshot tf (csr_mepc s) s)).
  { intros s1 ->. unfold s0. split; [|split].
    - intros p Hne. rewrite save_trap_frame_pcbs.
      destruct (Z.eqb_spec p (current_proc s)); [contradiction|].
      rewrite andb_false_r. reflexivity.
    - rewrite save_trap_frame_pcbs.
      destruct (nonzero (current_proc s) && (current_proc s =? current_proc s));
        repeat split; reflexivity.
    - intros Hne. rewrite save_trap_frame_pcbs.
      rewrite (nonzero_eq_true _ Hne), Z.eqb_refl. reflexivity. }
  destruct (Z.eqb_spec entry (u64 (-1))) as [He|He].
  - eexists. split; [reflexivity|].
    split; [intros H; contradiction|].
    split; [intros _|split; [exact Hg0|apply Hp; reflexivity]].
    split; [|split; [reflexivity|]].
    + rewrite tf_get_set_mepc, tf_get_set_same. apply u64_small. apply u64_range.
    + intros x Hx. cbn [set_mepc vm].
      rewrite tf_set_ram_other by (auto; lia). rewrite Hram0. reflexivity.
  - eexists. split; [reflexivity|].
    split; [intros _|].
    2:{ split; [intros H; contradiction|].
        split; [exact Hg0|apply Hp; reflexivity]. }
    split; [|split; [|split; [reflexivity|]]].
    + rewrite tf_get_set_mepc, tf_get_set_other by (auto; lia).
      rewrite tf_get_set_same. reflexivity.
    + rewrite tf_get_set_mepc, tf_get_set_same. reflexivity.
    + intros x Hx. cbn [set_mepc vm].
      rewrite !tf_set_ram_other by (auto; lia). rewrite Hram0. reflexivity.
Qed.

Lemma exec_ecall_effect_witness :
  exists s',
    trap_handler_c 7 (fun _ _ => 0x80200040) (fun _ _ _ s => Ret 0 s)
                   (fun s => (0, s)) (fun _ s => s) (fun s => s) 4 TF trap_kstate
    = Ret tt s' /\
    csr_mepc s' = 0x80200040 /\ tf_get TF 4 s' = 0 /\ tf_get TF 5 s' = 0.
Proof.
  destruct (exec_ecall_effect 7 (fun _ _ => 0x80200040) (fun _ _ _ s => Ret 0 s)
              (fun s => (0, s)) (fun _ s => s) (fun s => s) 4 TF trap_kstate)
    as (s' & H1 & H2 & _).
  - left. reflexivity.
  - vm_compute. reflexivity.
  - unfold TF. lia.
  - unfold TF, two64. lia.
  - exists s'. split; [exact H1|].
    destruct H2 as (A & B & C & _).
    + vm_compute. discriminate.
    + auto.
Defined.

(** C9, counterexample.  On the same [exec] call the saved registers in the
    PCB of the calling process change: [regstat.x17] was 17 and is 7 (the
    [a7] of the trap frame) afterwards, so the PCB is not left unchanged. *)
Lemma exec_ecall_changes_pcb :
  let o := trap_handler_c 7 (fun _ _ => 0x80200040) (fun _ _ _ s => Ret 0 s)
                          (fun s => (0, s)) (fun _ s => s) (fun s => s) 4 TF trap_kstate in
  csr_mcause trap_kstate = 8 /\
  tf_get TF 11 trap_kstate = 7 /\
  current_proc trap_kstate = P1 /\
  ret_val o = Some tt /\
  option_map csr_mepc (ret_state o) = Some 0x80200040 /\
  x17 (regstat (pcbs trap_kstate P1)) = 17 /\
  option_map (fun s' => x17 (regstat (pcbs s' P1))) (ret_state o) = Some 7.
Proof. vm_compute. repeat split; reflexivity. Qed.

(** ** Intrusive lists *)

Lemma is_listb_sound pc l : forall p, is_listb pc p l = true -> is_list pc p l.
Proof.
  unfold is_list. induction l as [|x l IH]; intros p H; cbn in H |- *.
  - apply Z.eqb_eq. exact H.
  - apply andb_true_iff in H. destruct H as [H H3].
    apply andb_true_iff in H. destruct H as [H1 H2].
    apply Z.eqb_eq in H1. apply negb_true_iff, Z.eqb_neq in H2.
    split; [exact H1|]. split; [exact H2|]. apply IH. exact H3.
Qed.

Lemma list_seg_frame pc pc' l : forall p q,
  (forall x, In x l -> next (pc' x) = next (pc x)) ->
  list_seg pc p l q -> list_seg pc' p l q.
Proof.
  induction l as [|x l IH]; intros p q Hf H; cbn in H |- *; [exact H|].
  destruct H as (H1 & H2 & H3). split; [exact H1|]. split; [exact H2|].
  rewrite Hf by (left; reflexivity). apply IH; [|exact H3].
  intros y Hy. apply Hf. right. exact Hy.
Qed.

Lemma list_seg_app pc l1 l2 : forall p q,
  list_seg pc p (l1 ++ l2) q <-> exists m, list_seg pc p l1 m /\ list_seg pc m l2 q.
Proof.
  induction l1 as [|x l1 IH]; intros p q; cbn.
  - split.
    + intros H. exists p. auto.
    + intros [m [-> H]]. exact H.
  - split.
    + intros (H1 & H2 & H3). apply IH in H3. destruct H3 as [m [Ha Hb]].
      exists m. auto.
    + intros [m [(H1 & H2 & H3) Hb]]. split; [exact H1|]. split; [exact H2|].
      apply IH. exists m. auto.
Qed.

Lemma list_seg_head pc p x l q : list_seg pc p (x :: l) q -> p = x /\ x <> NULL.
Proof. intros (H1 & H2 & _). auto. Qed.

Lemma list_seg_nonnull pc l : forall p q x, list_seg pc p l q -> In x l -> x <> NULL.
Proof.
  induction l as [|y l IH]; intros p q x H Hin; [contradiction|].
  destruct H as (H1 & H2 & H3). destruct Hin as [<-|Hin]; [exact H2|].
  eapply IH; eauto.
Qed.

(** The segment up to its last element, and the link out of it. *)
Lemma list_seg_snoc pc l x : forall p q,
  list_seg pc p (l ++ [x]) q <->
  list_seg pc p l x /\ x <> NULL /\ next (pc x) = q.
Proof.
  intros p q. rewrite list_seg_app. cbn. split.
  - intros [m [Ha (-> & Hb & Hc)]]. auto.
  - intros (Ha & Hb & Hc). exists x. auto.
Qed.

Lemma pcbs_upd_same p f s : pcbs (upd_pcb p f s) p = f (pcbs s p).
Proof. unfold upd_pcb. cbn [pcbs set_pcbs]. rewrite Z.eqb_refl. reflexivity. Qed.

Lemma pcbs_upd_other p f s q : q <> p -> pcbs (upd_pcb p f s) q = pcbs s q.
Proof.
  intros H. unfold upd_pcb. cbn [pcbs set_pcbs].
  destruct (Z.eqb_spec q p); [contradiction|reflexivity].
Qed.

Lemma queues_upd_same q f s : queues (upd_queue q f s) q = f (queues s q).
Proof. unfold upd_queue. cbn [queues set_queues]. rewrite Z.eqb_refl. reflexivity. Qed.

Lemma last_snoc {A} (l : list A) x d : last (l ++ [x]) d = x.
Proof.
  induction l as [|a l IH]; [reflexivity|].
  cbn [app]. destruct (l ++ [x]) eqn:E.
  - destruct l; discriminate.
  - cbn [last]. cbn [last] in IH. exact IH.
Qed.

Lemma last_in {A} (l : list A) d : l <> [] -> In (last l d) l.
Proof.
  induction l as [|a l IH]; intros H; [contradiction|].
  destruct l as [|b l]; [left; reflexivity|].
  right. apply IH. discriminate.
Qed.

Lemma pcbs_upd_queue q f s : pcbs (upd_queue q f s) = pcbs s.
Proof. reflexivity. Qed.

Lemma queues_upd_pcb p f s : queues (upd_pcb p f s) = queues s.
Proof. reflexivity. Qed.

Lemma queues_upd_other q f s r : r <> q -> queues (upd_queue q f s) r = queues s r.
Proof.
  intros H. unfold upd_queue. cbn [queues set_queues].
  destruct (Z.eqb_spec r q); [contradiction|reflexivity].
Qed.

(** *** [enqueue] appends at the tail *)

Lemma enqueue_empty_eq s rq p :
  rq <> NULL -> p <> NULL -> tail (queues s rq) = NULL ->
  enqueue rq p s =
  upd_queue rq (fun q => mkQueue (head q) (tail q) (s32 (count q + 1)))
    (upd_queue rq (fun q => mkQueue p p (count q)) (upd_pcb p (set_next NULL) s)).
Proof.
  intros Hrq Hp Ht. unfold enqueue.
  rewrite (nonzero_eq_true _ Hrq), (nonzero_eq_true _ Hp). cbn [negb orb]. cbv zeta.
  rewrite queues_upd_pcb, Ht. reflexivity.
Qed.

Lemma enqueue_nonempty_eq s rq p :
  rq <> NULL -> p <> NULL -> tail (queues s rq) <> NULL ->
  enqueue rq p s =
  upd_queue rq (fun q => mkQueue (head q) (tail q) (s32 (count q + 1)))
    (upd_queue rq (fun q => mkQueue (head q) p (count q))
       (upd_pcb (tail (queues s rq)) (set_next p) (upd_pcb p (set_next NULL) s))).
Proof.
  intros Hrq Hp Ht. unfold enqueue.
  rewrite (nonzero_eq_true _ Hrq), (nonzero_eq_true _ Hp). cbn [negb orb]. cbv zeta.
  rewrite queues_upd_pcb, (nonzero_eq_true _ Ht). reflexivity.
Qed.

(** A segment whose last element links to [q] does not contain that element
    twice. *)
Lemma list_seg_last_fresh pc l t : forall p,
  list_seg pc p l t -> t <> NULL -> next (pc t) = NULL -> ~ In t l.
Proof.
  induction l as [|a l IH]; intros p H Htz Hn Hin; [contradiction|].
  destruct H as (-> & Hnz & Hrest). destruct Hin as [->|Hin].
  - rewrite Hn in Hrest. destruct l as [|b l].
    + cbn in Hrest. congruence.
    + destruct Hrest as (E & Hbz & _). congruence.
  - eapply IH; eauto.
Qed.

Lemma enqueue_spec s rq p l :
  rq <> NULL -> p <> NULL -> is_queue s rq l -> ~ In p l ->
  let s' := enqueue rq p s in
  is_queue s' rq (l ++ [p]) /\
  count (queues s' rq) = s32 (count (queues s rq) + 1) /\
  same_but_next (pcbs s) (pcbs s') /\
  (forall q, q <> p -> q <> last l NULL -> pcbs s' q = pcbs s q) /\
  next (pcbs s' p) = NULL /\
  (forall r, r <> rq -> queues s' r = queues s r) /\
  vm s' = vm s /\ idle_proc s' = idle_proc s /\ ready_queue s' = ready_queue s /\
  current_proc s' = current_proc s /\ zombie_list s' = zombie_list s /\
  blocked_list s' = blocked_list s /\ next_pid s' = next_pid s /\
  csr_mstatus s' = csr_mstatus s.
Proof.
  intros Hrq Hp [Hl Ht] Hnin. cbv zeta.
  destruct (Z.eq_dec (tail (queues s rq)) NULL) as [Htz|Htnz].
  - (* empty queue *)
    rewrite (enqueue_empty_eq s rq p Hrq Hp Htz).
    assert (El : l = []).
    { destruct l as [|x l]; [reflexivity|]. exfalso.
      assert (Hin : In (last (x :: l) NULL) (x :: l)) by (apply last_in; discriminate).
      rewrite <- Ht, Htz in Hin. eapply list_seg_nonnull in Hin; eauto. }
    subst l.
    split; [|split; [|split; [|split; [|split; [|split]]]]].
    + split.
      * unfold is_list. rewrite !queues_upd_same, !pcbs_upd_queue.
        cbn [list_seg app head].
        split; [reflexivity|]. split; [exact Hp|].
        rewrite pcbs_upd_same. reflexivity.
      * rewrite !queues_upd_same. reflexivity.
    + rewrite !queues_upd_same. reflexivity.
    + intros q. rewrite !pcbs_upd_queue.
      destruct (Z.eq_dec q p) as [->|Hne].
      * rewrite pcbs_upd_same. reflexivity.
      * rewrite pcbs_upd_other by exact Hne. reflexivity.
    + intros q Hq _. rewrite !pcbs_upd_queue. apply pcbs_upd_other. exact Hq.
    + rewrite !pcbs_upd_queue, pcbs_upd_same. reflexivity.
    + intros r Hr. rewrite !queues_upd_other by exact Hr. reflexivity.
    + repeat split; reflexivity.
  - (* non-empty queue: the old tail is linked to [p] *)
    rewrite (enqueue_nonempty_eq s rq p Hrq Hp Htnz).
    set (t := tail (queues s rq)) in *.
    assert (Hne : l <> []).
    { intros ->. cbn in Ht. contradiction. }
    destruct (exists_last Hne) as [l' [y Ey]].
    assert (Hy : y = t) by (rewrite Ht, Ey; symmetry; apply last_snoc).
    subst y.
    assert (Htp : t <> p).
    { intros E. apply Hnin. rewrite Ey, <- E. apply in_or_app. right. left. reflexivity. }
    assert (Htl : last l NULL = t) by (symmetry; exact Ht).
    unfold is_list in Hl. rewrite Ey in Hl. apply list_seg_snoc in Hl.
    destruct Hl as (Ha & Hb & Hc).
    assert (Hfresh : ~ In t l') by (eapply list_seg_last_fresh; eauto).
    split; [|split; [|split; [|split; [|split; [|split]]]]].
    + split.
      * unfold is_list. rewrite !queues_upd_same, !pcbs_upd_queue. cbn [head].
        rewrite queues_upd_pcb, queues_upd_pcb.
        rewrite Ey, <- app_assoc. cbn [app]. apply list_seg_app. exists t. split.
        -- apply (list_seg_frame (pcbs s)); [|exact Ha].
           intros z Hz.
           assert (z <> t) by (intros ->; contradiction).
           assert (z <> p).
           { intros ->. apply Hnin. rewrite Ey. apply in_or_app. left. exact Hz. }
           rewrite pcbs_upd_other, pcbs_upd_other by assumption. reflexivity.
        -- cbn [list_seg app]. split; [reflexivity|]. split; [exact Hb|].
           rewrite pcbs_upd_same. cbn [next set_next].
           split; [reflexivity|]. split; [exact Hp|].
           rewrite pcbs_upd_other by (intros E; apply Htp; symmetry; exact E).
           rewrite pcbs_upd_same. reflexivity.
      * rewrite !queues_upd_same. cbn [tail]. symmetry. apply last_snoc.
    + rewrite !queues_upd_same. reflexivity.
    + intros q. rewrite !pcbs_upd_queue.
      destruct (Z.eq_dec q t) as [->|Hqt].
      * rewrite pcbs_upd_same, pcbs_upd_other by exact Htp. reflexivity.
      * rewrite pcbs_upd_other by exact Hqt.
        destruct (Z.eq_dec q p) as [->|Hqp].
        -- rewrite pcbs_upd_same. reflexivity.
        -- rewrite pcbs_upd_other by exact Hqp. reflexivity.
    + intros q Hq Hq'. rewrite !pcbs_upd_queue. rewrite Htl in Hq'.
      rewrite pcbs_upd_other, pcbs_upd_other by assumption. reflexivity.
    + rewrite !pcbs_upd_queue.
      rewrite pcbs_upd_other by (intros E; apply Htp; symmetry; exact E).
      rewrite pcbs_upd_same. reflexivity.
    + intros r Hr. rewrite !queues_upd_other by exact Hr. reflexivity.
    + repeat split; reflexivity.
Qed.

(** ** [proc_exit]: zombie insertion and parent wake-up *)

Lemma last_cons_default {A} (l : list A) : forall x d, last (x :: l) d = last l x.
Proof.
  induction l as [|a l IH]; intros x d; [reflexivity|].
  change (last (x :: a :: l) d) with (last (a :: l) d).
  rewrite (IH a d), (IH a x). reflexivity.
Qed.

(** The search finds the first PCB of [blocked_list] whose pid is [ppid_],
    unlinks it, marks it [READY] and enqueues it. *)
Lemma wake_parent_loop_found s ppid_ parent l2 : forall l1 fuel prev cur,
  list_seg (pcbs s) cur (l1 ++ parent :: l2) NULL ->
  (forall q, In q l1 -> pid (pcbs s q) <> ppid_) ->
  pid (pcbs s parent) = ppid_ ->
  (length l1 < fuel)%nat ->
  wake_parent_loop fuel ppid_ prev cur s =
  let pv := last l1 prev in
  let sA := if nonzero pv then upd_pcb pv (set_next (next (pcbs s parent))) s
            else set_blocked_list (next (pcbs s parent)) s in
  let sB := upd_pcb parent (set_pstat READY) sA in
  Some (enqueue (ready_queue sB) parent sB).
Proof.
  induction l1 as [|x l1 IH]; intros fuel prev cur Hseg Hno Hpid Hfuel.
  - destruct fuel as [|fuel]; [cbn in Hfuel; lia|].
    cbn [app] in Hseg. destruct Hseg as (-> & Hnz & _).
    cbn [wake_parent_loop last]. rewrite (nonzero_eq_true _ Hnz). cbn [negb].
    rewrite Hpid, Z.eqb_refl. reflexivity.
  - destruct fuel as [|fuel]; [cbn in Hfuel; lia|].
    cbn [app] in Hseg. destruct Hseg as (-> & Hnz & Hrest).
    cbn [wake_parent_loop]. rewrite (nonzero_eq_true _ Hnz). cbn [negb].
    assert (Hx : pid (pcbs s x) <> ppid_) by (apply Hno; left; reflexivity).
    destruct (Z.eqb_spec (pid (pcbs s x)) ppid_) as [E|_]; [contradiction|].
    rewrite (IH fuel x (next (pcbs s x)) Hrest); auto.
    + rewrite last_cons_default. reflexivity.
    + intros q Hq. apply Hno. right. exact Hq.
    + cbn in Hfuel. lia.
Qed.

(** Without a PCB of that pid on the list, the search changes nothing. *)
Lemma wake_parent_loop_absent s ppid_ : forall l fuel prev cur,
  list_seg (pcbs s) cur l NULL ->
  (forall q, In q l -> pid (pcbs s q) <> ppid_) ->
  (length l < fuel)%nat ->
  wake_parent_loop fuel ppid_ prev cur s = Some s.
Proof.
  induction l as [|x l IH]; intros fuel prev cur Hseg Hno Hfuel.
  - destruct fuel as [|fuel]; [cbn in Hfuel; lia|].
    cbn in Hseg. subst cur. reflexivity.
  - destruct fuel as [|fuel]; [cbn in Hfuel; lia|].
    destruct Hseg as (-> & Hnz & Hrest).
    cbn [wake_parent_loop]. rewrite (nonzero_eq_true _ Hnz). cbn [negb].
    assert (Hx : pid (pcbs s x) <> ppid_) by (apply Hno; left; reflexivity).
    destruct (Z.eqb_spec (pid (pcbs s x)) ppid_) as [E|_]; [contradiction|].
    apply (IH fuel x (next (pcbs s x)) Hrest).
    + intros q Hq. apply Hno. right. exact Hq.
    + cbn in Hfuel. lia.
Qed.

Lemma exit_to_zombie_pcbs s q :
  pcbs (exit_to_zombie s) q =
  if q =? current_proc s
  then set_next (zombie_list s) (set_pstat TERMINATED (pcbs s q))
  else pcbs s q.
Proof.
  unfold exit_to_zombie, upd_pcb. cbn [pcbs set_pcbs set_zombie_list current_proc zombie_list].
  destruct (q =? current_proc s); reflexivity.
Qed.

Lemma NoDup_app_l {A} (l1 l2 : list A) : NoDup (l1 ++ l2) -> NoDup l1.
Proof. apply NoDup_app_remove_r. Qed.

Lemma NoDup_app_r {A} (l1 l2 : list A) : NoDup (l1 ++ l2) -> NoDup l2.
Proof. apply NoDup_app_remove_l. Qed.

Lemma NoDup_app_notin {A} (l1 l2 : list A) a : NoDup (l1 ++ l2) -> In a l2 -> ~ In a l1.
Proof.
  intros Hnd H2 H1. exact (NoDup_app_disjoint l1 l2 a Hnd H1 H2).
Qed.

(** C4.  When a process with [ppid <> 0] calls [proc_exit] and its parent (the
    first PCB of [blocked_list] whose pid is that ppid) is blocked, then at
    the point where [proc_exit] calls [schedule]: the exiting process is
    [TERMINATED] and is the head of [zombie_list]; the parent has been removed
    from [blocked_list], is [READY] and is the last element of [ready_queue],
    behind every process that was already there.  The zombie insertion comes
    first: in the intermediate state [s1] the exiting process is already on
    [zombie_list] while the parent is still on [blocked_list]. *)
Theorem proc_exit_wakes_parent
  (fuel : nat) (s : kstate) (zl l1 l2 rl : list Z) (parent : Z) :
  let cur := current_proc s in
  let rq := ready_queue s in
  cur <> NULL -> rq <> NULL ->
  ppid (pcbs s cur) <> 0 ->
  pid (pcbs s parent) = ppid (pcbs s cur) ->
  (forall q, In q l1 -> pid (pcbs s q) <> ppid (pcbs s cur)) ->
  is_list (pcbs s) (zombie_list s) zl ->
  is_list (pcbs s) (blocked_list s) (l1 ++ parent :: l2) ->
  is_queue s rq rl ->
  NoDup (cur :: zl ++ (l1 ++ parent :: l2) ++ rl) ->
  (length l1 < fuel)%nat ->
  let s1 := exit_to_zombie (intr_off s) in
  exists s2,
    exit_wake_parent fuel s1 = Some s2 /\
    proc_exit fuel s = bind (schedule fuel s2) (fun _ s' => Halt s') /\
    (pstat (pcbs s1 cur) = TERMINATED /\
     is_list (pcbs s1) (zombie_list s1) (cur :: zl) /\
     is_list (pcbs s1) (blocked_list s1) (l1 ++ parent :: l2) /\
     pstat (pcbs s1 parent) = pstat (pcbs s parent) /\
     is_queue s1 rq rl) /\
    (pstat (pcbs s2 cur) = TERMINATED /\
     is_list (pcbs s2) (zombie_list s2) (cur :: zl) /\
     is_list (pcbs s2) (blocked_list s2) (l1 ++ l2) /\
     pstat (pcbs s2 parent) = READY /\
     is_queue s2 rq (rl ++ [parent]) /\
     intr_enabled s2 = false).
Proof.
  intros cur rq Hcur Hrq Hppid Hpid Hfirst Hz Hb Hq Hnd Hfuel s1.
  set (bl := l1 ++ parent :: l2) in *.
  (* distinctness *)
  apply NoDup_cons_iff in Hnd. destruct Hnd as [Hcnot Hnd].
  assert (Hcz : ~ In cur zl) by (intros H; apply Hcnot; apply in_or_app; left; exact H).
  assert (Hcb : ~ In cur bl).
  { intros H. apply Hcnot. apply in_or_app. right. apply in_or_app. left. exact H. }
  assert (Hcr : ~ In cur rl).
  { intros H. apply Hcnot. apply in_or_app. right. apply in_or_app. right. exact H. }
  pose proof (NoDup_app_r _ _ Hnd) as Hndbr.
  pose proof (NoDup_app_l _ _ Hndbr) as Hndb.
  assert (Hzb : forall x, In x zl -> ~ In x bl).
  { intros x Hx Hx'. apply (NoDup_app_disjoint _ _ x Hnd Hx). apply in_or_app. left. exact Hx'. }
  assert (Hzr : forall x, In x zl -> ~ In x rl).
  { intros x Hx Hx'. apply (NoDup_app_disjoint _ _ x Hnd Hx). apply in_or_app. right. exact Hx'. }
  assert (Hbr : forall x, In x bl -> ~ In x rl).
  { intros x Hx. apply (NoDup_app_disjoint _ _ x Hndbr Hx). }
  assert (Hpb : In parent bl) by (apply in_or_app; right; left; reflexivity).
  assert (Hpc : parent <> cur) by (intros E; apply Hcb; rewrite <- E; exact Hpb).
  assert (Hpr : ~ In parent rl) by (apply Hbr; exact Hpb).
  assert (Hpnz : parent <> NULL) by exact (list_seg_nonnull (pcbs s) bl _ _ parent Hb Hpb).
  (* the state after the zombie insertion *)
  assert (P1 : forall q, q <> cur -> pcbs s1 q = pcbs s q).
  { intros q Hne. unfold s1. rewrite exit_to_zombie_pcbs.
    change (current_proc (intr_off s)) with cur.
    destruct (Z.eqb_spec q cur); [contradiction|reflexivity]. }
  assert (P1c : pcbs s1 cur = set_next (zombie_list s) (set_pstat TERMINATED (pcbs s cur))).
  { unfold s1. rewrite exit_to_zombie_pcbs.
    change (current_proc (intr_off s)) with cur. rewrite Z.eqb_refl. reflexivity. }
  assert (Q1 : queues s1 = queues s) by reflexivity.
  assert (Z1 : zombie_list s1 = cur) by reflexivity.
  assert (B1 : blocked_list s1 = blocked_list s) by reflexivity.
  assert (R1 : ready_queue s1 = rq) by reflexivity.
  assert (C1 : current_proc s1 = cur) by reflexivity.
  assert (Hz1 : is_list (pcbs s1) (zombie_list s1) (cur :: zl)).
  { rewrite Z1. unfold is_list. cbn [list_seg]. split; [reflexivity|]. split; [exact Hcur|].
    rewrite P1c. cbn [next set_next].
    apply (list_seg_frame (pcbs s)); [|exact Hz].
    intros x Hx. rewrite P1; [reflexivity|]. intros ->. contradiction. }
  assert (Hb1 : is_list (pcbs s1) (blocked_list s1) bl).
  { rewrite B1. apply (list_seg_frame (pcbs s)); [|exact Hb].
    intros x Hx. rewrite P1; [reflexivity|]. intros ->. contradiction. }
  assert (Hq1 : is_queue s1 rq rl).
  { destruct Hq as [Ha Ht]. split; [|rewrite Q1; exact Ht]. rewrite Q1.
    apply (list_seg_frame (pcbs s)); [|exact Ha].
    intros x Hx. rewrite P1; [reflexivity|]. intros ->. contradiction. }
  (* the wake-up *)
  assert (Hppid1 : ppid (pcbs s1 (current_proc s1)) = ppid (pcbs s cur)).
  { rewrite C1, P1c. reflexivity. }
  set (nx := next (pcbs s1 parent)).
  set (pv := last l1 NULL).
  set (sA := if nonzero pv then upd_pcb pv (set_next nx) s1 else set_blocked_list nx s1).
  set (sB := upd_pcb parent (set_pstat READY) sA).
  set (s2 := enqueue (ready_queue sB) parent sB).
  assert (Hwake : exit_wake_parent fuel s1 = Some s2).
  { unfold exit_wake_parent. rewrite Hppid1, (nonzero_eq_true _ Hppid).
    rewrite (wake_parent_loop_found s1 (ppid (pcbs s cur)) parent l2 l1 fuel NULL
               (blocked_list s1)); auto.
    - intros q Hq'. rewrite P1.
      + apply Hfirst. exact Hq'.
      + intros ->. apply Hcb. apply in_or_app. left. exact Hq'.
    - rewrite P1 by exact Hpc. exact Hpid. }
  exists s2. split; [exact Hwake|]. split.
  { unfold proc_exit. cbv zeta.
    change (current_proc (intr_off s)) with cur.
    rewrite (nonzero_eq_true _ Hcur). cbn [negb].
    fold s1. rewrite Hwake. reflexivity. }
  split.
  { split; [rewrite P1c; reflexivity|]. split; [exact Hz1|]. split; [exact Hb1|].
    split; [rewrite P1 by exact Hpc; reflexivity|exact Hq1]. }
  (* facts about [pv], the predecessor of the parent *)
  assert (Hpv : pv = NULL /\ l1 = [] \/ pv <> NULL /\ In pv l1).
  { unfold pv. destruct l1 as [|a l1']; [left; auto|right].
    assert (Hin : In (last (a :: l1') NULL) (a :: l1')) by (apply last_in; discriminate).
    split; [|exact Hin].
    apply (list_seg_nonnull (pcbs s) bl _ _ _ Hb). apply in_or_app. left. exact Hin. }
  assert (Hpvc : pv <> cur).
  { destruct Hpv as [[E _]|[_ Hin]]; [congruence|].
    intros E. apply Hcb. rewrite <- E. apply in_or_app. left. exact Hin. }
  assert (Hndl : NoDup (l1 ++ parent :: l2)) by exact Hndb.
  assert (Hpvp : pv <> parent).
  { destruct Hpv as [[E _]|[_ Hin]]; [congruence|].
    intros E. rewrite E in Hin.
    apply (NoDup_app_disjoint _ _ parent Hndl Hin). left. reflexivity. }
  (* PCB store of [sB] *)
  assert (PA : forall q, q <> pv -> pcbs sA q = pcbs s1 q).
  { intros q Hne. unfold sA. destruct (nonzero pv); [|reflexivity].
    apply pcbs_upd_other. exact Hne. }
  assert (PAnext : forall q, q <> pv \/ pv = NULL -> next (pcbs sA q) = next (pcbs s1 q)).
  { intros q Hc. unfold sA. destruct (nonzero pv) eqn:E; [|reflexivity].
    apply nonzero_true in E. destruct Hc as [Hc|Hc]; [|contradiction].
    rewrite pcbs_upd_other by exact Hc. reflexivity. }
  assert (PApstat : forall q, pstat (pcbs sA q) = pstat (pcbs s1 q)).
  { intros q. unfold sA. destruct (nonzero pv); [|reflexivity].
    destruct (Z.eq_dec q pv) as [->|Hne].
    - rewrite pcbs_upd_same. reflexivity.
    - rewrite pcbs_upd_other by exact Hne. reflexivity. }
  assert (PB : forall q, q <> parent -> pcbs sB q = pcbs sA q).
  { intros q Hne. unfold sB. apply pcbs_upd_other. exact Hne. }
  assert (PBnext : forall q, next (pcbs sB q) = next (pcbs sA q)).
  { intros q. unfold sB. destruct (Z.eq_dec q parent) as [->|Hne].
    - rewrite pcbs_upd_same. reflexivity.
    - rewrite pcbs_upd_other by exact Hne. reflexivity. }
  assert (QB : queues sB = queues s).
  { unfold sB, sA. destruct (nonzero pv); reflexivity. }
  assert (RB : ready_queue sB = rq).
  { unfold sB, sA. destruct (nonzero pv); reflexivity. }
  assert (ZB : zombie_list sB = cur).
  { unfold sB, sA. destruct (nonzero pv); reflexivity. }
  assert (MB : csr_mstatus sB = csr_mstatus (intr_off s)).
  { unfold sB, sA. destruct (nonzero pv); reflexivity. }
  assert (HqB : is_queue sB rq rl).
  { destruct Hq1 as [Ha Ht]. split; [|rewrite QB, <- Q1; exact Ht].
    rewrite QB, <- Q1. apply (list_seg_frame (pcbs s1)); [|exact Ha].
    intros x Hx. rewrite PBnext. apply PAnext.
    destruct Hpv as [[E _]|[_ Hin]]; [right; exact E|left].
    intros ->. apply (Hbr pv); [apply in_or_app; left; exact Hin|exact Hx]. }
  (* [enqueue] *)
  unfold s2. rewrite RB.
  destruct (enqueue_spec sB rq parent rl Hrq Hpnz HqB Hpr)
    as (E1 & E2 & E3 & E4 & E5 & E6 & E7 & E8 & E9 & E10 & E11 & E12 & E13 & E14).
  set (sE := enqueue rq parent sB) in *.
  assert (Hlastr : forall q, q <> NULL -> ~ In q rl -> q <> last rl NULL).
  { intros q Hqz Hqn E. destruct rl as [|a rl']; [cbn in E; contradiction|].
    apply Hqn. rewrite E. apply last_in. discriminate. }
  assert (PE : forall q, q <> NULL -> q <> parent -> ~ In q rl -> pcbs sE q = pcbs sB q).
  { intros q Hqz Hqp Hqr. apply E4; [exact Hqp|]. apply Hlastr; assumption. }
  assert (PEpstat : forall q, pstat (pcbs sE q) = pstat (pcbs sB q)).
  { intros q. specialize (E3 q). 
    change (pstat (pcbs sE q)) with (pstat (set_next NULL (pcbs sE q))).
    rewrite E3. reflexivity. }
  split.
  { rewrite PEpstat, PB, PApstat, P1c by (intros E; apply Hpc; symmetry; exact E).
    reflexivity. }
  split.
  { rewrite E11, ZB. unfold is_list. cbn [list_seg].
    split; [reflexivity|]. split; [exact Hcur|].
    rewrite PE, PB, PA by auto. 
    rewrite P1c. cbn [next set_next].
    apply (list_seg_frame (pcbs s)); [|exact Hz].
    intros x Hx.
    assert (Hxz : x <> NULL) by exact (list_seg_nonnull (pcbs s) zl _ _ x Hz Hx).
    assert (Hxp : x <> parent) by (intros ->; apply (Hzb parent); assumption).
    assert (Hxv : x <> pv).
    { destruct Hpv as [[E _]|[_ Hin]]; [congruence|].
      intros ->. apply (Hzb pv Hx). apply in_or_app. left. exact Hin. }
    assert (Hxc : x <> cur) by (intros ->; contradiction).
    rewrite PE, PB, PA, P1 by auto. reflexivity. }
  split.
  { (* blocked list: [l1 ++ l2] *)
    unfold is_list in Hb1 |- *. unfold bl in Hb1. apply list_seg_app in Hb1.
    destruct Hb1 as [m [Hs1 Hs2]]. destruct Hs2 as (-> & _ & Hs2). fold nx in Hs2.
    assert (Hl2 : list_seg (pcbs sE) nx l2 NULL).
    { apply (list_seg_frame (pcbs s1)); [|exact Hs2].
      intros x Hx.
      assert (Hxb : In x bl) by (apply in_or_app; right; right; exact Hx).
      assert (Hxz : x <> NULL) by exact (list_seg_nonnull (pcbs s) bl _ _ x Hb Hxb).
      assert (Hxp : x <> parent).
      { intros ->. apply NoDup_app_r in Hndl. apply NoDup_cons_iff in Hndl.
        destruct Hndl as [Hn _]. contradiction. }
      assert (Hxv : x <> pv).
      { destruct Hpv as [[E _]|[_ Hin]]; [congruence|].
        intros ->. apply (NoDup_app_disjoint _ _ pv Hndl Hin). right. exact Hx. }
      rewrite PE, PB, PA by auto. reflexivity. }
    rewrite E12.
    destruct Hpv as [[Epv El1]|[Hpvnz Hin]].
    - (* the parent was the head of the list *)
      subst l1. cbn [app]. cbn in Hs1.
      assert (BB : blocked_list sB = nx).
      { unfold sB, sA. rewrite Epv. reflexivity. }
      rewrite BB. exact Hl2.
    - assert (BB : blocked_list sB = blocked_list s1).
      { unfold sB, sA. rewrite (nonzero_eq_true _ Hpvnz). reflexivity. }
      rewrite BB.
      assert (Hne1 : l1 <> []) by (intros ->; contradiction).
      destruct (exists_last Hne1) as [l1' [y Ey]].
      assert (Hy : y = pv) by (unfold pv; rewrite Ey; symmetry; apply last_snoc).
      subst y. rewrite Ey in Hs1 |- *. apply list_seg_snoc in Hs1.
      destruct Hs1 as (Ha & Hb' & Hc).
      rewrite <- app_assoc. cbn [app]. apply list_seg_app. exists pv. split.
      + apply (list_seg_frame (pcbs s1)); [|exact Ha].
        intros x Hx.
        assert (Hx1 : In x l1) by (rewrite Ey; apply in_or_app; left; exact Hx).
        assert (Hxb : In x bl) by (apply in_or_app; left; exact Hx1).
        assert (Hxz : x <> NULL) by exact (list_seg_nonnull (pcbs s) bl _ _ x Hb Hxb).
        assert (Hxp : x <> parent).
        { intros ->. apply (NoDup_app_disjoint _ _ parent Hndl Hx1). left. reflexivity. }
        assert (Hxv : x <> pv).
        { intros ->. apply NoDup_app_l in Hndl. rewrite Ey in Hndl.
          apply (NoDup_app_disjoint _ _ pv Hndl Hx). left. reflexivity. }
        rewrite PE, PB, PA by auto. reflexivity.
      + cbn [list_seg]. split; [reflexivity|]. split; [exact Hpvnz|].
        assert (Hpvb : In pv bl) by (apply in_or_app; left; exact Hin).
        rewrite PE, PB by auto.
        unfold sA. rewrite (nonzero_eq_true _ Hpvnz), pcbs_upd_same.
        cbn [next set_next]. exact Hl2. }
  split.
  { rewrite PEpstat. unfold sB. rewrite pcbs_upd_same. reflexivity. }
  split; [exact E1|].
  unfold intr_enabled. rewrite E14, MB. apply intr_enabled_off.
Qed.

Lemma proc_exit_wakes_parent_witness :
  exists s2,
    exit_wake_parent 4 (exit_to_zombie (intr_off exit_kstate)) = Some s2 /\
    is_list (pcbs s2) (zombie_list s2) [P2] /\
    is_list (pcbs s2) (blocked_list s2) [P3] /\
    pstat (pcbs s2 P1) = READY /\
    is_queue s2 RQ [P4; P1].
Proof.
  pose proof (proc_exit_wakes_parent 4 exit_kstate [] [P3] [] [P4] P1) as H.
  cbv zeta in H.
  destruct H as (s2 & H1 & _ & _ & (_ & H3 & H4 & H5 & H6 & _)).
  - vm_compute. discriminate.
  - vm_compute. discriminate.
  - vm_compute. discriminate.
  - reflexivity.
  - intros q [<-|[]]. vm_compute. discriminate.
  - apply is_listb_sound. reflexivity.
  - apply is_listb_sound. vm_compute. reflexivity.
  - split; [apply is_listb_sound; vm_compute; reflexivity|reflexivity].
  - apply nodupb_sound. vm_compute. reflexivity.
  - cbn. lia.
  - exists s2. auto.
Defined.

(** ** [proc_fork] *)


Lemma fork_new_child_globals child s :
  vm (fork_new_child child s) = vm s /\
  queues (fork_new_child child s) = queues s /\
  current_proc (fork_new_child child s) = current_proc s /\
  ready_queue (fork_new_child child s) = ready_queue s /\
  zombie_list (fork_new_child child s) = zombie_list s /\
  blocked_list (fork_new_child child s) = blocked_list s /\
  next_pid (fork_new_child child s) = s32 (next_pid s + 1) /\
  csr_mstatus (fork_new_child child s) = csr_mstatus s.
Proof. repeat split; reflexivity. Qed.






Lemma enqueue_mstatus rq p s : csr_mstatus (enqueue rq p s) = csr_mstatus s.
Proof.
  unfold enqueue. destruct (negb (nonzero rq) || negb (nonzero p)); [reflexivity|].
  cbv zeta. destruct (negb (nonzero (tail (queues (upd_pcb p (set_next NULL) s) rq))));
    reflexivity.
Qed.


(** [kalloc] alone: the page leaves the allocator. *)
Lemma pop_spec v p rest :
  vmm_wf v -> freelist v = p :: rest ->
  let v' := set_freelist rest v in
  vmm_ext v v' /\ leaf_same v v' /\ ~ owned_page v' p /\ page_ok p /\ p <> 0 /\
  ~ In p rest.
Proof.
  intros Hwf F v'.
  destruct (lr_p v p rest Hwf F) as (H1 & H2 & H3 & H4 & H5).
  assert (Hup : forall pg x, pg = kernel_pd v \/ is_l1 v pg -> in_page pg x ->
                             ram v' x = ram v x) by reflexivity.
  assert (Hsub : forall q, In q (freelist v') -> In q (freelist v)).
  { intros q Hq. rewrite F. right. exact Hq. }
  assert (Hwf' : vmm_wf v').
  { apply (frame_wf v); auto.
    intros q Hq. destruct (wf_free v Hwf q (Hsub q Hq)) as (U1 & U2 & U3).
    split; [exact U1|]. split; [exact U2|]. apply wf_free_not_table; auto. }
  split; [|split; [|split; [|split; [|split]]]]; auto.
  - constructor; auto.
    intros pg Hpg. apply (frame_owned v v'); auto.
  - intros i j k Hi Hj Hk. apply frame_leaf; auto.
  - intros [Ht|Hin]; [|exact (H4 Hin)].
    apply (frame_is_table v v' Hwf eq_refl Hup) in Ht.
    apply (wf_free_not_table v p Hwf); [rewrite F; left; reflexivity|exact Ht].
Qed.





(** *** The state at the heap branch *)




Lemma owned_pages_sound v pg : owned_page v pg -> In pg (owned_pages v).
Proof.
  unfold owned_pages. intros [[->|[[i [Hi H]]|[i [j (Hi & Hj & H)]]]]|Hf].
  - left; reflexivity.
  - right. apply in_or_app. left. exact (in_l1_tables v i pg Hi H).
  - right. apply in_or_app. right. apply in_or_app. left.
    exact (in_l0_tables v i j pg Hi Hj H).
  - right. apply in_or_app. right. apply in_or_app. right. exact Hf.
Qed.




(** *** The heap branch, with the parent's PCB read once *)







(** ** Objects clear of a fork's byte writes *)










(** ** Claims about [proc_fork] *)




(** *** The heap copy: a mapping fails *)

(** Two page-aligned addresses less than 512 GiB apart differ in one of their
    three Sv39 indices. *)
Lemma vpn_triple_distinct a b :
  0 <= a -> 0 <= b -> a mod 4096 = 0 -> b mod 4096 = 0 -> a <> b ->
  Z.abs (a - b) < 2 ^ 39 ->
  (SV39_VPN2 a =? SV39_VPN2 b) && (SV39_VPN1 a =? SV39_VPN1 b) &&
  (SV39_VPN0 a =? SV39_VPN0 b) = false.
Proof.
  intros Ha Hb Hma Hmb Hne Hd.
  destruct (Z.eqb_spec (SV39_VPN2 a) (SV39_VPN2 b)) as [E2|]; [|reflexivity].
  destruct (Z.eqb_spec (SV39_VPN1 a) (SV39_VPN1 b)) as [E1|]; [|reflexivity].
  destruct (Z.eqb_spec (SV39_VPN0 a) (SV39_VPN0 b)) as [E0|]; [|reflexivity].
  exfalso. rewrite !SV39_VPN2_eq in E2. rewrite !SV39_VPN1_eq in E1.
  rewrite !SV39_VPN0_eq in E0.
  change (2 ^ 30) with (2 ^ 12 * 2 ^ 9 * 2 ^ 9) in E2.
  change (2 ^ 21) with (2 ^ 12 * 2 ^ 9) in E1.
  rewrite <- !Z.div_div in E2 by lia. rewrite <- !Z.div_div in E1 by lia.
  change (2 ^ 12) with 4096 in *. change (2 ^ 9) with 512 in *.
  pose proof (Z.div_mod a 4096 ltac:(lia)) as Da.
  pose proof (Z.div_mod b 4096 ltac:(lia)) as Db.
  rewrite Hma in Da. rewrite Hmb in Db.
  set (A := a / 4096) in *. set (B := b / 4096) in *.
  pose proof (Z.div_mod A 512 ltac:(lia)) as A0.
  pose proof (Z.div_mod B 512 ltac:(lia)) as B0.
  pose proof (Z.div_mod (A / 512) 512 ltac:(lia)) as A1.
  pose proof (Z.div_mod (B / 512) 512 ltac:(lia)) as B1.
  pose proof (Z.div_mod (A / 512 / 512) 512 ltac:(lia)) as A2.
  pose proof (Z.div_mod (B / 512 / 512) 512 ltac:(lia)) as B2.
  change (2 ^ 39) with 549755813888 in Hd.
  lia.
Qed.






(** *** Unmapping a page the walk finds *)

Lemma unmap_mapped_page s va :
  vmm_wf s -> kernel_pd s <> 0 -> va mod 4096 = 0 ->
  let pte := leaf s (SV39_VPN2 va) (SV39_VPN1 va) (SV39_VPN0 va) in
  present pte = true -> pte_to_phys pte <> 0 -> ~ owned_page s (pte_to_phys pte) ->
  let s' := snd (vmm_unmap va 1 s) in
  fst (vmm_unmap va 1 s) = 0 /\
  vmm_wf s' /\ kernel_pd s' = kernel_pd s /\ leaf_upd s s' va 0 /\
  freelist s' = pte_to_phys pte :: freelist s /\
  (forall pg, owned_page s' pg -> owned_page s pg \/ pg = pte_to_phys pte) /\
  (forall x, unowned s x -> ram s' x = ram s x).
Proof.
  intros Hwf Hpd Hva pte Hp Hnz Hno. cbv zeta. rewrite (vmm_unmap_eq s va 1 Hwf).
  rewrite (nonzero_eq_true _ Hpd). cbn [negb]. rewrite Hva. cbn [nonzero Z.eqb negb].
  unfold pte in *. unfold leaf in *.
  destruct (l0_at s (SV39_VPN2 va) (SV39_VPN1 va)) as [t0|] eqn:E0; [|discriminate].
  cbv zeta. rewrite Hp.
  change (nonzero 1) with true. cbv iota. cbn [fst snd].
  destruct (leaf_store_upd s va t0 0 Hwf E0 ltac:(unfold two64; lia)) as (X & U).
  set (s3 := set_ram (store64 (ram s) (pte_addr t0 (SV39_VPN0 va)) 0) s) in *.
  set (q := pte_to_phys (rd s t0 (SV39_VPN0 va))) in *.
  assert (Hno3 : ~ owned_page s3 q).
  { intros H. apply Hno. apply (ext_owned _ _ X). exact H. }
  destruct (kfree_spec s3 q (ext_wf _ _ X) (pte_to_phys_page_ok _) Hnz Hno3)
    as (Wk & Lk & Tk).
  split; [reflexivity|]. split; [exact Wk|]. split; [apply (ext_pd _ _ X)|].
  split.
  { intros i j k Hi Hj Hk. rewrite Lk by assumption. apply U; assumption. }
  split; [reflexivity|]. split.
  - intros pg [Ht|[E|Hf]].
    + left. apply (ext_owned _ _ X). left. apply Tk. exact Ht.
    + right. symmetry. exact E.
    + left. apply (ext_owned _ _ X). right. exact Hf.
  - intros x Hx. apply (ext_ram _ _ X). exact Hx.
Qed.

(** *** The rollback loop of [proc_fork] *)








(** ** Claim about the persistence of a mapping *)

(** *** Calls on other page slots keep a translation *)

Lemma same_slot_false_upd s s1 va va' v :
  same_slot va' va = false -> leaf_upd s s1 va' v ->
  leaf s1 (SV39_VPN2 va) (SV39_VPN1 va) (SV39_VPN0 va) =
  leaf s (SV39_VPN2 va) (SV39_VPN1 va) (SV39_VPN0 va).
Proof.
  intros Hs U. rewrite U by auto.
  unfold same_slot in Hs.
  rewrite (Z.eqb_sym (SV39_VPN2 va)), (Z.eqb_sym (SV39_VPN1 va)),
          (Z.eqb_sym (SV39_VPN0 va)), Hs.
  reflexivity.
Qed.

(** One spared call keeps the table tree well formed, the root in place and
    the level-0 entry of [va]. *)
Lemma op_spares_keeps va op s :
  vmm_wf s -> kernel_pd s <> 0 -> op_spares va op s ->
  vmm_wf (run_op op s) /\ kernel_pd (run_op op s) = kernel_pd s /\
  leaf (run_op op s) (SV39_VPN2 va) (SV39_VPN1 va) (SV39_VPN0 va) =
  leaf s (SV39_VPN2 va) (SV39_VPN1 va) (SV39_VPN0 va).
Proof.
  intros Hwf Hpd [Hslot Hop]. destruct op as [va' pa' f'|va' f'|va' fr]; cbn [run_op op_va] in *.
  - (* vmm_map *)
    destruct (vmm_map va' pa' f' s) as [r s1] eqn:M. cbn [snd].
    destruct (vmm_map_spec s va' pa' f' r s1 Hwf Hpd Hop M) as (X & Hres).
    split; [apply X|]. split; [apply X|].
    destruct Hres as [(_ & _ & _ & U)|(_ & LS)].
    + exact (same_slot_false_upd s s1 va va' _ Hslot U).
    + apply LS; auto.
  - (* vmm_map_page *)
    destruct (vmm_map_page va' f' s) as [r s1] eqn:M. cbn [snd].
    destruct (vmm_map_page_spec s va' f' r s1 Hwf Hpd M) as (X & Hres).
    split; [apply X|]. split; [apply X|].
    destruct Hres as [(_ & _ & p & _ & _ & _ & _ & U)|(_ & LS)].
    + exact (same_slot_false_upd s s1 va va' _ Hslot U).
    + apply LS; auto.
  - (* vmm_unmap *)
    rewrite (vmm_unmap_eq s va' fr Hwf).
    rewrite (nonzero_eq_true _ Hpd). cbn [negb].
    destruct (nonzero (va' mod 4096)); [cbn [snd]; auto|].
    unfold leaf in Hop.
    destruct (l0_at s (SV39_VPN2 va') (SV39_VPN1 va')) as [t0|] eqn:E0; [|cbn [snd]; auto].
    cbv zeta.
    destruct (present (rd s t0 (SV39_VPN0 va'))) eqn:Ep; [|cbn [snd]; auto].
    cbn [snd].
    destruct (leaf_store_upd s va' t0 0 Hwf E0 ltac:(unfold two64; lia)) as (X & U).
    set (s3 := set_ram (store64 (ram s) (pte_addr t0 (SV39_VPN0 va')) 0) s) in *.
    pose proof (same_slot_false_upd s s3 va va' 0 Hslot U) as L3.
    destruct (nonzero fr) eqn:Efr.
    + apply nonzero_true in Efr.
      destruct Hop as [Hz|[Hnz Hno]]; [contradiction|].
      assert (Hno3 : ~ owned_page s3 (pte_to_phys (rd s t0 (SV39_VPN0 va')))).
      { intros H. apply Hno. apply (ext_owned _ _ X). exact H. }
      destruct (kfree_spec s3 _ (ext_wf _ _ X) (pte_to_phys_page_ok _) Hnz Hno3)
        as (Wk & Lk & _).
      split; [exact Wk|]. split; [apply (ext_pd _ _ X)|].
      rewrite Lk by auto. exact L3.
    + split; [apply X|]. split; [apply X|exact L3].
Qed.

Lemma ops_spare_keeps va : forall ops s,
  vmm_wf s -> kernel_pd s <> 0 -> ops_spare va ops s ->
  vmm_wf (run_ops ops s) /\ kernel_pd (run_ops ops s) = kernel_pd s /\
  leaf (run_ops ops s) (SV39_VPN2 va) (SV39_VPN1 va) (SV39_VPN0 va) =
  leaf s (SV39_VPN2 va) (SV39_VPN1 va) (SV39_VPN0 va).
Proof.
  induction ops as [|op ops IH]; intros s Hwf Hpd Hops.
  - cbn [run_ops]. auto.
  - cbn [run_ops ops_spare] in *. destruct Hops as [Hop Hrest].
    destruct (op_spares_keeps va op s Hwf Hpd Hop) as (W1 & K1 & L1).
    destruct (IH (run_op op s) W1 ltac:(rewrite K1; exact Hpd) Hrest) as (W2 & K2 & L2).
    split; [exact W2|]. split; [rewrite K2; exact K1|]. rewrite L2. exact L1.
Qed.

(** C1 (as the code behaves).  After a successful [vmm_map va pa f],
    [vmm_translate va] returns [pa], and it still returns [pa] after any
    further sequence of [vmm_map], [vmm_map_page] and [vmm_unmap] calls that
    work on other page slots (other triples of Sv39 indices), where every
    [vmm_unmap] that frees releases a non-null page the memory subsystem does
    not own.  (A later [vmm_map] of [va] replaces the translation, and a
    [vmm_unmap] that frees a page-table page lets a later call destroy it.) *)
Theorem vmm_map_translation_persists (s : vstate) (va pa f : Z) (ops : list vmm_op) :
  vmm_wf s -> 0 <= pa < two64 ->
  fst (vmm_map va pa f s) = 0 ->
  ops_spare va ops (snd (vmm_map va pa f s)) ->
  vmm_translate va (snd (vmm_map va pa f s)) = pa /\
  vmm_translate va (run_ops ops (snd (vmm_map va pa f s))) = pa.
Proof.
  intros Hwf Hpa Hr Hops.
  split; [apply vmm_map_translate_now; assumption|].
  destruct (vmm_map_ok s va pa f Hwf Hpa Hr) as (X & Hpd & Hva & Hpa' & U).
  set (s1 := snd (vmm_map va pa f s)) in *.
  destruct (ops_spare_keeps va ops s1 (ext_wf _ _ X) Hpd Hops) as (W & K & L).
  apply (translate_of_leaf _ va pa (vmm_flags_to_pte_flags (Z.lor f VMM_P_PRESENT))).
  - exact W.
  - rewrite K. exact Hpd.
  - exact Hva.
  - split; assumption.
  - rewrite L. apply (leaf_upd_at _ _ _ _ U).
  - apply present_installed. exact Hpa.
Qed.

Lemma vmm_map_translation_persists_witness :
  let s1 := snd (vmm_map 0x80400000 0x80500000 6 demo_vm) in
  let ops := [OpMap 0x80401000 0x80501000 2; OpMapPage 0x80402000 6;
              OpUnmap 0x80401000 0; OpUnmap 0x80402000 1] in
  vmm_translate 0x80400000 s1 = 0x80500000 /\
  vmm_translate 0x80400000 (run_ops ops s1) = 0x80500000.
Proof.
  apply (vmm_map_translation_persists demo_vm 0x80400000 0x80500000 6).
  - exact demo_vm_wf.
  - unfold two64. lia.
  - vm_compute. reflexivity.
  - cbn [ops_spare]. unfold op_spares. cbn [op_va].
    split; [split; [vm_compute; reflexivity|unfold two64; lia]|].
    split; [split; [vm_compute; reflexivity|exact I]|].
    split; [split; [vm_compute; reflexivity|left; reflexivity]|].
    split; [|exact I].
    split; [vm_compute; reflexivity|]. right. cbv zeta.
    split; [vm_compute; discriminate|].
    intros H. apply owned_pages_sound in H. revert H. vm_compute.
    intuition discriminate.
Defined.

(** C1, counterexample.  Without any [vmm_unmap] of [va = 0x80012000], its
    translation does not stay [pa = 0x80013000]: a second [vmm_map] of [va]
    replaces it; and in a state where the page [0x80011000] is mapped to
    itself and is the level-0 table of [va] (the identity map of [vmm_init]
    makes such states), [vmm_unmap 0x80011000] with [free_phys] followed by a
    [vmm_map] of [0x40000000], which takes the freed table page as a new
    table and zeroes it, leaves [va] unmapped. *)
Lemma vmm_map_translation_lost :
  let va := 0x80012000 in
  let s1 := snd (vmm_map va 0x80013000 VMM_P_RW self_mapped_vm) in
  let s2 := snd (vmm_map va 0x80012000 VMM_P_RW s1) in
  let s3 := snd (vmm_map 0x40000000 0x80013000 VMM_P_RW
                   (snd (vmm_unmap 0x80011000 1 s1))) in
  fst (vmm_map va 0x80013000 VMM_P_RW self_mapped_vm) = 0 /\
  vmm_translate va s1 = 0x80013000 /\
  fst (vmm_map va 0x80012000 VMM_P_RW s1) = 0 /\
  vmm_translate va s2 = 0x80012000 /\
  same_slot 0x80011000 va = false /\ same_slot 0x40000000 va = false /\
  fst (vmm_unmap 0x80011000 1 s1) = 0 /\
  fst (vmm_map 0x40000000 0x80013000 VMM_P_RW (snd (vmm_unmap 0x80011000 1 s1))) = 0 /\
  vmm_translate va s3 = NULL.
Proof. vm_compute. repeat split; reflexivity. Qed.


(** * Further properties of the virtual-memory manager *)

(** ** Page-table entries *)

(** [make_pte] keeps the page number of any 64-bit address and the ten flag
    bits; [pte_to_phys] gives back the address rounded down to its page. *)
Theorem make_pte_round_trip (pa f : Z) :
  0 <= pa < two64 ->
  pte_to_phys (make_pte pa f) = pa - pa mod 4096 /\
  make_pte pa f mod 1024 = f mod 1024.
Proof.
  intros Hpa. split; [|apply make_pte_flags; exact Hpa].
  rewrite pte_to_phys_eq, make_pte_eq by exact Hpa.
  pose proof (Z.mod_pos_bound f 1024 ltac:(lia)).
  replace ((pa / 4096 * 1024 + f mod 1024) / 1024) with (pa / 4096).
  - pose proof (Z.div_mod pa 4096 ltac:(lia)).
    pose proof (Z.mod_pos_bound pa 4096 ltac:(lia)).
    rewrite u64_small by lia. lia.
  - symmetry. rewrite Z.add_comm, Z.div_add by lia.
    rewrite Z.div_small by lia. lia.
Qed.

Lemma make_pte_round_trip_witness :
  pte_to_phys (make_pte 0x80012345 0xCF) = 0x80012000 /\
  make_pte 0x80012345 0xCF mod 1024 = 0xCF.
Proof.
  exact (make_pte_round_trip 0x80012345 0xCF ltac:(unfold two64; lia)).
Defined.

(** [vmm_flags_to_pte_flags] sets [V] from [VMM_P_PRESENT], [R], [W] and [X]
    together from [VMM_P_RW], [U] from [VMM_P_USER], always [A] and [D], and
    nothing else: [G] and the software bits stay clear, whatever other bits
    the argument has. *)
Theorem vmm_flags_to_pte_flags_value (f : Z) :
  vmm_flags_to_pte_flags f =
  (if Z.testbit f 0 then 1 else 0) + (if Z.testbit f 1 then 14 else 0) +
  (if Z.testbit f 2 then 16 else 0) + 192.
Proof.
  unfold vmm_flags_to_pte_flags. cbv zeta.
  change VMM_P_PRESENT with (2 ^ 0). change VMM_P_RW with (2 ^ 1).
  change VMM_P_USER with (2 ^ 2).
  rewrite !nonzero_land_pow2 by lia.
  destruct (Z.testbit f 0), (Z.testbit f 1), (Z.testbit f 2); reflexivity.
Qed.

(** ** [vmm_map] *)

(** Without a root table, or with a virtual or physical address that is not
    4 KiB aligned, [vmm_map] returns -1 and changes nothing: it allocates no
    table. *)
Theorem vmm_map_rejects (va pa f : Z) (s : vstate) :
  kernel_pd s = NULL \/ va mod 4096 <> 0 \/ pa mod 4096 <> 0 ->
  vmm_map va pa f s = (-1, s).
Proof.
  intros H. unfold vmm_map. cbv zeta.
  destruct (nonzero (kernel_pd s)) eqn:Epd; cbn [negb]; [|reflexivity].
  apply nonzero_true in Epd.
  change (VMM_PAGE_SIZE - 1) with 4095. rewrite !land_4095.
  destruct H as [H|[H|H]]; [contradiction| |].
  - rewrite (nonzero_eq_true _ H). reflexivity.
  - rewrite (nonzero_eq_true _ H). rewrite orb_true_r. reflexivity.
Qed.

Lemma vmm_map_rejects_witness :
  vmm_map 0x80400800 0x80012000 VMM_P_RW demo_vm = (-1, demo_vm).
Proof.
  apply vmm_map_rejects. right; left. vm_compute. discriminate.
Defined.

Lemma vmm_translate_same_leaf s s1 va :
  vmm_wf s -> vmm_wf s1 -> kernel_pd s1 = kernel_pd s ->
  leaf s1 (SV39_VPN2 va) (SV39_VPN1 va) (SV39_VPN0 va) =
  leaf s (SV39_VPN2 va) (SV39_VPN1 va) (SV39_VPN0 va) ->
  vmm_translate va s1 = vmm_translate va s.
Proof.
  intros Hwf Hwf1 Hk Hl.
  destruct (Z.eq_dec (kernel_pd s) 0) as [Hz|Hpd].
  - unfold vmm_translate. rewrite Hk, Hz. reflexivity.
  - rewrite !vmm_translate_spec by (auto; congruence). cbv zeta. rewrite Hl. reflexivity.
Qed.

(** When [vmm_map] fails, every translation is what it was, although the walk
    may have taken a page from the allocator for a table: the free list can
    only have lost pages, and the table tree is still well formed. *)
Theorem vmm_map_failure_keeps_translations (va pa f : Z) (s : vstate) :
  vmm_wf s -> 0 <= pa < two64 ->
  fst (vmm_map va pa f s) = -1 ->
  let s1 := snd (vmm_map va pa f s) in
  vmm_wf s1 /\ kernel_pd s1 = kernel_pd s /\
  (forall q, In q (freelist s1) -> In q (freelist s)) /\
  forall va', vmm_translate va' s1 = vmm_translate va' s.
Proof.
  intros Hwf Hpa Hr s1.
  destruct (Z.eq_dec (kernel_pd s) 0) as [Hz|Hpd].
  { unfold s1. rewrite vmm_map_rejects by (left; exact Hz). cbn [snd]. auto. }
  destruct (vmm_map va pa f s) as [r s'] eqn:M. cbn [fst snd] in *. subst r s1.
  destruct (vmm_map_spec s va pa f _ s' Hwf Hpd Hpa M) as (X & [(Hc & _)|(_ & LS)]);
    [discriminate|].
  split; [apply X|]. split; [apply X|]. split; [apply X|].
  intros va'. apply vmm_translate_same_leaf; [exact Hwf|apply X|apply X|].
  apply LS; auto.
Qed.

Lemma one_page_vm_wf : vmm_wf (set_freelist [0x80010000] demo_vm).
Proof. apply vmm_wfb_sound. vm_compute. reflexivity. Qed.

Lemma vmm_map_failure_keeps_translations_witness :
  let s := set_freelist [0x80010000] demo_vm in
  let s1 := snd (vmm_map 0x80400000 0x80012000 VMM_P_RW s) in
  vmm_wf s1 /\ kernel_pd s1 = kernel_pd s /\
  (forall q, In q (freelist s1) -> In q (freelist s)) /\
  forall va', vmm_translate va' s1 = vmm_translate va' s.
Proof.
  apply (vmm_map_failure_keeps_translations 0x80400000 0x80012000 VMM_P_RW
           (set_freelist [0x80010000] demo_vm)).
  - exact one_page_vm_wf.
  - unfold two64. lia.
  - vm_compute. reflexivity.
Defined.

(** A successful [vmm_map] changes the translation of no address in another
    page slot (another triple of Sv39 indices). *)
Theorem vmm_map_other_pages (va pa f va' : Z) (s : vstate) :
  vmm_wf s -> 0 <= pa < two64 ->
  fst (vmm_map va pa f s) = 0 ->
  (SV39_VPN2 va', SV39_VPN1 va', SV39_VPN0 va') <>
  (SV39_VPN2 va, SV39_VPN1 va, SV39_VPN0 va) ->
  vmm_translate va' (snd (vmm_map va pa f s)) = vmm_translate va' s.
Proof.
  intros Hwf Hpa Hr Hne.
  destruct (vmm_map_ok s va pa f Hwf Hpa Hr) as (X & Hpd & _ & _ & U).
  apply vmm_translate_same_leaf; [exact Hwf|apply X|apply X|].
  rewrite U by auto.
  destruct (Z.eqb_spec (SV39_VPN2 va') (SV39_VPN2 va)) as [E2|]; [|reflexivity].
  destruct (Z.eqb_spec (SV39_VPN1 va') (SV39_VPN1 va)) as [E1|]; [|reflexivity].
  destruct (Z.eqb_spec (SV39_VPN0 va') (SV39_VPN0 va)) as [E0|]; [|reflexivity].
  exfalso. apply Hne. congruence.
Qed.

Lemma vmm_map_other_pages_witness :
  vmm_translate 0x80011000 (snd (vmm_map 0x80400000 0x80013000 VMM_P_RW self_mapped_vm)) =
  vmm_translate 0x80011000 self_mapped_vm.
Proof.
  apply vmm_map_other_pages.
  - exact self_mapped_vm_wf.
  - unfold two64. lia.
  - vm_compute. reflexivity.
  - vm_compute. discriminate.
Defined.

(** ** [vmm_translate] *)

Lemma lor_page_offset p off :
  0 <= p -> p mod 4096 = 0 -> 0 <= off < 4096 -> Z.lor p off = p + off.
Proof.
  intros Hp Hm Ho.
  assert (Hl : Z.land p off = 0).
  { apply Z.bits_inj'. intros n Hn. rewrite Z.land_spec, Z.bits_0.
    destruct (Z_lt_ge_dec n 12) as [Hlt|Hge].
    - pose proof (Z.div_mod p 4096 ltac:(lia)) as D. rewrite Hm, Z.add_0_r in D.
      rewrite D. change 4096 with (2 ^ 12). rewrite Z.mul_comm.
      rewrite Z.mul_pow2_bits_low by lia. reflexivity.
    - destruct (Z.eq_dec off 0) as [->|Hnz]; [rewrite Z.bits_0; apply andb_false_r|].
      rewrite (Z.bits_above_log2 off n); [apply andb_false_r|lia|].
      assert (Z.log2 off < 12); [|lia].
      apply Z.log2_lt_pow2; [lia|]. change (2 ^ 12) with 4096. lia. }
  rewrite <- Z.lxor_lor by exact Hl. symmetry. apply Z.add_nocarry_lxor. exact Hl.
Qed.

Lemma vpn_of_page_offset va off :
  va mod 4096 = 0 -> 0 <= off < 4096 ->
  SV39_VPN2 (va + off) = SV39_VPN2 va /\ SV39_VPN1 (va + off) = SV39_VPN1 va /\
  SV39_VPN0 (va + off) = SV39_VPN0 va /\ SV39_PAGE_OFFSET (va + off) = off.
Proof.
  intros Hm Ho.
  assert (Hd : (va + off) / 2 ^ 12 = va / 2 ^ 12).
  { change (2 ^ 12) with 4096.
    pose proof (Z.div_mod va 4096 ltac:(lia)) as D. rewrite Hm, Z.add_0_r in D.
    rewrite D at 1. rewrite Z.mul_comm, Z.div_add_l by lia.
    rewrite (Z.div_small off) by lia. lia. }
  rewrite !SV39_VPN2_eq, !SV39_VPN1_eq, !SV39_VPN0_eq.
  change (2 ^ 30) with (2 ^ 12 * 2 ^ 18). change (2 ^ 21) with (2 ^ 12 * 2 ^ 9).
  rewrite <- !Z.div_div by lia. rewrite Hd.
  repeat split; try reflexivity.
  unfold SV39_PAGE_OFFSET. change 0xFFF with 4095. rewrite land_4095.
  rewrite Z.add_mod, Hm by lia. cbn [Z.add]. rewrite Z.mod_mod by lia.
  apply Z.mod_small. exact Ho.
Qed.

(** The translation of an address inside a mapped page keeps the page offset:
    it is the translation of the page plus the offset. *)
Theorem vmm_translate_page_offset (va off : Z) (s : vstate) :
  vmm_wf s -> va mod 4096 = 0 -> 0 <= off < 4096 ->
  vmm_translate va s <> NULL ->
  vmm_translate (va + off) s = vmm_translate va s + off.
Proof.
  intros Hwf Hva Ho Hne.
  assert (Hpd : kernel_pd s <> 0).
  { intros Hz. apply Hne. unfold vmm_translate. rewrite Hz. reflexivity. }
  destruct (vpn_of_page_offset va off Hva Ho) as (E2 & E1 & E0 & Eo).
  destruct (vpn_of_page_offset va 0 Hva ltac:(lia)) as (_ & _ & _ & Eo0).
  rewrite Z.add_0_r in Eo0.
  rewrite vmm_translate_spec in Hne |- * by assumption.
  rewrite (vmm_translate_spec s va) by assumption. cbv zeta in *.
  rewrite E2, E1, E0, Eo. rewrite Eo0 in *.
  destruct (present (leaf s (SV39_VPN2 va) (SV39_VPN1 va) (SV39_VPN0 va)));
    [|contradiction].
  rewrite Z.lor_0_r.
  pose proof (pte_to_phys_page_ok (leaf s (SV39_VPN2 va) (SV39_VPN1 va) (SV39_VPN0 va)))
    as [Hr Hm].
  apply lor_page_offset; [lia|exact Hm|exact Ho].
Qed.

Lemma vmm_translate_page_offset_witness :
  vmm_translate (0x80011000 + 0x123) self_mapped_vm =
  vmm_translate 0x80011000 self_mapped_vm + 0x123.
Proof.
  apply vmm_translate_page_offset.
  - exact self_mapped_vm_wf.
  - reflexivity.
  - lia.
  - vm_compute. discriminate.
Defined.

(** ** [vmm_unmap] *)

(** A second [vmm_unmap] of the same address finds the entry invalid: it
    returns -1 and changes nothing.  (Without [free_phys] the first call only
    clears the entry.) *)
Theorem vmm_unmap_twice (va : Z) (s : vstate) :
  vmm_wf s -> fst (vmm_unmap va 0 s) = 0 ->
  let s1 := snd (vmm_unmap va 0 s) in
  vmm_wf s1 /\ freelist s1 = freelist s /\ vmm_unmap va 0 s1 = (-1, s1).
Proof.
  intros Hwf Hr. cbv zeta. rewrite (vmm_unmap_eq s va 0 Hwf) in Hr |- *.
  destruct (nonzero (kernel_pd s)) eqn:Epd; cbn [negb] in *; [|discriminate].
  destruct (nonzero (va mod 4096)) eqn:Eva; [discriminate|].
  destruct (l0_at s (SV39_VPN2 va) (SV39_VPN1 va)) as [t0|] eqn:E0; [|discriminate].
  cbv zeta in *.
  destruct (present (rd s t0 (SV39_VPN0 va))) eqn:Ep; [|discriminate].
  change (nonzero 0) with false. cbv iota. cbn [snd].
  destruct (leaf_store_upd s va t0 0 Hwf E0 ltac:(unfold two64; lia)) as (X & U).
  set (s3 := set_ram (store64 (ram s) (pte_addr t0 (SV39_VPN0 va)) 0) s) in *.
  split; [apply X|]. split; [reflexivity|].
  rewrite (vmm_unmap_eq s3 va 0 (ext_wf _ _ X)).
  rewrite (ext_pd _ _ X), Epd, Eva. cbn [negb].
  pose proof (leaf_upd_at _ _ _ _ U) as L3. unfold leaf in L3.
  destruct (l0_at s3 (SV39_VPN2 va) (SV39_VPN1 va)) as [t3|]; [|reflexivity].
  cbv zeta. rewrite L3. reflexivity.
Qed.

Lemma vmm_unmap_twice_witness :
  let s1 := snd (vmm_unmap 0x80011000 0 self_mapped_vm) in
  vmm_wf s1 /\ freelist s1 = freelist self_mapped_vm /\
  vmm_unmap 0x80011000 0 s1 = (-1, s1).
Proof.
  apply vmm_unmap_twice.
  - exact self_mapped_vm_wf.
  - vm_compute. reflexivity.
Defined.

(** ** [vmm_map_page] *)

(** [vmm_map_page] followed by [vmm_unmap] with [free_phys]: the address is
    unmapped again and the page [vmm_map_page] took from the allocator is back
    at the head of the free list. *)
Theorem vmm_map_page_then_unmap (va f : Z) (s : vstate) :
  vmm_wf s -> kernel_pd s <> 0 ->
  fst (vmm_map_page va f s) = 0 ->
  let s1 := snd (vmm_map_page va f s) in
  let s2 := snd (vmm_unmap va 1 s1) in
  vmm_translate va s1 <> NULL /\ In (vmm_translate va s1) (freelist s) /\
  fst (vmm_unmap va 1 s1) = 0 /\
  vmm_translate va s2 = NULL /\
  freelist s2 = vmm_translate va s1 :: freelist s1 /\
  vmm_wf s2.
Proof.
  intros Hwf Hpd Hr. cbv zeta.
  destruct (vmm_map_page va f s) as [r s1] eqn:M. cbn [fst snd] in *. subst r.
  destruct (vmm_map_page_spec s va f 0 s1 Hwf Hpd M)
    as (X & [(_ & Hva & p & Hp1 & Hp2 & Hp3 & Hp4 & U)|(Hc & _)]); [|discriminate].
  pose proof (leaf_upd_at _ _ _ _ U) as L.
  assert (Hpd1 : kernel_pd s1 <> 0) by (rewrite (ext_pd _ _ X); exact Hpd).
  assert (Hpr : present (make_pte p (vmm_flags_to_pte_flags (Z.lor f VMM_P_PRESENT))) = true)
    by (apply present_installed; apply Hp3).
  assert (T1 : vmm_translate va s1 = p).
  { apply (translate_of_leaf s1 va p _ (ext_wf _ _ X) Hpd1 Hva Hp3 L Hpr). }
  rewrite T1.
  destruct (unmap_mapped_page s1 va (ext_wf _ _ X) Hpd1 Hva) as (R & W2 & K2 & U2 & F2 & _).
  { rewrite L. exact Hpr. }
  { rewrite L, pte_to_phys_make_pte by exact Hp3. exact Hp4. }
  { rewrite L, pte_to_phys_make_pte by exact Hp3. exact Hp2. }
  rewrite L, pte_to_phys_make_pte in F2 by exact Hp3.
  split; [exact Hp4|]. split; [exact Hp1|]. split; [exact R|].
  split; [|split; [exact F2|exact W2]].
  apply translate_of_absent; [exact W2|].
  rewrite (leaf_upd_at _ _ _ _ U2). reflexivity.
Qed.

Lemma vmm_map_page_then_unmap_witness :
  let s1 := snd (vmm_map_page 0x80400000 VMM_P_RW demo_vm) in
  let s2 := snd (vmm_unmap 0x80400000 1 s1) in
  vmm_translate 0x80400000 s1 <> NULL /\
  In (vmm_translate 0x80400000 s1) (freelist demo_vm) /\
  fst (vmm_unmap 0x80400000 1 s1) = 0 /\
  vmm_translate 0x80400000 s2 = NULL /\
  freelist s2 = vmm_translate 0x80400000 s1 :: freelist s1 /\
  vmm_wf s2.
Proof.
  apply vmm_map_page_then_unmap.
  - exact demo_vm_wf.
  - vm_compute. discriminate.
  - vm_compute. reflexivity.
Defined.

(** A [vmm_map_page] that fails on a misaligned address returns -1 with the
    free list and every translation as before; the page it had taken from
    the allocator is back on the list, but zeroed. *)
Theorem vmm_map_page_misaligned (va f : Z) (s : vstate) (p : Z) (rest : list Z) :
  vmm_wf s -> kernel_pd s <> 0 -> va mod 4096 <> 0 ->
  freelist s = p :: rest ->
  let s1 := snd (vmm_map_page va f s) in
  fst (vmm_map_page va f s) = -1 /\
  freelist s1 = freelist s /\ vmm_wf s1 /\
  (forall va', vmm_translate va' s1 = vmm_translate va' s) /\
  (forall x, in_page p x -> ram s1 x = 0) /\
  (forall x, ~ in_page p x -> ram s1 x = ram s x).
Proof.
  intros Hwf Hpd Hva F. cbv zeta.
  destruct (lr_p s p rest Hwf F) as (H1 & H2 & H3 & H4 & H5).
  destruct (pop_zero_spec s p rest Hwf F) as (X2 & S2 & N2).
  unfold vmm_map_page, kalloc. rewrite F.
  rewrite (nonzero_eq_true _ H2). cbn [negb]. cbv zeta.
  set (s2 := set_ram (page_zero p (ram (set_freelist rest s))) (set_freelist rest s)) in *.
  rewrite (vmm_map_rejects va p f s2) by (right; left; exact Hva).
  change (nonzero (-1)) with true. cbv iota. cbn [fst snd].
  destruct (kfree_spec s2 p (ext_wf _ _ X2) H1 H2 N2) as (Wk & Lk & Tk).
  split; [reflexivity|]. split; [reflexivity|]. split; [exact Wk|].
  split; [|split].
  - intros va'. apply vmm_translate_same_leaf; [exact Hwf|exact Wk|reflexivity|].
    rewrite Lk, S2 by auto. reflexivity.
  - intros x Hx. unfold kfree, s2. cbn [ram set_ram set_freelist].
    apply page_zero_in; [exact H1|exact Hx].
  - intros x Hx. unfold kfree, s2. cbn [ram set_ram set_freelist].
    apply page_zero_out; [exact H1|exact Hx].
Qed.

Lemma vmm_map_page_misaligned_witness :
  let s1 := snd (vmm_map_page 0x80400800 VMM_P_RW demo_vm) in
  fst (vmm_map_page 0x80400800 VMM_P_RW demo_vm) = -1 /\
  freelist s1 = freelist demo_vm /\ vmm_wf s1 /\
  (forall va', vmm_translate va' s1 = vmm_translate va' demo_vm) /\
  (forall x, in_page 0x80010000 x -> ram s1 x = 0) /\
  (forall x, ~ in_page 0x80010000 x -> ram s1 x = ram demo_vm x).
Proof.
  apply (vmm_map_page_misaligned 0x80400800 VMM_P_RW demo_vm 0x80010000
           [0x80011000; 0x80012000; 0x80013000]).
  - exact demo_vm_wf.
  - vm_compute. discriminate.
  - vm_compute. discriminate.
  - reflexivity.
Defined.

(** ** [map_identity_range] *)

Lemma land_page_mask a :
  0 <= a < two64 ->
  Z.land a (Z.lxor (two64 - 1) (VMM_PAGE_SIZE - 1)) = a - a mod 4096.
Proof.
  intros Ha.
  change (Z.lxor (two64 - 1) (VMM_PAGE_SIZE - 1)) with (Z.ldiff (Z.ones 64) (Z.ones 12)).
  assert (E : a - a mod 4096 = Z.shiftl (Z.shiftr a 12) 12).
  { rewrite Z.shiftr_div_pow2, Z.shiftl_mul_pow2 by lia. change (2 ^ 12) with 4096.
    pose proof (Z.div_mod a 4096 ltac:(lia)). lia. }
  rewrite E. apply Z.bits_inj'. intros n Hn.
  rewrite Z.land_spec, Z.ldiff_spec.
  destruct (Z_lt_ge_dec n 12) as [Hlt|Hge].
  - rewrite Z.shiftl_spec_low by lia.
    rewrite (Z.ones_spec_low 12 n) by lia. cbn [negb]. rewrite andb_false_r.
    apply andb_false_r.
  - rewrite Z.shiftl_spec_high by lia. rewrite Z.shiftr_spec by lia.
    replace (n - 12 + 12) with n by lia.
    rewrite (Z.ones_spec_high 12 n) by lia. cbn [negb]. rewrite andb_true_r.
    destruct (Z_lt_ge_dec n 64) as [Hlt|Hge'].
    + rewrite (Z.ones_spec_low 64 n) by lia. apply andb_true_r.
    + rewrite (Z.ones_spec_high 64 n) by lia. rewrite andb_false_r.
      destruct (Z.eq_dec a 0) as [->|Hnz]; [symmetry; apply Z.bits_0|].
      symmetry. apply Z.bits_above_log2; [lia|].
      assert (Z.log2 a < 64); [|lia].
      apply Z.log2_lt_pow2; [lia|]. unfold two64 in Ha. lia.
Qed.

(** One run of the loop: every level-0 entry is as before or is the identity
    entry of a page of the range. *)
Lemma map_identity_loop_leaves f end_ : forall fuel addr s,
  vmm_wf s -> kernel_pd s <> 0 -> 0 <= addr -> addr mod 4096 = 0 ->
  end_ <= two64 - 4096 ->
  let s' := map_identity_loop fuel addr end_ f s in
  forall i j k, idx i -> idx j -> idx k ->
    leaf s' i j k = leaf s i j k \/
    exists va, addr <= va < end_ /\ va mod 4096 = 0 /\
      i = SV39_VPN2 va /\ j = SV39_VPN1 va /\ k = SV39_VPN0 va /\
      leaf s' i j k = make_pte va (vmm_flags_to_pte_flags (Z.lor f VMM_P_PRESENT)).
Proof.
  induction fuel as [|fuel IH]; intros addr s Hwf Hpd Ha Hal He s' i j k Hi Hj Hk.
  - left. reflexivity.
  - unfold s'. cbn [map_identity_loop].
    destruct (Z.ltb_spec addr end_) as [Hlt|Hge]; [|left; reflexivity].
    destruct (vmm_map addr addr f s) as [r s1] eqn:M.
    assert (Hr : 0 <= addr < two64) by lia.
    destruct (vmm_map_spec s addr addr f r s1 Hwf Hpd Hr M) as (X & Hres).
    assert (Hn : u64 (addr + VMM_PAGE_SIZE) = addr + 4096).
    { apply u64_small. unfold VMM_PAGE_SIZE, PAGE_SIZE. lia. }
    rewrite Hn.
    assert (Hal' : (addr + 4096) mod 4096 = 0).
    { rewrite <- (Z.mul_1_l 4096) at 1. rewrite Z.mod_add by lia. exact Hal. }
    assert (Hpd1 : kernel_pd s1 <> 0) by (rewrite (ext_pd _ _ X); exact Hpd).
    destruct (IH (addr + 4096) s1 (ext_wf _ _ X) Hpd1 ltac:(lia) Hal' He i j k Hi Hj Hk)
      as [E|(va & Hva & Hm & E2 & E1 & E0 & El)].
    + rewrite E.
      destruct Hres as [(_ & _ & _ & U)|(_ & LS)]; [|left; apply LS; auto].
      rewrite U by auto.
      destruct ((i =? SV39_VPN2 addr) && (j =? SV39_VPN1 addr) && (k =? SV39_VPN0 addr))
        eqn:Et; [|left; reflexivity].
      apply andb_true_iff in Et. destruct Et as [Et Et0].
      apply andb_true_iff in Et. destruct Et as [Et2 Et1].
      apply Z.eqb_eq in Et2, Et1, Et0.
      right. exists addr. repeat split; auto; lia.
    + right. exists va. repeat split; auto; lia.
Qed.

(** [map_identity_range] maps pages to themselves only: after it, an aligned
    address translates as before the call, or it is a page of the range and
    translates to itself.  The range does not reach the last page of the
    address space, and [va] is less than 512 GiB away from every address of
    the range (which makes its Sv39 indices differ from theirs). *)
Theorem map_identity_range_identity (start end_ f va : Z) (s : vstate) :
  vmm_wf s -> kernel_pd s <> 0 ->
  0 <= start -> end_ <= two64 - 4096 ->
  va mod 4096 = 0 -> 0 <= va ->
  (forall x, start - start mod 4096 <= x < end_ -> Z.abs (va - x) < 2 ^ 39) ->
  let s' := map_identity_range start end_ f s in
  (start - start mod 4096 <= va < end_ /\ vmm_translate va s' = va) \/
  vmm_translate va s' = vmm_translate va s.
Proof.
  intros Hwf Hpd Hs He Hva Hva0 Hnear s'.
  pose proof (Z.mod_pos_bound start 4096 ltac:(lia)) as Hmb.
  pose proof (Z.mod_le start 4096 Hs ltac:(lia)) as Hml.
  assert (Hs' : s' = s \/ (0 <= start < two64 /\
            s' = map_identity_loop
                   (Z.to_nat ((end_ - (start - start mod 4096)) / VMM_PAGE_SIZE + 1))
                   (start - start mod 4096) end_ f s)).
  { unfold s', map_identity_range.
    destruct (Z.leb_spec end_ start) as [Hle|Hlt]; [left; reflexivity|].
    right. assert (Hr : 0 <= start < two64) by lia.
    split; [exact Hr|]. rewrite (land_page_mask start Hr). reflexivity. }
  destruct Hs' as [->|[Hr Hs']]; [right; reflexivity|].
  set (a0 := start - start mod 4096) in *.
  assert (Ha0 : a0 mod 4096 = 0).
  { unfold a0. rewrite Zminus_mod_idemp_r. rewrite Z.sub_diag. reflexivity. }
  pose proof (map_identity_loop_leaves f end_
                (Z.to_nat ((end_ - a0) / VMM_PAGE_SIZE + 1)) a0 s Hwf Hpd
                ltac:(unfold a0; lia) Ha0 He
                (SV39_VPN2 va) (SV39_VPN1 va) (SV39_VPN0 va)
                (idx_vpn2 va) (idx_vpn1 va) (idx_vpn0 va)) as Hl.
  rewrite <- Hs' in Hl.
  assert (X : vmm_ext s s').
  { unfold s'. apply map_identity_range_ext; assumption. }
  destruct Hl as [E|(va0 & Hin & Hm0 & E2 & E1 & E0 & El)].
  - right. apply vmm_translate_same_leaf; [exact Hwf|apply X|apply X|exact E].
  - destruct (Z.eq_dec va va0) as [<-|Hne].
    + left. split; [exact Hin|].
      assert (Hok : page_ok va) by (split; [lia|exact Hva]).
      apply (translate_of_leaf s' va va
               (vmm_flags_to_pte_flags (Z.lor f VMM_P_PRESENT)) (ext_wf _ _ X)); auto.
      * rewrite (ext_pd _ _ X). exact Hpd.
      * apply present_installed. apply Hok.
    + exfalso.
      pose proof (vpn_triple_distinct va va0 Hva0 ltac:(lia) Hva Hm0 Hne (Hnear va0 Hin))
        as Hf.
      rewrite <- E2, <- E1, <- E0, !Z.eqb_refl in Hf. discriminate.
Qed.

Lemma map_identity_range_identity_witness :
  let s' := map_identity_range 0x80011000 0x80012000 VMM_P_RW demo_vm in
  (0x80011000 - 0x80011000 mod 4096 <= 0x80011000 < 0x80012000 /\
   vmm_translate 0x80011000 s' = 0x80011000) \/
  vmm_translate 0x80011000 s' = vmm_translate 0x80011000 demo_vm.
Proof.
  apply map_identity_range_identity.
  - exact demo_vm_wf.
  - vm_compute. discriminate.
  - lia.
  - unfold two64. lia.
  - reflexivity.
  - lia.
  - intros x Hx. change (0x80011000 mod 4096) with 0 in Hx.
    change (2 ^ 39) with 549755813888. lia.
Defined.

Lemma map_identity_loop_more_fuel f end_ k : forall fuel addr s,
  0 <= addr -> end_ <= two64 - 4096 ->
  (end_ - addr) / 4096 + 1 <= Z.of_nat fuel ->
  map_identity_loop (fuel + k) addr end_ f s = map_identity_loop fuel addr end_ f s.
Proof.
  induction fuel as [|fuel IH]; intros addr s Ha He Hf.
  - assert (Hge : end_ <= addr).
    { destruct (Z_lt_le_dec addr end_) as [Hlt|Hge]; [|exact Hge].
      assert (0 <= (end_ - addr) / 4096) by (apply Z.div_pos; lia).
      cbn in Hf. lia. }
    cbn [Nat.add map_identity_loop]. destruct k as [|k]; [reflexivity|].
    cbn [map_identity_loop].
    destruct (Z.ltb_spec addr end_); [lia|reflexivity].
  - cbn [Nat.add map_identity_loop].
    destruct (Z.ltb_spec addr end_) as [Hlt|Hge]; [|reflexivity].
    destruct (vmm_map addr addr f s) as [r s1].
    assert (Eu : u64 (addr + VMM_PAGE_SIZE) = addr + 4096).
    { unfold u64, VMM_PAGE_SIZE. apply Z.mod_small. unfold two64 in *. lia. }
    rewrite Eu. apply IH; [lia|exact He|].
    replace (end_ - (addr + 4096)) with (end_ - addr + (-1) * 4096) by lia.
    rewrite Z.div_add by lia. lia.
Qed.

(** The loop of [map_identity_range] ends because its condition [addr < end]
    fails, not because the fuel of the model is used up: on a range that does
    not reach the last page of the address space, any further fuel gives the
    same result. *)
Theorem map_identity_range_fuel (start end_ f : Z) (s : vstate) (k : nat) :
  0 <= start < end_ -> end_ <= two64 - 4096 ->
  let addr := Z.land start (Z.lxor (two64 - 1) (VMM_PAGE_SIZE - 1)) in
  map_identity_loop (Z.to_nat ((end_ - addr) / VMM_PAGE_SIZE + 1) + k) addr end_ f s =
  map_identity_range start end_ f s.
Proof.
  intros Hs He addr. unfold map_identity_range.
  destruct (Z.leb_spec end_ start); [lia|]. fold addr.
  assert (Ea : addr = start - start mod 4096).
  { unfold addr. apply land_page_mask. unfold two64 in *. lia. }
  assert (Hm : 0 <= start mod 4096 < 4096) by (apply Z.mod_pos_bound; lia).
  assert (Hle : start mod 4096 <= start) by (apply Z.mod_le; lia).
  clearbody addr.
  apply map_identity_loop_more_fuel; [lia|exact He|].
  unfold VMM_PAGE_SIZE, PAGE_SIZE.
  assert (0 <= (end_ - addr) / 4096) by (apply Z.div_pos; lia).
  rewrite Z2Nat.id by lia. lia.
Qed.

Lemma map_identity_range_fuel_witness :
  let addr := Z.land 0x80011800 (Z.lxor (two64 - 1) (VMM_PAGE_SIZE - 1)) in
  map_identity_loop (Z.to_nat ((0x80013000 - addr) / VMM_PAGE_SIZE + 1) + 5)
                    addr 0x80013000 VMM_P_RW demo_vm =
  map_identity_range 0x80011800 0x80013000 VMM_P_RW demo_vm.
Proof.
  apply (map_identity_range_fuel 0x80011800 0x80013000 VMM_P_RW demo_vm 5).
  - lia.
  - unfold two64. lia.
Defined.

(** ** [vmm_self_test] and [vmm_init] *)

Lemma translate_leaf_upd_zero s s1 va va' :
  vmm_wf s -> vmm_wf s1 -> kernel_pd s1 = kernel_pd s ->
  (forall i j k, idx i -> idx j -> idx k ->
     leaf s1 i j k =
     if (i =? SV39_VPN2 va) && (j =? SV39_VPN1 va) && (k =? SV39_VPN0 va)
     then 0 else leaf s i j k) ->
  vmm_translate va' s1 = vmm_translate va' s \/ vmm_translate va' s1 = NULL.
Proof.
  intros Hwf Hwf1 Hk U.
  pose proof (U (SV39_VPN2 va') (SV39_VPN1 va') (SV39_VPN0 va')
                (idx_vpn2 va') (idx_vpn1 va') (idx_vpn0 va')) as E.
  destruct ((SV39_VPN2 va' =? SV39_VPN2 va) && (SV39_VPN1 va' =? SV39_VPN1 va) &&
            (SV39_VPN0 va' =? SV39_VPN0 va)).
  - right. apply translate_of_absent; [exact Hwf1|]. rewrite E. reflexivity.
  - left. apply vmm_translate_same_leaf; assumption.
Qed.

(** On a well-formed memory subsystem every check of [vmm_self_test] holds.
    The test keeps the table tree well formed and the root in place, gives
    the page it took back to the allocator (table pages the walk needed stay
    in the tree), and removes at most translations: when it ran, its test
    address [0x80400000] is unmapped afterwards, whatever it was before. *)
Theorem vmm_self_test_passes (s : vstate) :
  vmm_wf s -> kernel_pd s <> 0 ->
  let r := vmm_self_test s in
  (forall b, In b (fst r) -> b = true) /\
  vmm_wf (snd r) /\ kernel_pd (snd r) = kernel_pd s /\
  (forall q, In q (freelist (snd r)) -> In q (freelist s)) /\
  (forall va, vmm_translate va (snd r) = vmm_translate va s \/
              vmm_translate va (snd r) = NULL) /\
  (fst r <> [] -> vmm_translate 0x80400000 (snd r) = NULL).
Proof.
  intros Hwf Hpd. cbv zeta. unfold vmm_self_test, kalloc.
  destruct (freelist s) as [|p rest] eqn:F.
  { cbn [nonzero NULL Z.eqb negb fst snd]. rewrite F.
    split; [intros b []|]. split; [exact Hwf|]. split; [reflexivity|].
    split; [auto|]. split; [auto|]. intros H. contradiction. }
  destruct (pop_spec s p rest Hwf F) as (X1 & S1 & N1 & Pp & Zp & Ip).
  set (v1 := set_freelist rest s) in *.
  rewrite (nonzero_eq_true _ Zp). cbn [negb]. cbv zeta.
  assert (Hpd1 : kernel_pd v1 <> 0) by exact Hpd.
  destruct (vmm_map 0x80400000 p (Z.lor VMM_P_RW VMM_P_USER) v1) as [r s2] eqn:M.
  destruct (vmm_map_spec v1 _ p _ r s2 (ext_wf _ _ X1) Hpd1 (proj1 Pp) M) as (X2 & Hres).
  assert (N2 : ~ owned_page s2 p).
  { intros H. apply N1. apply (ext_owned _ _ X2). exact H. }
  assert (Hsub2 : forall q, In q (freelist s2) -> In q (p :: rest)).
  { intros q Hq. right. apply (ext_free _ _ X2) in Hq. exact Hq. }
  destruct Hres as [(-> & Hva & _ & U)|(-> & LS)].
  - (* mapped *)
    change (nonzero 0) with false. cbv iota.
    pose proof (leaf_upd_at _ _ _ _ U) as L.
    assert (Hpd2 : kernel_pd s2 <> 0) by (rewrite (ext_pd _ _ X2); exact Hpd1).
    assert (Hpr : present (make_pte p (vmm_flags_to_pte_flags
                     (Z.lor (Z.lor VMM_P_RW VMM_P_USER) VMM_P_PRESENT))) = true)
      by (apply present_installed; apply Pp).
    rewrite (translate_of_leaf s2 _ p _ (ext_wf _ _ X2) Hpd2 Hva Pp L Hpr).
    destruct (unmap_mapped_page s2 0x80400000 (ext_wf _ _ X2) Hpd2 Hva)
      as (R & W3 & K3 & U3 & F3 & _).
    { rewrite L. exact Hpr. }
    { rewrite L, pte_to_phys_make_pte by exact Pp. exact Zp. }
    { rewrite L, pte_to_phys_make_pte by exact Pp. exact N2. }
    rewrite L, pte_to_phys_make_pte in F3 by exact Pp.
    destruct (vmm_unmap 0x80400000 1 s2) as [r3 s3]. cbn [fst snd] in *. subst r3.
    assert (T3 : vmm_translate 0x80400000 s3 = NULL).
    { apply translate_of_absent; [exact W3|]. rewrite (leaf_upd_at _ _ _ _ U3). reflexivity. }
    rewrite T3, Z.eqb_refl. change (0 =? 0) with true. change (NULL =? NULL) with true.
    split.
    { intros b [<-|[<-|[<-|[]]]]; reflexivity. }
    split; [exact W3|].
    split; [rewrite K3; apply (ext_pd _ _ X2)|].
    split.
    { intros q Hq. rewrite F3 in Hq. destruct Hq as [<-|Hq]; [left; reflexivity|].
      apply Hsub2. exact Hq. }
    split; [|intros _; reflexivity].
    intros va. apply (translate_leaf_upd_zero s s3 0x80400000 va Hwf W3).
    { rewrite K3. apply (ext_pd _ _ X2). }
    intros i j k Hi Hj Hk. rewrite U3, U by assumption.
    destruct ((i =? SV39_VPN2 0x80400000) && (j =? SV39_VPN1 0x80400000) &&
              (k =? SV39_VPN0 0x80400000)); [reflexivity|].
    apply S1; assumption.
  - (* the mapping failed *)
    change (nonzero (-1)) with true. cbv iota. cbn [fst snd].
    destruct (kfree_spec s2 p (ext_wf _ _ X2) Pp Zp N2) as (Wk & Lk & Tk).
    split; [intros b []|]. split; [exact Wk|].
    split; [apply (ext_pd _ _ X2)|].
    split.
    { intros q [<-|Hq]; [left; reflexivity|]. apply Hsub2. exact Hq. }
    split; [|intros H; contradiction].
    intros va. left. apply vmm_translate_same_leaf; [exact Hwf|exact Wk| |].
    + apply (ext_pd _ _ X2).
    + rewrite Lk, LS, S1 by auto. reflexivity.
Qed.

Lemma vmm_self_test_passes_witness :
  let r := vmm_self_test self_mapped_vm in
  (forall b, In b (fst r) -> b = true) /\
  vmm_wf (snd r) /\ kernel_pd (snd r) = kernel_pd self_mapped_vm /\
  (forall q, In q (freelist (snd r)) -> In q (freelist self_mapped_vm)) /\
  (forall va, vmm_translate va (snd r) = vmm_translate va self_mapped_vm \/
              vmm_translate va (snd r) = NULL) /\
  (fst r <> [] -> vmm_translate 0x80400000 (snd r) = NULL).
Proof.
  apply vmm_self_test_passes.
  - exact self_mapped_vm_wf.
  - vm_compute. discriminate.
Defined.

(** A zeroed page as root, with no table below it. *)
Lemma fresh_root_wf s p rest :
  NoDup (p :: rest) -> (forall q, In q (p :: rest) -> page_ok q /\ q <> 0) ->
  let s0 := set_kernel_pd p (set_ram (page_zero p (ram (set_freelist rest s)))
                                     (set_freelist rest s)) in
  vmm_wf s0 /\ forall va, vmm_translate va s0 = NULL.
Proof.
  intros Hnd Hok s0.
  destruct (Hok p (or_introl eq_refl)) as [Pp Zp].
  assert (Hl1 : forall i, idx i -> l1_at s0 i = None).
  { intros i Hi. unfold l1_at, child, rd, s0.
    cbn [ram kernel_pd set_kernel_pd set_ram set_freelist].
    rewrite load64_zero; [reflexivity|].
    intros x Hx. apply page_zero_in; [exact Pp|].
    pose proof (slot_in_page p i Pp Hi). unfold in_page, PAGE_SIZE. lia. }
  assert (Hl0 : forall i j, idx i -> l0_at s0 i j = None).
  { intros i j Hi. unfold l0_at. rewrite Hl1 by exact Hi. reflexivity. }
  apply NoDup_cons_iff in Hnd. destruct Hnd as [Hnin Hnd].
  assert (Hk : kernel_pd s0 = p) by reflexivity.
  assert (Hf : freelist s0 = rest) by reflexivity.
  clearbody s0.
  assert (Hwf : vmm_wf s0).
  { constructor; rewrite ?Hk, ?Hf.
    - exact Pp.
    - exact Hnd.
    - intros q Hq. destruct (Hok q (or_intror Hq)) as [Pq Zq].
      split; [exact Pq|]. split; [exact Zq|]. intros ->. apply Hnin. exact Hq.
    - intros i t Hi H. rewrite Hl1 in H by exact Hi. discriminate.
    - intros i j t Hi Hj H. rewrite Hl0 in H by exact Hi. discriminate.
    - intros i i' t Hi Hi' H. rewrite Hl1 in H by exact Hi. discriminate.
    - intros i j i' j' t Hi Hj Hi' Hj' H. rewrite Hl0 in H by exact Hi. discriminate. }
  split; [exact Hwf|].
  intros va. apply translate_of_absent; [exact Hwf|].
  unfold leaf. rewrite Hl0 by apply idx_vpn2. reflexivity.
Qed.

(** [vmm_init] on a memory subsystem without root table, whose allocator holds
    distinct non-null pages: the first free page becomes the root, every
    check of the self-test holds, the table tree is well formed (the
    invariant [vmm_map], [vmm_unmap] and [vmm_translate] rely on), any
    aligned address below 512 GiB is unmapped or mapped to itself, and a
    second [vmm_init] does nothing. *)
Theorem vmm_init_establishes_invariant (s : vstate) (p : Z) (rest : list Z) :
  kernel_pd s = NULL -> freelist s = p :: rest ->
  NoDup (freelist s) -> (forall q, In q (freelist s) -> page_ok q /\ q <> 0) ->
  let r := vmm_init s in
  (forall b, In b (fst r) -> b = true) /\
  vmm_wf (snd r) /\ kernel_pd (snd r) = p /\
  (forall q, In q (freelist (snd r)) -> In q rest) /\
  (forall va, va mod 4096 = 0 -> 0 <= va < 2 ^ 39 ->
     vmm_translate va (snd r) = va \/ vmm_translate va (snd r) = NULL) /\
  vmm_init (snd r) = ([], snd r).
Proof.
  intros Hk F Hnd Hok. rewrite F in Hnd, Hok.
  destruct (Hok p (or_introl eq_refl)) as [Pp Zp].
  destruct (fresh_root_wf s p rest Hnd Hok) as [W0 T0].
  cbv zeta. unfold vmm_init. rewrite Hk. change (nonzero NULL) with false. cbv iota.
  unfold alloc_page_table_page, kalloc. rewrite F.
  cbv beta iota zeta. rewrite !(nonzero_eq_true _ Zp). cbn [negb]. cbv beta iota zeta.
  set (s0 := set_kernel_pd p _) in *.
  assert (Hpd0 : kernel_pd s0 <> 0) by exact Zp.
  destruct (vmm_self_test_passes s0 W0 Hpd0) as (C1 & W1 & K1 & F1 & T1 & _).
  destruct (vmm_self_test s0) as [checks s1]. cbn [fst snd] in *.
  cbv beta iota zeta. cbn [fst snd].
  assert (Hpd1 : kernel_pd s1 <> 0) by (rewrite K1; exact Hpd0).
  assert (Hstep : forall a e f v va,
            vmm_wf v -> kernel_pd v <> 0 -> 0 <= a -> e <= 2 ^ 39 ->
            va mod 4096 = 0 -> 0 <= va < 2 ^ 39 ->
            (vmm_translate va v = va \/ vmm_translate va v = NULL) ->
            let v' := map_identity_range a e f v in
            vmm_translate va v' = va \/ vmm_translate va v' = NULL).
  { intros a e f v va Wv Kv Ha He Hva Hr Hv v'.
    assert (Hb39 : 2 ^ 39 = 549755813888) by reflexivity.
    pose proof (Z.mod_pos_bound a 4096 ltac:(lia)).
    pose proof (Z.mod_le a 4096 Ha ltac:(lia)).
    destruct (map_identity_range_identity a e f va v Wv Kv Ha) as [[_ E]|E].
    - unfold two64. lia.
    - exact Hva.
    - lia.
    - intros x Hx. lia.
    - left. exact E.
    - unfold v'. rewrite E. exact Hv. }
  assert (Hext : forall a e f v, vmm_wf v -> kernel_pd v <> 0 -> 0 <= a < two64 ->
            let v' := map_identity_range a e f v in
            vmm_wf v' /\ kernel_pd v' = kernel_pd v /\
            (forall q, In q (freelist v') -> In q (freelist v))).
  { intros a e f v Wv Kv Ha v'.
    pose proof (map_identity_range_ext a e f v Wv Kv Ha) as X.
    split; [apply X|]. split; [apply X|apply X]. }
  set (e1 := u64 (0x80000000 + Z.shiftl 128 20)).
  set (f1 := Z.lor VMM_P_RW VMM_P_USER).
  destruct (Hext 0x80000000 e1 f1 s1 W1 Hpd1 ltac:(unfold two64; lia)) as (A1 & A2 & A3).
  set (v2 := map_identity_range 0x80000000 e1 f1 s1) in *.
  destruct (Hext 0x10000000 (u64 (0x10000000 + 0x1000)) VMM_P_RW v2 A1
              ltac:(rewrite A2; exact Hpd1) ltac:(unfold two64; lia)) as (B1 & B2 & B3).
  set (v3 := map_identity_range 0x10000000 _ VMM_P_RW v2) in *.
  destruct (Hext VIRTIO_MMIO_START VIRTIO_MMIO_END VMM_P_RW v3 B1
              ltac:(rewrite B2, A2; exact Hpd1)
              ltac:(unfold VIRTIO_MMIO_START, two64; lia)) as (D1 & D2 & D3).
  set (v4 := map_identity_range VIRTIO_MMIO_START _ VMM_P_RW v3) in *.
  destruct (Hext 0x02000000 0x02010000 VMM_P_RW v4 D1
              ltac:(rewrite D2, B2, A2; exact Hpd1) ltac:(unfold two64; lia))
    as (G1 & G2 & G3).
  set (v5 := map_identity_range 0x02000000 _ VMM_P_RW v4) in *.
  destruct (Hext PLIC_BASE (u64 (PLIC_BASE + 0x200000)) VMM_P_RW v5 G1
              ltac:(rewrite G2, D2, B2, A2; exact Hpd1)
              ltac:(unfold PLIC_BASE, two64; lia)) as (I1 & I2 & I3).
  set (v6 := map_identity_range PLIC_BASE _ VMM_P_RW v5) in *.
  assert (K6 : kernel_pd v6 = p).
  { rewrite I2, G2, D2, B2, A2, K1. reflexivity. }
  split; [exact C1|]. split; [exact I1|]. split; [exact K6|].
  split.
  { intros q Hq. apply (F1 q). apply A3, B3, D3, G3, I3. exact Hq. }
  split.
  - intros va Hva Hr.
    assert (Hb39 : 2 ^ 39 = 549755813888) by reflexivity.
    apply Hstep; [exact G1|rewrite G2, D2, B2, A2; exact Hpd1|unfold PLIC_BASE; lia|
                  vm_compute; discriminate|exact Hva|exact Hr|].
    apply Hstep; [exact D1|rewrite D2, B2, A2; exact Hpd1|lia|
                  vm_compute; discriminate|exact Hva|exact Hr|].
    apply Hstep; [exact B1|rewrite B2, A2; exact Hpd1|unfold VIRTIO_MMIO_START; lia|
                  vm_compute; discriminate|exact Hva|exact Hr|].
    apply Hstep; [exact A1|rewrite A2; exact Hpd1|lia|
                  vm_compute; discriminate|exact Hva|exact Hr|].
    apply Hstep; [exact W1|exact Hpd1|lia|vm_compute; discriminate|exact Hva|exact Hr|].
    right. destruct (T1 va) as [E|E]; [rewrite E; apply T0|exact E].
  - rewrite K6, (nonzero_eq_true _ Zp). reflexivity.
Qed.

Lemma vmm_init_establishes_invariant_witness :
  let r := vmm_init boot_vm in
  (forall b, In b (fst r) -> b = true) /\
  vmm_wf (snd r) /\ kernel_pd (snd r) = 0x8000F000 /\
  (forall q, In q (freelist (snd r)) -> In q [0x80010000; 0x80011000; 0x80012000]) /\
  (forall va, va mod 4096 = 0 -> 0 <= va < 2 ^ 39 ->
     vmm_translate va (snd r) = va \/ vmm_translate va (snd r) = NULL) /\
  vmm_init (snd r) = ([], snd r).
Proof.
  apply (vmm_init_establishes_invariant boot_vm 0x8000F000
           [0x80010000; 0x80011000; 0x80012000]).
  - reflexivity.
  - reflexivity.
  - apply nodupb_sound. vm_compute. reflexivity.
  - intros q Hq. split; [apply page_okb_sound|].
    + cbn in Hq. destruct Hq as [<-|[<-|[<-|[<-|[]]]]]; vm_compute; reflexivity.
    + cbn in Hq. destruct Hq as [<-|[<-|[<-|[<-|[]]]]]; discriminate.
Defined.

(** * Further properties of the process subsystem *)

(** ** The intrusive lists *)

Lemma list_seg_functional pc : forall l1 l2 p,
  list_seg pc p l1 NULL -> list_seg pc p l2 NULL -> l1 = l2.
Proof.
  induction l1 as [|a l1 IH]; intros [|b l2] p H1 H2; cbn in H1, H2.
  - reflexivity.
  - destruct H2 as (E & Hb & _). congruence.
  - destruct H1 as (E & Ha & _). congruence.
  - destruct H1 as (E1 & _ & H1). destruct H2 as (E2 & _ & H2).
    subst p. subst b. f_equal. exact (IH l2 _ H1 H2).
Qed.

Lemma is_list_nodup pc l : forall p, is_list pc p l -> NoDup l.
Proof.
  unfold is_list. induction l as [|x l IH]; intros p H; [constructor|].
  pose proof H as (E & Hx & Hr). constructor; [|exact (IH _ Hr)].
  intros Hin. destruct (in_split _ _ Hin) as (l1 & l2 & El). subst l.
  apply list_seg_app in Hr. destruct Hr as (m & _ & Hm).
  pose proof Hm as (Em & _ & _). subst m p.
  pose proof (list_seg_functional pc _ _ x H Hm) as Ef.
  apply (f_equal (@length Z)) in Ef. cbn [length] in Ef.
  rewrite length_app in Ef. cbn [length] in Ef. lia.
Qed.

(** An intrusive list is a function of its head: [next] pointers that lead to
    [NULL] visit one sequence of PCBs, without repetition. *)
Theorem intrusive_list_unique (pc : Z -> PCB) (p : Z) (l1 l2 : list Z) :
  is_list pc p l1 -> is_list pc p l2 -> l1 = l2 /\ NoDup l1.
Proof.
  intros H1 H2. split.
  - exact (list_seg_functional pc l1 l2 p H1 H2).
  - exact (is_list_nodup pc l1 p H1).
Qed.

Lemma intrusive_list_unique_witness :
  [P3; P1] = [P3; P1] /\ NoDup [P3; P1].
Proof.
  apply (intrusive_list_unique (pcbs exit_kstate) (blocked_list exit_kstate)).
  - apply is_listb_sound. vm_compute. reflexivity.
  - apply is_listb_sound. vm_compute. reflexivity.
Defined.

(** ** [enqueue] and [dequeue] *)

(** [enqueue] appends at the tail: the queue holds the old elements in their
    order, then the new one, and [count] is one more; no PCB changes except
    in its [next] link, and nothing else of the kernel state changes. *)
Theorem enqueue_appends (s : kstate) (rq p : Z) (l : list Z) :
  rq <> NULL -> p <> NULL -> is_queue s rq l -> ~ In p l ->
  let s' := enqueue rq p s in
  is_queue s' rq (l ++ [p]) /\
  count (queues s' rq) = s32 (count (queues s rq) + 1) /\
  same_but_next (pcbs s) (pcbs s') /\
  (forall r, r <> rq -> queues s' r = queues s r) /\
  vm s' = vm s /\ current_proc s' = current_proc s /\ next_pid s' = next_pid s.
Proof.
  intros Hrq Hp Hq Hnin.
  destruct (enqueue_spec s rq p l Hrq Hp Hq Hnin)
    as (A & B & C & _ & _ & D & E & _ & _ & F & _ & _ & G & _).
  cbv zeta. auto 10.
Qed.

Lemma demo_ready_queue : is_queue demo_kstate RQ [P2].
Proof. split; [apply is_listb_sound; vm_compute; reflexivity|reflexivity]. Qed.

Lemma enqueue_appends_witness :
  is_queue (enqueue RQ P1 demo_kstate) RQ [P2; P1].
Proof.
  apply (enqueue_appends demo_kstate RQ P1 [P2]).
  - vm_compute. discriminate.
  - vm_compute. discriminate.
  - exact demo_ready_queue.
  - vm_compute. intuition discriminate.
Defined.

Ltac qsimp :=
  repeat (rewrite queues_upd_same || rewrite queues_upd_pcb || rewrite pcbs_upd_queue);
  cbn [head tail count].

Lemma dequeue_spec s rq p l :
  rq <> NULL -> is_queue s rq (p :: l) ->
  let r := dequeue rq s in
  fst r = p /\ is_queue (snd r) rq l /\
  next (pcbs (snd r) p) = NULL /\
  count (queues (snd r) rq) = s32 (count (queues s rq) - 1) /\
  (forall q, q <> p -> pcbs (snd r) q = pcbs s q) /\
  same_but_next (pcbs s) (pcbs (snd r)) /\
  (forall q, q <> rq -> queues (snd r) q = queues s q) /\
  vm (snd r) = vm s /\ idle_proc (snd r) = idle_proc s /\
  ready_queue (snd r) = ready_queue s /\ current_proc (snd r) = current_proc s /\
  zombie_list (snd r) = zombie_list s /\ blocked_list (snd r) = blocked_list s /\
  next_pid (snd r) = next_pid s /\ csr_mstatus (snd r) = csr_mstatus s.
Proof.
  intros Hrq [Hl Ht]. pose proof (is_list_nodup _ _ _ Hl) as Hnd.
  apply NoDup_cons_iff in Hnd. destruct Hnd as [Hnin _].
  pose proof Hl as (Eh & Hp & Hrest).
  cbv zeta. unfold dequeue.
  rewrite (nonzero_eq_true _ Hrq), Eh, (nonzero_eq_true _ Hp). cbn [negb orb]. cbv zeta.
  rewrite queues_upd_same. cbn [head fst snd].
  destruct l as [|x l'].
  - (* the queue becomes empty *)
    cbn in Hrest. rewrite Hrest. change (nonzero NULL) with false. cbn [negb].
    split; [reflexivity|]. split.
    { split; [unfold is_list|]; qsimp; reflexivity. }
    split; [qsimp; rewrite pcbs_upd_same; reflexivity|].
    split; [qsimp; reflexivity|].
    split.
    { intros q Hq. qsimp. rewrite pcbs_upd_other by exact Hq. qsimp. reflexivity. }
    split.
    { intros q. qsimp. destruct (Z.eq_dec q p) as [->|Hq].
      - rewrite pcbs_upd_same. reflexivity.
      - rewrite pcbs_upd_other by exact Hq. qsimp. reflexivity. }
    split.
    { intros q Hq. rewrite queues_upd_other by exact Hq. rewrite queues_upd_pcb.
      rewrite !queues_upd_other by exact Hq. reflexivity. }
    repeat split; reflexivity.
  - (* the second element becomes the head *)
    pose proof Hrest as (Ex & Hx & Hrest').
    rewrite Ex, (nonzero_eq_true _ Hx). cbn [negb].
    assert (Hxp : x <> p).
    { intros ->. apply Hnin. left; reflexivity. }
    split; [reflexivity|]. split.
    { split.
      - unfold is_list. qsimp.
        apply (list_seg_frame (pcbs s)).
        + intros y Hy. rewrite pcbs_upd_other; [qsimp; reflexivity|].
          intros ->. contradiction.
        + pose proof Hrest as Hr2. rewrite Ex in Hr2. exact Hr2.
      - qsimp. rewrite Ht. reflexivity. }
    split; [qsimp; rewrite pcbs_upd_same; reflexivity|].
    split; [qsimp; reflexivity|].
    split.
    { intros q Hq. qsimp. rewrite pcbs_upd_other by exact Hq. qsimp. reflexivity. }
    split.
    { intros q. qsimp. destruct (Z.eq_dec q p) as [->|Hq].
      - rewrite pcbs_upd_same. reflexivity.
      - rewrite pcbs_upd_other by exact Hq. qsimp. reflexivity. }
    split.
    { intros q Hq. rewrite queues_upd_other by exact Hq. rewrite queues_upd_pcb.
      rewrite !queues_upd_other by exact Hq. reflexivity. }
    repeat split; reflexivity.
Qed.

(** [dequeue] takes the head: it returns the first PCB of the queue with its
    [next] link cleared, leaves the rest in order with [count] one less, and
    touches no other PCB; on an empty queue it returns [NULL] and changes
    nothing. *)
Theorem dequeue_takes_head (s : kstate) (rq : Z) :
  rq <> NULL ->
  (is_queue s rq [] -> dequeue rq s = (NULL, s)) /\
  (forall p l, is_queue s rq (p :: l) ->
     let r := dequeue rq s in
     fst r = p /\ is_queue (snd r) rq l /\
     next (pcbs (snd r) p) = NULL /\
     count (queues (snd r) rq) = s32 (count (queues s rq) - 1) /\
     (forall q, q <> p -> pcbs (snd r) q = pcbs s q) /\
     vm (snd r) = vm s /\ current_proc (snd r) = current_proc s).
Proof.
  intros Hrq. split.
  - intros [Hl _]. unfold is_list in Hl. cbn in Hl.
    unfold dequeue. rewrite Hl. change (nonzero NULL) with false.
    rewrite orb_true_r. reflexivity.
  - intros p l Hq.
    destruct (dequeue_spec s rq p l Hrq Hq)
      as (A & B & C & D & E & _ & _ & F & _ & _ & G & _).
    cbv zeta. auto 10.
Qed.

Lemma dequeue_takes_head_witness :
  fst (dequeue RQ demo_kstate) = P2 /\ is_queue (snd (dequeue RQ demo_kstate)) RQ [].
Proof.
  destruct (dequeue_takes_head demo_kstate RQ) as [_ H].
  - vm_compute. discriminate.
  - destruct (H P2 [] demo_ready_queue) as (A & B & _). split; [exact A|exact B].
Defined.

(** First in, first out: [dequeue] after [enqueue] of [p] returns the oldest
    element of the queue ([p] itself when the queue was empty) and leaves the
    others in order with [p] last. *)
Theorem enqueue_then_dequeue_fifo (s : kstate) (rq p : Z) (l : list Z) :
  rq <> NULL -> p <> NULL -> is_queue s rq l -> ~ In p l ->
  let r := dequeue rq (enqueue rq p s) in
  fst r = hd p l /\ is_queue (snd r) rq (tl (l ++ [p])) /\
  count (queues (snd r) rq) = s32 (s32 (count (queues s rq) + 1) - 1).
Proof.
  intros Hrq Hp Hq Hnin.
  destruct (enqueue_spec s rq p l Hrq Hp Hq Hnin) as (A & B & _).
  set (s1 := enqueue rq p s) in *.
  assert (E : l ++ [p] = hd p l :: tl (l ++ [p])) by (destruct l; reflexivity).
  rewrite E in A.
  destruct (dequeue_spec s1 rq _ _ Hrq A) as (C & D & _ & F & _).
  cbv zeta. rewrite F, B. auto.
Qed.

Lemma enqueue_then_dequeue_fifo_witness :
  let r := dequeue RQ (enqueue RQ P1 demo_kstate) in
  fst r = P2 /\ is_queue (snd r) RQ [P1].
Proof.
  destruct (enqueue_then_dequeue_fifo demo_kstate RQ P1 [P2]) as (A & B & _).
  - vm_compute. discriminate.
  - vm_compute. discriminate.
  - exact demo_ready_queue.
  - vm_compute. intuition discriminate.
  - split; [exact A|exact B].
Defined.

(** ** [schedule] *)








(** ** [proc_fork]: interrupt discipline and pids *)

(** Every return of [proc_fork], the failures included, has re-enabled
    interrupts. *)
Theorem proc_fork_enables_interrupts (mepc : Z) (s : kstate) :
  intr_enabled (snd (proc_fork mepc s)) = true.
Proof.
  unfold proc_fork. cbv zeta.
  destruct (negb (nonzero (current_proc (intr_off s)))); [apply intr_enabled_on|].
  destruct (kalloc (vm (intr_off s))) as [child v].
  destruct (negb (nonzero child)); [apply intr_enabled_on|].
  destruct (kalloc _) as [stk v'].
  destruct (negb (nonzero stk)); [apply intr_enabled_on|].
  unfold fork_finish. cbv zeta.
  match goal with |- context [if ?b then _ else _] => destruct b end.
  - match goal with |- context [fork_heap_loop ?n ?i ?c ?p ?v] =>
      destruct (fork_heap_loop n i c p v) as [[j|] w] end; apply intr_enabled_on.
  - apply intr_enabled_on.
Qed.

(** A fork that fails for want of a stack page gives the PCB page back to the
    allocator, but the pid it had assigned is not given back: [next_pid]
    stays incremented. *)
Theorem proc_fork_failure_consumes_pid (mepc : Z) (s : kstate) (c : Z) :
  current_proc s <> NULL -> freelist (vm s) = [c] -> c <> NULL ->
  let s' := snd (proc_fork mepc s) in
  fst (proc_fork mepc s) = NULL /\
  freelist (vm s') = [c] /\
  next_pid s' = s32 (next_pid s + 1) /\
  current_proc s' = current_proc s.
Proof.
  intros Hc F Hnz.
  set (s2 := fork_new_child c (set_vm (set_freelist [] (vm s)) (intr_off s))).
  assert (E : proc_fork mepc s =
              (NULL, intr_on (set_vm (kfree c (vm (set_vm (vm s2) s2)))
                                     (set_vm (vm s2) s2)))).
  { unfold proc_fork. cbv zeta.
    change (current_proc (intr_off s)) with (current_proc s).
    rewrite (nonzero_eq_true _ Hc). cbn [negb].
    unfold kalloc at 1. change (vm (intr_off s)) with (vm s). rewrite F.
    rewrite (nonzero_eq_true _ Hnz). cbn [negb].
    unfold kalloc. fold s2.
    assert (E : freelist (vm s2) = []) by reflexivity. rewrite E.
    reflexivity. }
  cbv zeta. rewrite E. cbn [fst snd].
  destruct (fork_new_child_globals c
              (set_vm (set_freelist [] (vm s)) (intr_off s)))
    as (G1 & G2 & G3 & G4 & G5 & G6 & G7 & G8).
  fold s2 in G1, G2, G3, G4, G5, G6, G7, G8.
  split; [reflexivity|]. split; [reflexivity|].
  split; [exact G7|]. exact G3.
Qed.

Lemma proc_fork_failure_consumes_pid_witness :
  let s := set_vm (set_freelist [0x80010000] demo_vm) demo_kstate in
  let s' := snd (proc_fork 0x80200010 s) in
  fst (proc_fork 0x80200010 s) = NULL /\
  freelist (vm s') = [0x80010000] /\
  next_pid s' = s32 (next_pid s + 1) /\
  current_proc s' = current_proc s.
Proof.
  apply (proc_fork_failure_consumes_pid 0x80200010
           (set_vm (set_freelist [0x80010000] demo_vm) demo_kstate) 0x80010000).
  - vm_compute. discriminate.
  - reflexivity.
  - vm_compute. discriminate.
Defined.
